(** * EasyPay bulk importer: a shallow embedding of
      [dist/services/EasyPayDataImporter.js] and the properties of its
      batching, reconciliation, statistics and dry-run analysis. *)

From Stdlib Require Import ZArith Lia DecimalString.
From stdpp Require Import gmap strings list fin_maps.

Local Open Scope string_scope.
Local Open Scope list_scope.
Local Open Scope Z_scope.

(** ** Values of a client row

    A client record is a JSON object whose members are text (the
    repository's validation schema and the table declare every column as
    a string).  A member can be missing ([undefined] when read) or
    [null]. *)

Inductive jsval :=
| JUndefined
| JNull
| JString (s : string).

#[global] Instance jsval_eq_dec : EqDecision jsval.
Proof. solve_decision. Defined.

Definition jsval_encode (v : jsval) : option (option string) :=
  match v with
  | JUndefined => None
  | JNull => Some None
  | JString s => Some (Some s)
  end.

Definition jsval_decode (o : option (option string)) : jsval :=
  match o with
  | None => JUndefined
  | Some None => JNull
  | Some (Some s) => JString s
  end.

#[global] Instance jsval_countable : Countable jsval.
Proof.
  apply (inj_countable' jsval_encode jsval_decode).
  intros []; reflexivity.
Defined.

(** JavaScript truthiness: [undefined], [null] and the empty string are
    falsy. *)
Definition truthy (v : jsval) : bool :=
  match v with
  | JUndefined | JNull => false
  | JString s => negb (String.eqb s "")
  end.

(** A client record is a JavaScript object. *)
Abbreviation client := (gmap string jsval).

(** [client[name]] *)
Definition field (c : client) (name : string) : jsval :=
  default JUndefined (c !! name).

(** An element of the [Sheet1] array as [JSON.parse] gives it: a record
    object, or [null], on which reading a member throws.  An element that
    is a number, a string, a boolean or an array has none of the members
    the importer reads and behaves as the object without members. *)
Inductive json_row :=
| JsonNull
| JsonObject (c : client).

#[global] Instance json_row_eq_dec : EqDecision json_row.
Proof. solve_decision. Defined.

(** The records among the rows. *)
Definition row_objects (rows : list json_row) : list client :=
  omap (fun r => match r with JsonNull => None | JsonObject c => Some c end) rows.
Arguments row_objects : simpl never.

(** ** ImportOptions and ImportStats (EasyPayDataImporter.d.ts)

    [batchSize?: number] holds an integer: a fraction, which the
    declaration admits and on which the importer would compute in
    floating point, is not represented. *)

Record ImportOptions := {
  batchSize : option Z;
  skipDuplicates : option bool;
  updateExisting : option bool;
  dryRun : option bool
}.

(** Truthiness of an optional boolean member. *)
Definition flag (o : option bool) : bool := default false o.

(** [options = {}] *)
Definition no_options : ImportOptions :=
  {| batchSize := None; skipDuplicates := None;
     updateExisting := None; dryRun := None |}.

Record ImportStats := {
  total : Z;
  imported : Z;
  skipped : Z;
  errors : Z;
  duplicates : Z;
  processingTime : Z
}.

Definition zero_stats : ImportStats :=
  {| total := 0; imported := 0; skipped := 0; errors := 0;
     duplicates := 0; processingTime := 0 |}.

Definition set_total (n : Z) (s : ImportStats) : ImportStats :=
  {| total := n; imported := imported s; skipped := skipped s;
     errors := errors s; duplicates := duplicates s;
     processingTime := processingTime s |}.

Definition set_skipped (n : Z) (s : ImportStats) : ImportStats :=
  {| total := total s; imported := imported s; skipped := n;
     errors := errors s; duplicates := duplicates s;
     processingTime := processingTime s |}.

Definition set_duplicates (n : Z) (s : ImportStats) : ImportStats :=
  {| total := total s; imported := imported s; skipped := skipped s;
     errors := errors s; duplicates := n;
     processingTime := processingTime s |}.

Definition set_processingTime (n : Z) (s : ImportStats) : ImportStats :=
  {| total := total s; imported := imported s; skipped := skipped s;
     errors := errors s; duplicates := duplicates s;
     processingTime := n |}.

(** [stats.imported++], [stats.skipped++], [stats.errors++] *)
Definition incr_imported (s : ImportStats) : ImportStats :=
  {| total := total s; imported := imported s + 1; skipped := skipped s;
     errors := errors s; duplicates := duplicates s;
     processingTime := processingTime s |}.

Definition incr_skipped (s : ImportStats) : ImportStats :=
  set_skipped (skipped s + 1) s.

Definition incr_errors (s : ImportStats) : ImportStats :=
  {| total := total s; imported := imported s; skipped := skipped s;
     errors := errors s + 1; duplicates := duplicates s;
     processingTime := processingTime s |}.

(** ** The store: table [easypay_clients] behind [db]

    [client_id] is [TEXT UNIQUE NOT NULL], so the table is a finite map
    from the key to the 22 data columns, in the order of the schema
    (which is also the order of both SQL statements of the importer).
    The columns [id], [created_at] and [updated_at] are assigned by the
    engine and are not represented. *)

Inductive sqlval :=
| SqlNull
| SqlText (s : string).

#[global] Instance sqlval_eq_dec : EqDecision sqlval.
Proof. solve_decision. Defined.

(** Binding a JavaScript value to a [?] placeholder. *)
Definition bind_param (v : jsval) : sqlval :=
  match v with
  | JUndefined | JNull => SqlNull
  | JString s => SqlText s
  end.

(** The data columns with their [NOT NULL] flag. *)
Definition data_columns : list (string * bool) :=
  [ ("display_name", true); ("ssn", false); ("is_resident", false);
    ("password", false); ("pin", false); ("first_name", true);
    ("last_name", true); ("address", false); ("date_of_birth", false);
    ("is_enabled", false); ("email", true); ("phone", true);
    ("phone2", false); ("gender", false); ("language", false);
    ("phone_verified", false); ("email_verified", false);
    ("open_date", false); ("is_verified", false);
    ("ordered_registration", false); ("verification_date", false);
    ("registration_type", false) ].

Definition is_text (v : sqlval) : bool :=
  match v with SqlText _ => true | SqlNull => false end.

Fixpoint not_null_ok (cols : list (string * bool)) (vals : list sqlval) : bool :=
  match cols, vals with
  | [], [] => true
  | (_, required) :: cols', v :: vals' =>
      (negb required || is_text v) && not_null_ok cols' vals'
  | _, _ => false
  end.

Inductive db_call :=
| CallGet (params : list jsval)
| CallInsert (params : list jsval)
| CallUpdate (params : list jsval).

(** [faults] scripts the driver errors that do not depend on the table
    (a locked or unreachable database): each executed statement consumes
    one entry, [true] meaning that the callback receives [err].
    [calls] logs the executed statements, oldest first. *)
Record database := {
  table : gmap string (list sqlval);
  faults : list bool;
  calls : list db_call
}.

Inductive db_result (A : Type) :=
| DbErr
| DbOk (a : A).
Arguments DbErr {A}.
Arguments DbOk {A} a.

Definition execute (c : db_call) (d : database) : bool * database :=
  match faults d with
  | [] => (false, {| table := table d; faults := []; calls := calls d ++ [c] |})
  | f :: rest => (f, {| table := table d; faults := rest; calls := calls d ++ [c] |})
  end.

Definition set_table (t : gmap string (list sqlval)) (d : database) : database :=
  {| table := t; faults := faults d; calls := calls d |}.

(** [SELECT id FROM easypay_clients WHERE client_id = ?]: the result is
    whether a row came back. *)
Definition db_get (params : list jsval) (d : database) : db_result bool * database :=
  let (failed, d) := execute (CallGet params) d in
  if failed then (DbErr, d)
  else match bind_param <$> params with
       | [SqlText k] => (DbOk (bool_decide (is_Some (table d !! k))), d)
       | _ => (DbOk false, d)
       end.

(** [INSERT INTO easypay_clients (client_id, ...) VALUES (?, ...)] *)
Definition db_run_insert (params : list jsval) (d : database) : db_result unit * database :=
  let (failed, d) := execute (CallInsert params) d in
  if failed then (DbErr, d)
  else match bind_param <$> params with
       | SqlText k :: vals =>
           if bool_decide (is_Some (table d !! k)) then (DbErr, d)
           else if not_null_ok data_columns vals
                then (DbOk (), set_table (<[k := vals]> (table d)) d)
                else (DbErr, d)
       | _ => (DbErr, d)
       end.

(** [UPDATE easypay_clients SET ... WHERE client_id = ?] *)
Definition db_run_update (params : list jsval) (d : database) : db_result unit * database :=
  let (failed, d) := execute (CallUpdate params) d in
  if failed then (DbErr, d)
  else let bound := bind_param <$> params in
       let vals := take 22 bound in
       match bound !! 22%nat with
       | Some (SqlText k) =>
           match table d !! k with
           | None => (DbOk (), d)
           | Some _ =>
               if not_null_ok data_columns vals
               then (DbOk (), set_table (<[k := vals]> (table d)) d)
               else (DbErr, d)
           end
       | _ => (DbOk (), d)
       end.

(** ** The world the importer runs in

    [heap] holds the statistics objects, so that two references to one
    object can be told from two objects with the same contents.
    [fs] maps a path to what reading and parsing the file gives.
    [clock] scripts the successive readings of [Date.now()], and [sched]
    the order in which the event loop completes the statements in
    flight. *)

Definition loc := nat.

(** What [jsonData.Sheet1] evaluates to on a parsed object: nothing, a
    falsy value ([null], [false], [0] or the empty string), or an array.
    The export this importer reads puts an array there; a [Sheet1] that
    is a non-empty string, a number other than 0, [true] or an object is
    not represented, and no statement below speaks of such a source. *)
Inductive sheet1_member :=
| Sheet1Missing
| Sheet1Falsy
| Sheet1Rows (rows : list json_row).

(** The value [JSON.parse] returns.  [DocOther] stands for a top-level
    boolean, number, string or array: reading [.Sheet1] from it gives
    [undefined]. *)
Inductive json_doc :=
| DocNull
| DocOther
| DocObject (sheet1 : sheet1_member).

Inductive source_file :=
| Unparsable
| Json (doc : json_doc).

Record world := {
  heap : gmap loc ImportStats;
  db : database;
  fs : gmap string source_file;
  clock : list Z;
  sched : list nat
}.

Definition set_heap (h : gmap loc ImportStats) (w : world) : world :=
  {| heap := h; db := db w; fs := fs w; clock := clock w; sched := sched w |}.

Definition set_db (d : database) (w : world) : world :=
  {| heap := heap w; db := d; fs := fs w; clock := clock w; sched := sched w |}.

Definition set_clock (c : list Z) (w : world) : world :=
  {| heap := heap w; db := db w; fs := fs w; clock := c; sched := sched w |}.

Definition set_sched (p : list nat) (w : world) : world :=
  {| heap := heap w; db := db w; fs := fs w; clock := clock w; sched := p |}.

(** Reading and updating the object at a reference.  Every reference
    the importer holds comes from [alloc]; one that was never allocated
    reads as the zeroed object. *)
Definition read (l : loc) (w : world) : ImportStats :=
  default zero_stats (heap w !! l).

Definition update (l : loc) (f : ImportStats -> ImportStats) (w : world) : world :=
  set_heap (<[l := f (read l w)]> (heap w)) w.

(** A fresh object [{...}]. *)
Definition alloc (s : ImportStats) (w : world) : loc * world :=
  let l := fresh (dom (heap w)) in
  (l, set_heap (<[l := s]> (heap w)) w).

(** [Date.now()] *)
Definition Date_now (w : world) : Z * world :=
  match clock w with
  | [] => (0, w)
  | t :: rest => (t, set_clock rest w)
  end.

(** ** class EasyPayDataImporter *)

Record importer := {
  jsonPath : string;
  stats : loc
}.

(** [path.join(__dirname, '../../../data/easypayClients.json')] *)
Definition default_jsonPath : string := "../../../data/easypayClients.json".

Definition constructor (path : option string) (w : world) : importer * world :=
  let p := match path with
           | Some s => if String.eqb s "" then default_jsonPath else s
           | None => default_jsonPath
           end in
  let (l, w) := alloc zero_stats w in
  ({| jsonPath := p; stats := l |}, w).


(** [resetStats() { this.stats = { total: 0, ... }; }] *)
Definition resetStats (this : importer) (w : world) : importer * world :=
  let (l, w) := alloc zero_stats w in
  ({| jsonPath := jsonPath this; stats := l |}, w).

(** *** The three adapter calls *)

Definition checkExistingClient (clientId : jsval) (d : database) : db_result bool * database :=
  db_get [clientId] d.

Definition data_fields : list string :=
  [ "Display Name"; "SSN"; "Is Resident"; "Password"; "Pin"; "First Name";
    "Last Name"; "Address"; "Date Of Birth"; "Is Enabled"; "Email"; "Phone";
    "Phone2"; "Gender"; "Language"; "Phone Verified"; "Email Verified";
    "Open Date"; "Is Varificated"; "Ordered Registration";
    "VerificationDate"; "Registration Type" ].

Definition insertClient (c : client) (d : database) : db_result unit * database :=
  db_run_insert (field c "Client ID" :: (field c <$> data_fields)) d.

Definition updateClient (c : client) (d : database) : db_result unit * database :=
  db_run_update ((field c <$> data_fields) ++ [field c "Client ID"]) d.

(** *** processClient

    An [async] function runs until its next [await]; the statement it
    awaits completes in a later turn of the event loop.  A call of
    [processClient] is therefore a task that is either suspended at one
    of its three [await]s or settled. *)

Inductive task :=
| AwaitExisting (c : client)
| AwaitInsert (c : client)
| AwaitUpdate (c : client)
| Settled.

Definition is_settled (t : task) : bool :=
  match t with Settled => true | _ => false end.

(** From the call to the first [await]; [entry] is the source's
    [client].  On a [null] row the read of
    [client["Client ID"]] throws inside [try]; the [catch] block reads
    [client["Client ID"]] again to build its message, before
    [this.stats.errors++], and throws in turn: the promise is rejected
    and no counter has moved. *)
Definition processClient_start (this : importer) (entry : json_row) (w : world)
    : task * world :=
  match entry with
  | JsonNull => (Settled, w)
  | JsonObject c =>
      let clientId := field c "Client ID" in
      if negb (truthy clientId)
      then (Settled, update (stats this) incr_errors w)
      else (AwaitExisting c, w)
  end.

(** The awaited statement completes and the body runs on to its next
    [await] or to its end; a rejected statement lands in [catch]. *)
Definition processClient_resume (this : importer) (options : ImportOptions)
    (t : task) (w : world) : task * world :=
  match t with
  | AwaitExisting c =>
      let (r, d) := checkExistingClient (field c "Client ID") (db w) in
      let w := set_db d w in
      match r with
      | DbErr => (Settled, update (stats this) incr_errors w)
      | DbOk existingClient =>
          if existingClient then
            if flag (skipDuplicates options)
            then (Settled, update (stats this) incr_skipped w)
            else if flag (updateExisting options)
                 then (AwaitUpdate c, w)
                 else (Settled, update (stats this) incr_skipped w)
          else (AwaitInsert c, w)
      end
  | AwaitInsert c =>
      let (r, d) := insertClient c (db w) in
      let w := set_db d w in
      match r with
      | DbErr => (Settled, update (stats this) incr_errors w)
      | DbOk _ => (Settled, update (stats this) incr_imported w)
      end
  | AwaitUpdate c =>
      let (r, d) := updateClient c (db w) in
      let w := set_db d w in
      match r with
      | DbErr => (Settled, update (stats this) incr_errors w)
      | DbOk _ => (Settled, update (stats this) incr_imported w)
      end
  | Settled => (Settled, w)
  end.

(** One call run to its end with nothing else in flight. *)
Definition processClient (this : importer) (entry : json_row) (options : ImportOptions)
    (w : world) : world :=
  let (t1, w1) := processClient_start this entry w in
  let (t2, w2) := processClient_resume this options t1 w1 in
  snd (processClient_resume this options t2 w2).

(** *** processBatch

    [batch.map(...)] starts every call in order; the event loop then
    resumes the tasks in the order of [sched] until all are settled,
    fulfilled or rejected ([Promise.allSettled]).  Once the script is
    used up the remaining tasks complete in index order. *)

Fixpoint start_all (this : importer) (batch : list json_row) (w : world) : list task * world :=
  match batch with
  | [] => ([], w)
  | c :: rest =>
      let (t, w) := processClient_start this c w in
      let (ts, w) := start_all this rest w in
      (t :: ts, w)
  end.

Definition resume_at (this : importer) (options : ImportOptions) (i : nat)
    (tasks : list task) (w : world) : list task * world :=
  match tasks !! i with
  | None => (tasks, w)
  | Some t =>
      let (t', w') := processClient_resume this options t w in
      (<[i := t']> tasks, w')
  end.

Fixpoint settle_all (this : importer) (options : ImportOptions)
    (tasks : list task) (w : world) : world :=
  match tasks with
  | [] => w
  | t :: rest =>
      let (t1, w1) := processClient_resume this options t w in
      let (_, w2) := processClient_resume this options t1 w1 in
      settle_all this options rest w2
  end.

Fixpoint event_loop (this : importer) (options : ImportOptions) (picks : list nat)
    (tasks : list task) (w : world) : world :=
  if forallb is_settled tasks then set_sched picks w
  else match picks with
       | [] => settle_all this options tasks (set_sched [] w)
       | i :: picks' =>
           let (tasks', w') := resume_at this options i tasks w in
           event_loop this options picks' tasks' w'
       end.

Definition processBatch (this : importer) (batch : list json_row)
    (options : ImportOptions) (w : world) : world :=
  let (tasks, w) := start_all this batch w in
  event_loop this options (sched w) tasks w.

(** *** How a call ends

    A call returns, throws (an [async] function: its promise is
    rejected), or does not come back. *)

Inductive js_error :=
| FileNotFound (path : string)
| ReadOrParseError
| TypeError.

Inductive outcome (A : Type) :=
| Returned (a : A)
| Thrown (e : js_error)
| Diverged.
Arguments Returned {A} a.
Arguments Thrown {A} e.
Arguments Diverged {A}.

(** *** analyzeData (dry run) *)

(** One iteration of the [for ... of] loop, on a record object, over
    the two sets and the local counter. *)
Definition analyze_step (acc : gset jsval * gset jsval * Z) (c : client)
    : gset jsval * gset jsval * Z :=
  let '(clientIds, emails, dups) := acc in
  let clientId := field c "Client ID" in
  let email := field c "Email" in
  let '(clientIds, dups) :=
    if bool_decide (clientId ∈ clientIds)
    then (clientIds, dups + 1)
    else ({[clientId]} ∪ clientIds, dups) in
  if truthy email && bool_decide (email ∈ emails)
  then (clientIds, emails, dups + 1)
  else if truthy email
       then (clientIds, {[email]} ∪ emails, dups)
       else (clientIds, emails, dups).

(** The local counter after the loop ran over record objects. *)
Definition count_duplicates (clients : list client) : Z :=
  snd (fold_left analyze_step clients (∅, ∅, 0)).

(** The loop over the rows: on a [null] row the read of
    [client["Client ID"]] throws and the loop is left ([None]). *)
Fixpoint analyze_loop (clients : list json_row) (acc : gset jsval * gset jsval * Z)
    : option (gset jsval * gset jsval * Z) :=
  match clients with
  | [] => Some acc
  | JsonNull :: _ => None
  | JsonObject c :: rest => analyze_loop rest (analyze_step acc c)
  end.

(** The statistics are written after the loop: when it throws,
    [duplicates] and [skipped] keep their values. *)
Definition analyzeData (this : importer) (clients : list json_row) (w : world)
    : outcome loc * world :=
  match analyze_loop clients (∅, ∅, 0) with
  | None => (Thrown TypeError, w)
  | Some (_, _, duplicates) =>
      let w := update (stats this) (set_duplicates duplicates) w in
      let w := update (stats this) (set_skipped duplicates) w in
      (Returned (stats this), w)
  end.

(** *** createBatches *)

(** The relative index of [Array.prototype.slice]. *)
Definition relative_index (len i : Z) : Z :=
  if i <? 0 then Z.max (len + i) 0 else Z.min i len.

Definition slice {A} (l : list A) (start stop : Z) : list A :=
  let len := Z.of_nat (length l) in
  let k := relative_index len start in
  let final := relative_index len stop in
  take (Z.to_nat (final - k)) (drop (Z.to_nat k) l).

(** The [for] loop, cut off after [fuel] iterations. *)
Fixpoint createBatches_loop {A} (fuel : nat) (clients : list A) (batchSize : Z)
    (i : Z) (batches : list (list A)) : option (list (list A)) :=
  if i <? Z.of_nat (length clients) then
    match fuel with
    | O => None
    | S fuel' =>
        createBatches_loop fuel' clients batchSize (i + batchSize)
          (batches ++ [slice clients i (i + batchSize)])
    end
  else Some batches.

(** [length clients] iterations are enough for every batch size that
    makes the loop end; [None] is a loop that does not end. *)
Definition createBatches {A} (clients : list A) (batchSize : Z)
    : option (list (list A)) :=
  createBatches_loop (length clients) clients batchSize 0 [].

(** *** importAll *)

(** [jsonData.Sheet1]; reading a property of [null] throws. *)
Definition get_Sheet1 (jsonData : json_doc) : option sheet1_member :=
  match jsonData with
  | DocNull => None
  | DocOther => Some Sheet1Missing
  | DocObject m => Some m
  end.

(** [jsonData.Sheet1 || []] *)
Definition rows_or_empty (m : sheet1_member) : list json_row :=
  match m with
  | Sheet1Rows rows => rows
  | Sheet1Missing | Sheet1Falsy => []
  end.

(** [options.batchSize || 100], for a [batchSize] that is absent or an
    integer. *)
Definition effective_batchSize (options : ImportOptions) : Z :=
  match batchSize options with
  | None | Some 0 => 100
  | Some b => b
  end.

Definition process_batches (this : importer) (options : ImportOptions)
    (batches : list (list json_row)) (w : world) : world :=
  fold_left (fun w batch => processBatch this batch options w) batches w.

Definition importAll (this : importer) (options : ImportOptions) (w : world)
    : outcome loc * world :=
  let (startTime, w) := Date_now w in
  match fs w !! jsonPath this with
  | None => (Thrown (FileNotFound (jsonPath this)), w)
  | Some Unparsable => (Thrown ReadOrParseError, w)
  | Some (Json jsonData) =>
      match get_Sheet1 jsonData with
      | None => (Thrown TypeError, w)
      | Some member =>
          let clients := rows_or_empty member in
          let w := update (stats this) (set_total (Z.of_nat (length clients))) w in
          if flag (dryRun options) then analyzeData this clients w
          else
            let batchSize := effective_batchSize options in
            match createBatches clients batchSize with
            | None => (Diverged, w)
            | Some batches =>
                let w := process_batches this options batches w in
                let (now, w) := Date_now w in
                let w := update (stats this) (set_processingTime (now - startTime)) w in
                (Returned (stats this), w)
            end
      end
  end.

(** ** Sample data *)

Definition row (id email : string) : client :=
  {[ "Client ID" := JString id; "Email" := JString email ]}.

Definition full_row (id name email : string) : client :=
  <[ "Client ID" := JString id ]>
  (<[ "Display Name" := JString name ]>
  (<[ "First Name" := JString name ]>
  (<[ "Last Name" := JString name ]>
  (<[ "Email" := JString email ]>
  {[ "Phone" := JString "555" ]})))).

Definition empty_db : database := {| table := ∅; faults := []; calls := [] |}.

(** A source whose [Sheet1] holds the given rows, and one whose rows
    are all record objects. *)
Definition world_of (rows : list json_row) (d : database) : world :=
  {| heap := ∅; db := d;
     fs := {[ default_jsonPath := Json (DocObject (Sheet1Rows rows)) ]};
     clock := [1000; 1250]; sched := [] |}.

Definition world_with (rows : list client) (d : database) : world :=
  world_of (JsonObject <$> rows) d.

Definition run_import (options : ImportOptions) (w0 : world) : outcome ImportStats * database :=
  let (this, w) := constructor None w0 in
  let (r, w) := importAll this options w in
  (match r with
   | Returned l => Returned (read l w)
   | Thrown e => Thrown e
   | Diverged => Diverged
   end, db w).

Definition negative_batch_options : ImportOptions :=
  {| batchSize := Some (-1); skipDuplicates := None;
     updateExisting := None; dryRun := None |}.

Definition sample_rows : list client :=
  [ full_row "A" "Ann" "a@x.com"; row "" "q@x.com";
    full_row "A" "Amy" "z@x.com"; row "B" "x@x.com" ].

Definition sample_world : world :=
  {| heap := ∅;
     db := {| table := ∅; faults := [false; true]; calls := [] |};
     fs := {[ default_jsonPath := Json (DocObject (Sheet1Rows (JsonObject <$> sample_rows))) ]};
     clock := [1000; 1250]; sched := [2; 0; 0]%nat |}.

Definition live_options : ImportOptions :=
  {| batchSize := Some 2; skipDuplicates := Some true;
     updateExisting := Some false; dryRun := Some false |}.

Definition dry_options : ImportOptions :=
  {| batchSize := None; skipDuplicates := None;
     updateExisting := None; dryRun := Some true |}.

(** A source file holding the text [null], and one holding [{}]. *)
Definition null_world : world :=
  {| heap := ∅; db := empty_db; fs := {[ default_jsonPath := Json DocNull ]};
     clock := [1000; 1250]; sched := [] |}.

Definition no_sheet_world : world :=
  {| heap := ∅; db := empty_db;
     fs := {[ default_jsonPath := Json (DocObject Sheet1Missing) ]};
     clock := [1000; 1250]; sched := [] |}.

(** The source [{"Sheet1": [null]}], and a source with a [null] between
    two records. *)
Definition null_row_world : world := world_of [JsonNull] empty_db.

Definition mixed_world : world :=
  world_of [ JsonObject (full_row "A" "Ann" "a@x.com"); JsonNull;
             JsonObject (row "" "q@x.com") ] empty_db.

(** No driver error is scripted for the next [n] statements. *)
Definition no_fault (n : nat) (d : database) : bool :=
  forallb negb (take n (faults d)).

(** The keys and the e-mail addresses of the records seen so far. *)
Definition keys_of (seen : list client) : list jsval :=
  (fun c => field c "Client ID") <$> seen.

Definition emails_of (seen : list client) : list jsval :=
  (fun c => field c "Email") <$> seen.

(** A store that already holds a row for key A, and a database whose
    next statement fails. *)
Definition stored_A : database :=
  {| table := {[ "A" := bind_param <$> (field (full_row "A" "Ann" "a@x.com") <$> data_fields) ]};
     faults := []; calls := [] |}.

Definition failing_db : database :=
  {| table := ∅; faults := [true]; calls := [] |}.

Definition both_flags : ImportOptions :=
  {| batchSize := None; skipDuplicates := Some true;
     updateExisting := Some true; dryRun := None |}.

Definition update_only : ImportOptions :=
  {| batchSize := None; skipDuplicates := Some false;
     updateExisting := Some true; dryRun := None |}.



(** The importer and the world of a run against [stored_A]. *)
Definition stored_importer : importer := fst (constructor None (world_with [] stored_A)).
Definition stored_world : world := snd (constructor None (world_with [] stored_A)).

(** The three records of the dry-run example. *)
Definition example_rows : list client :=
  [ row "A" "x@y.com"; row "A" "z@y.com"; row "B" "x@y.com" ].

(** Two records with the same key in one batch, completed in the order
    [picks]. *)
Definition race_world (picks : list nat) : world :=
  {| heap := ∅; db := empty_db;
     fs := {[ default_jsonPath :=
                Json (DocObject (Sheet1Rows [ JsonObject (full_row "A" "Ann" "a@x.com");
                                              JsonObject (full_row "A" "Amy" "z@x.com") ])) ]};
     clock := [1000; 1250]; sched := picks |}.

(** ** Accounting vocabulary *)

(** The records accounted for so far. *)
Definition accounted (s : ImportStats) : Z := imported s + skipped s + errors s.

(** [s'] is [s] after [k] more records were counted, each in one of
    [imported], [skipped] and [errors]. *)
Definition counted (k : Z) (s s' : ImportStats) : Prop :=
  accounted s' = accounted s + k
  /\ imported s <= imported s' /\ skipped s <= skipped s' /\ errors s <= errors s'
  /\ total s' = total s /\ duplicates s' = duplicates s
  /\ processingTime s' = processingTime s.

(** What a step of the importer leaves alone: the files, the clock and
    every object other than its own statistics. *)
Definition frame (this : importer) (w w' : world) : Prop :=
  fs w' = fs w /\ clock w' = clock w
  /\ forall l, l <> stats this -> heap w' !! l = heap w !! l.

Definition pend (t : task) : Z := if is_settled t then 0 else 1.

Fixpoint pending (tasks : list task) : Z :=
  match tasks with
  | [] => 0
  | t :: rest => pend t + pending rest
  end.

(** The two readings of [Date.now()] of a live import that makes no
    other reading in between. *)
Definition elapsed (w : world) : Z :=
  let (t0, w1) := Date_now w in
  let (t1, _) := Date_now w1 in
  t1 - t0.

(** The awaited statement of a task is rejected. *)
Definition adapter_fails (t : task) (d : database) : Prop :=
  match t with
  | AwaitExisting c => fst (checkExistingClient (field c "Client ID") d) = DbErr
  | AwaitInsert c => fst (insertClient c d) = DbErr
  | AwaitUpdate c => fst (updateClient c d) = DbErr
  | Settled => False
  end.

(** ** Vocabulary for the store *)

(** The data columns a record is stored with. *)
Definition row_values (c : client) : list sqlval :=
  bind_param <$> (field c <$> data_fields).

(** The number of distinct values of a list. *)
Definition distinct (l : list jsval) : nat :=
  size (list_to_set l : gset jsval).

(** A record with a key but without the display name the table requires. *)
Definition nameless_row : client :=
  {[ "Client ID" := JString "N"; "Email" := JString "n@x.com" ]}.

(** Options under which [processClient] never reaches [updateClient]. *)
Definition cannot_update (options : ImportOptions) : Prop :=
  flag (skipDuplicates options) = true \/ flag (updateExisting options) = false.

Definition awaits_update (t : task) : bool :=
  match t with AwaitUpdate _ => true | _ => false end.

(** The non-empty e-mail addresses of a list of records. *)
Definition nonempty_emails (rows : list client) : list jsval :=
  filter (fun v => truthy v = true) (emails_of rows).

(** A record that can be inserted into [d]: it has a key that [d] does
    not hold and the columns the table requires.  A record that [d]
    holds with its columns.  A database with no driver error ahead. *)
Definition ready (d : database) (c : client) : Prop :=
  exists k, field c "Client ID" = JString k /\ k <> ""
            /\ table d !! k = None
            /\ not_null_ok data_columns (row_values c) = true.

Definition stored (d : database) (c : client) : Prop :=
  exists k, field c "Client ID" = JString k /\ table d !! k = Some (row_values c).

Definition clean (d : database) : Prop :=
  Forall (fun f => f = false) (faults d).

(** The state of the task of record [c] in a batch of new records. *)
Definition in_flight (d : database) (c : client) (t : task) : Prop :=
  match t with
  | AwaitExisting c' | AwaitInsert c' => c' = c /\ ready d c
  | Settled => stored d c
  | AwaitUpdate _ => False
  end.

(** [errors] and [skipped] did not move between two worlds. *)
Definition quiet (this : importer) (w w' : world) : Prop :=
  errors (read (stats this) w') = errors (read (stats this) w)
  /\ skipped (read (stats this) w') = skipped (read (stats this) w).

(** A step that touched the store at most under the key of [c]. *)
Definition touches_only (c : client) (d d' : database) : Prop :=
  table d ⊆ table d'
  /\ forall k', JString k' <> field c "Client ID" -> table d' !! k' = table d !! k'.

(** Three records with different keys, completed out of order. *)
Definition distinct_rows : list client :=
  [ full_row "A" "Ann" "a@x.com"; full_row "B" "Bob" "b@x.com";
    full_row "C" "Cy" "c@x.com" ].

Definition distinct_world : world :=
  {| heap := ∅; db := empty_db;
     fs := {[ default_jsonPath := Json (DocObject (Sheet1Rows (JsonObject <$> distinct_rows))) ]};
     clock := [1000; 1250]; sched := [1; 0; 1; 0]%nat |}.

(** ** POST /easypay/import (dist/routes/easypay.js)

    The handler behind [authenticateToken]: it builds the options from
    the request body, runs a new importer and answers with its
    statistics, or with status 500 when the import throws.

    The body is taken as the route documents it: each member is absent
    or of its documented type, an integer [batchSize] and boolean flags.
    The handler does not validate the body, and a member of another type
    (a [batchSize] that is a string or a fraction) is not represented. *)

Record import_body := {
  body_batchSize : option Z;
  body_skipDuplicates : option bool;
  body_updateExisting : option bool;
  body_dryRun : option bool
}.

(** [x || d] on a number that may be missing. *)
Definition or_default (x : option Z) (d : Z) : Z :=
  match x with
  | None | Some 0 => d
  | Some v => v
  end.

Definition import_request_options (body : import_body) : ImportOptions :=
  {| batchSize := Some (or_default (body_batchSize body) 100);
     skipDuplicates := Some (negb (bool_decide (body_skipDuplicates body = Some false)));
     updateExisting := Some (flag (body_updateExisting body));
     dryRun := Some (flag (body_dryRun body)) |}.

Inductive import_response :=
| Json200 (message : string) (stats : ImportStats) (options : ImportOptions)
| Json500 (cause : js_error)
| NoResponse.

Definition post_import (body : import_body) (w : world) : import_response * world :=
  let options := import_request_options body in
  let (this, w) := constructor None w in
  match importAll this options w with
  | (Returned r, w') =>
      (Json200 (if flag (dryRun options) then "Data analysis completed"
                else "Import completed successfully")
         (read r w') options, w')
  | (Thrown e, w') => (Json500 e, w')
  | (Diverged, w') => (NoResponse, w')
  end.

(** ** The command-line tool (import-cli.js)

    [parseInt] is JavaScript's; it is a parameter here, [None] standing
    for [NaN]. *)

Definition cli_defaults : ImportOptions :=
  {| batchSize := Some 100; skipDuplicates := Some true;
     updateExisting := Some false; dryRun := Some false |}.

Definition set_batchSize (b : Z) (o : ImportOptions) : ImportOptions :=
  {| batchSize := Some b; skipDuplicates := skipDuplicates o;
     updateExisting := updateExisting o; dryRun := dryRun o |}.

Definition set_update_existing (o : ImportOptions) : ImportOptions :=
  {| batchSize := batchSize o; skipDuplicates := Some false;
     updateExisting := Some true; dryRun := dryRun o |}.

Definition set_dryRun (o : ImportOptions) : ImportOptions :=
  {| batchSize := batchSize o; skipDuplicates := skipDuplicates o;
     updateExisting := updateExisting o; dryRun := Some true |}.

Inductive cli_parsed :=
| CliOptions (options : ImportOptions)
| CliExit (code : Z).

(** The loop over [process.argv.slice(2)]; [--batch-size] takes the
    argument after it ([args[++i]], [undefined] past the end), and
    [--help] ends the process. *)
Fixpoint parse_args (parseInt : string -> option Z) (args : list string)
    (options : ImportOptions) : cli_parsed :=
  match args with
  | [] => CliOptions options
  | a :: rest =>
      if String.eqb a "--batch-size" then
        match rest with
        | [] => CliOptions (set_batchSize (or_default None 100) options)
        | v :: rest' =>
            parse_args parseInt rest' (set_batchSize (or_default (parseInt v) 100) options)
        end
      else if String.eqb a "--update-existing" then
        parse_args parseInt rest (set_update_existing options)
      else if String.eqb a "--dry-run" then
        parse_args parseInt rest (set_dryRun options)
      else if String.eqb a "--help" then CliExit 0
      else parse_args parseInt rest options
  end.

Inductive cli_result :=
| CliReport (stats : ImportStats) (errors_warning : bool) (dry_run_notice : bool)
| CliExited (code : Z)
| CliHangs.

Definition main (parseInt : string -> option Z) (args : list string) (w : world)
    : cli_result * world :=
  match parse_args parseInt args cli_defaults with
  | CliExit code => (CliExited code, w)
  | CliOptions options =>
      let (this, w) := constructor None w in
      match importAll this options w with
      | (Returned r, w') =>
          (CliReport (read r w') (0 <? errors (read r w')) (flag (dryRun options)), w')
      | (Thrown _, w') => (CliExited 1, w')
      | (Diverged, w') => (CliHangs, w')
      end
  end.

(** A request that asks for updates and says nothing else. *)
Definition update_request : import_body :=
  {| body_batchSize := None; body_skipDuplicates := None;
     body_updateExisting := Some true; body_dryRun := None |}.

Definition plain_request : import_body :=
  {| body_batchSize := None; body_skipDuplicates := None;
     body_updateExisting := None; body_dryRun := None |}.

(** [formatTime] of the command-line tool.

    The source computes on floating-point numbers.  For a whole number
    of milliseconds from 0 up to 2^53 every value it computes is an
    integer that the number format holds exactly: the quotients by 1000
    and by 60 are rounded by less than their distance to the next
    integer, so [Math.floor] gives the integer quotient, and [%] is
    exact.  The definitions below are the source's on that range and say
    nothing about it outside. *)

(** A number in a template string: an integer below 10^21 in absolute
    value is printed in decimal, with a leading minus sign when
    negative. *)
Definition number_to_string (z : Z) : string :=
  NilZero.string_of_int (Z.to_int z).

Definition formatTime (ms : Z) : string :=
  let seconds := ms / 1000 in
  let minutes := seconds / 60 in
  let remainingSeconds := Z.rem seconds 60 in
  if 0 <? minutes
  then String.append (number_to_string minutes)
         (String.append "m " (String.append (number_to_string remainingSeconds) "s"))
  else String.append (number_to_string remainingSeconds) "s".

(** ** GET /easypay/clients (dist/routes/easypay.js)

    The two statements of the handler are parameters: the count, and the
    page [SELECT * ... ORDER BY created_at DESC LIMIT ? OFFSET ?]. *)

Record page_query := {
  query_page : option string;
  query_limit : option string
}.

(** [parseInt(req.query.x)]; [parseInt(undefined)] is [NaN]. *)
Definition parse_query (parseInt : string -> option Z) (q : option string) : option Z :=
  match q with
  | None => None
  | Some s => parseInt s
  end.

Definition page_number (parseInt : string -> option Z) (q : page_query) : Z :=
  or_default (parse_query parseInt (query_page q)) 1.

Definition page_limit (parseInt : string -> option Z) (q : page_query) : Z :=
  Z.min (or_default (parse_query parseInt (query_limit q)) 20) 100.

Definition page_offset (parseInt : string -> option Z) (q : page_query) : Z :=
  (page_number parseInt q - 1) * page_limit parseInt q.

(** [Math.ceil(total / limit)] for a limit other than 0. *)
Definition totalPages (total limit : Z) : Z := - ((- total) / limit).

(** [LIMIT limit OFFSET offset] on the ordered rows: a negative limit is
    no limit, a negative offset is offset 0. *)
Definition limit_offset {A} (rows : list A) (limit offset : Z) : list A :=
  let rest := drop (Z.to_nat offset) rows in
  if limit <? 0 then rest else take (Z.to_nat limit) rest.

(** A row as [SELECT *] returns it: the key and the data columns. *)
Definition stored_row : Type := string * list sqlval.

Definition column_index (col : string) : option nat :=
  fst <$> list_find (fun p => fst p = col) data_columns.

(** [row.col] *)
Definition column_value (r : stored_row) (col : string) : jsval :=
  if String.eqb col "client_id" then JString (fst r)
  else match column_index col with
       | Some i => match snd r !! i with
                   | Some (SqlText s) => JString s
                   | Some SqlNull => JNull
                   | None => JUndefined
                   end
       | None => JUndefined
       end.

(** The member names of the answer and the columns they are read from. *)
Definition frontend_fields : list (string * string) :=
  [ ("Client ID", "client_id"); ("Display Name", "display_name"); ("SSN", "ssn");
    ("Is Resident", "is_resident"); ("Password", "password"); ("Pin", "pin");
    ("First Name", "first_name"); ("Last Name", "last_name"); ("Address", "address");
    ("Date Of Birth", "date_of_birth"); ("Is Enabled", "is_enabled");
    ("Email", "email"); ("Phone", "phone"); ("Phone2", "phone2"); ("Gender", "gender");
    ("Language", "language"); ("Phone Verified", "phone_verified");
    ("Email Verified", "email_verified"); ("Open Date", "open_date");
    ("Is Varificated", "is_verified"); ("Ordered Registration", "ordered_registration");
    ("VerificationDate", "verification_date"); ("Registration Type", "registration_type") ].

Definition transform (r : stored_row) : client :=
  list_to_map ((fun p => (fst p, column_value r (snd p))) <$> frontend_fields).

Record pagination := {
  page : Z;
  limit : Z;
  page_total : Z;
  page_totalPages : Z
}.

Inductive clients_response :=
| Clients200 (clients : list client) (p : pagination)
| Clients500.

Definition get_clients (parseInt : string -> option Z) (q : page_query)
    (count : db_result Z) (select : Z -> Z -> db_result (list stored_row))
    : clients_response :=
  let page := page_number parseInt q in
  let limit := page_limit parseInt q in
  let offset := (page - 1) * limit in
  match count with
  | DbErr => Clients500
  | DbOk total =>
      let totalPages := totalPages total limit in
      match select limit offset with
      | DbErr => Clients500
      | DbOk clients =>
          Clients200 (transform <$> clients)
            {| page := page; limit := limit; page_total := total;
               page_totalPages := totalPages |}
      end
  end.

(** What the handler's two statements give on rows in their order. *)
Definition count_of (rows : list stored_row) : db_result Z :=
  DbOk (Z.of_nat (length rows)).

Definition select_of (rows : list stored_row) (limit offset : Z)
    : db_result (list stored_row) :=
  DbOk (limit_offset rows limit offset).

(** What a JSON answer shows of a stored value. *)
Definition shown (v : sqlval) : jsval :=
  match v with
  | SqlNull => JNull
  | SqlText s => JString s
  end.

(** Between two worlds [imported] grew by the number of rows the table
    gained. *)
Definition new_rows (this : importer) (w w' : world) : Prop :=
  imported (read (stats this) w') - imported (read (stats this) w)
  = Z.of_nat (size (table (db w'))) - Z.of_nat (size (table (db w))).

(** * Properties *)

(** ** Batcher *)

Section Batcher.

Context {A : Type} (clients : list A) (B : Z).
Hypothesis B_pos : 1 <= B.

Let N : Z := Z.of_nat (length clients).

Lemma slice_chunk (i : Z) :
  0 <= i < N ->
  slice clients i (i + B) = take (Z.to_nat B) (drop (Z.to_nat i) clients).
Proof.
  intros Hi. unfold slice, relative_index. fold N.
  destruct (Z.ltb_spec i 0); [lia|].
  destruct (Z.ltb_spec (i + B) 0); [lia|].
  rewrite (Z.min_l i N) by lia.
  destruct (Z.le_ge_cases (i + B) N) as [Hle|Hge].
  - rewrite Z.min_l by lia. f_equal. lia.
  - rewrite Z.min_r by lia.
    rewrite !take_ge; [done| |]; rewrite length_drop; subst N; lia.
Qed.

Lemma createBatches_loop_spec (fuel : nat) :
  forall (i : Z) (acc : list (list A)),
    0 <= i ->
    N - i <= Z.of_nat fuel ->
    exists rest,
      createBatches_loop fuel clients B i acc = Some (acc ++ rest)
      /\ concat rest = drop (Z.to_nat i) clients
      /\ Z.of_nat (length rest) = (if i <? N then (N - i + B - 1) / B else 0)
      /\ (forall (j : nat) (b : list A),
            rest !! j = Some b -> (S j < length rest)%nat ->
            Z.of_nat (length b) = B).
Proof.
  induction fuel as [|fuel IH]; intros i acc Hi Hfuel.
  - exists []. cbn [createBatches_loop]. fold N.
    destruct (Z.ltb_spec i N); [lia|].
    rewrite app_nil_r. repeat split; try done.
    cbn. symmetry. apply drop_ge. subst N. lia.
  - cbn [createBatches_loop]. fold N.
    destruct (Z.ltb_spec i N) as [Hlt|Hge].
    + destruct (IH (i + B) (acc ++ [slice clients i (i + B)])) as
        (rest & Hrun & Hcat & Hlen & Hfull); [lia | lia |].
      exists (slice clients i (i + B) :: rest).
      rewrite Hrun, <- app_assoc. split; [done|].
      rewrite slice_chunk by lia.
      split; [|split].
      * cbn [concat]. rewrite Hcat.
        replace (Z.to_nat (i + B)) with (Z.to_nat i + Z.to_nat B)%nat by lia.
        rewrite <- drop_drop. apply take_drop.
      * cbn [length]. rewrite Nat2Z.inj_succ, Hlen.
        destruct (Z.ltb_spec (i + B) N).
        -- replace (N - i + B - 1) with ((N - (i + B) + B - 1) + 1 * B) by lia.
           rewrite Z.div_add by lia. lia.
        -- assert ((N - i + B - 1) / B = 1) as ->; [|lia].
           symmetry. apply (Z.div_unique_pos _ _ 1 (N - i - 1)); lia.
      * intros [|j] b Hb Hj.
        -- cbn in Hb. injection Hb as <-.
           cbn [length] in Hj.
           assert (i + B < N) as Hmore.
           { destruct (Z.ltb_spec (i + B) N); [done|]. lia. }
           rewrite length_take, length_drop. subst N. lia.
        -- cbn in Hb. cbn [length] in Hj. apply (Hfull j b Hb). lia.
    + exists []. rewrite app_nil_r. repeat split; try done.
      cbn. symmetry. apply drop_ge. subst N. lia.
Qed.

End Batcher.

(** Claim C8.  For a list of [N] records and a batch size [B >= 1],
    [createBatches] returns [ceil(N/B)] batches, every batch but the last
    one has exactly [B] records, and the batches concatenated in order
    give back the list. *)
Theorem createBatches_coverage {A} (clients : list A) (B : Z) :
  1 <= B ->
  exists batches,
    createBatches clients B = Some batches
    /\ Z.of_nat (length batches) = (Z.of_nat (length clients) + B - 1) / B
    /\ B * (Z.of_nat (length batches) - 1) < Z.of_nat (length clients)
         <= B * Z.of_nat (length batches)
    /\ concat batches = clients
    /\ (forall (j : nat) (b : list A),
          batches !! j = Some b -> (S j < length batches)%nat ->
          Z.of_nat (length b) = B).
Proof.
  intros HB.
  destruct (createBatches_loop_spec clients B HB (length clients) 0 [])
    as (rest & Hrun & Hcat & Hlen & Hfull); [lia | lia |].
  exists rest. cbn in Hrun, Hcat.
  assert (Z.of_nat (length rest) = (Z.of_nat (length clients) + B - 1) / B) as Hq.
  { rewrite Hlen. destruct (Z.ltb_spec 0 (Z.of_nat (length clients))).
    - f_equal. lia.
    - symmetry. apply Z.div_small. lia. }
  split; [done|]. split; [done|]. split; [|split; done].
  rewrite Hq.
  pose proof (Z.mul_div_le (Z.of_nat (length clients) + B - 1) B).
  pose proof (Z.mul_succ_div_gt (Z.of_nat (length clients) + B - 1) B).
  lia.
Qed.

Lemma createBatches_coverage_witness :
  1 <= 2 /\
  exists batches,
    createBatches [row "A" "x@y.com"; row "A" "z@y.com"; row "B" "x@y.com"] 2
      = Some batches
    /\ Z.of_nat (length batches) = (3 + 2 - 1) / 2
    /\ concat batches = [row "A" "x@y.com"; row "A" "z@y.com"; row "B" "x@y.com"].
Proof.
  split; [lia|].
  destruct (createBatches_coverage
              [row "A" "x@y.com"; row "A" "z@y.com"; row "B" "x@y.com"] 2)
    as (batches & H1 & H2 & _ & H3 & _); [lia|].
  exists batches. auto.
Defined.

(** A batch size below 1 on a non-empty list: the loop index never
    reaches the length, whatever the number of iterations. *)
Lemma createBatches_loop_diverges {A} (clients : list A) (B : Z) (fuel : nat) :
  B <= 0 ->
  forall (i : Z) (acc : list (list A)),
    i < Z.of_nat (length clients) ->
    createBatches_loop fuel clients B i acc = None.
Proof.
  intros HB. induction fuel as [|fuel IH]; intros i acc Hi; cbn [createBatches_loop];
    destruct (Z.ltb_spec i (Z.of_nat (length clients))); try lia; [done|].
  apply IH. lia.
Qed.

(** [createBatches] does not look at the elements. *)
Lemma slice_fmap {A A'} (f : A -> A') (l : list A) (start stop : Z) :
  slice (f <$> l) start stop = f <$> slice l start stop.
Proof. unfold slice. by rewrite length_fmap, fmap_take, fmap_drop. Qed.

Lemma createBatches_loop_fmap {A A'} (f : A -> A') (clients : list A) (B : Z)
    (fuel : nat) :
  forall (i : Z) (acc : list (list A)),
    createBatches_loop fuel (f <$> clients) B i (fmap (M:=list) f <$> acc)
    = fmap (M:=list) (fmap (M:=list) f) <$> createBatches_loop fuel clients B i acc.
Proof.
  induction fuel as [|fuel IH]; intros i acc; cbn [createBatches_loop];
    rewrite length_fmap; destruct (i <? Z.of_nat (length clients)); try done.
  rewrite <- IH. f_equal. rewrite fmap_app. cbn. by rewrite slice_fmap.
Qed.

Lemma createBatches_fmap {A A'} (f : A -> A') (clients : list A) (B : Z) :
  createBatches (f <$> clients) B
  = fmap (M:=list) (fmap (M:=list) f) <$> createBatches clients B.
Proof.
  unfold createBatches. rewrite length_fmap.
  apply (createBatches_loop_fmap f clients B (length clients) 0 []).
Qed.

Lemma effective_batchSize_cases (options : ImportOptions) :
  1 <= effective_batchSize options <->
  batchSize options = None \/ exists b, batchSize options = Some b /\ 0 <= b.
Proof.
  unfold effective_batchSize. destruct (batchSize options) as [[|p|p]|].
  - split; [intros _; right; exists 0; split; [done|lia] | lia].
  - split; [intros _; right; exists (Z.pos p); split; [done|lia] | lia].
  - split; [lia|]. intros [|(b & [= <-] & ?)]; [done|lia].
  - split; [tauto|lia].
Qed.

(** ** Statistics objects on the heap *)

Lemma read_update_eq (l : loc) (f : ImportStats -> ImportStats) (w : world) :
  read l (update l f w) = f (read l w).
Proof. unfold read at 1, update. cbn. by rewrite lookup_insert_eq. Qed.


Lemma read_set_db (l : loc) (d : database) (w : world) :
  read l (set_db d w) = read l w.
Proof. done. Qed.

Lemma read_set_sched (l : loc) (p : list nat) (w : world) :
  read l (set_sched p w) = read l w.
Proof. done. Qed.

Lemma counted_refl (s : ImportStats) : counted 0 s s.
Proof. unfold counted, accounted. lia. Qed.

Lemma counted_trans (j k : Z) (s1 s2 s3 : ImportStats) :
  counted j s1 s2 -> counted k s2 s3 -> counted (j + k) s1 s3.
Proof. unfold counted, accounted. lia. Qed.

Lemma counted_eq (j k : Z) (s s' : ImportStats) :
  j = k -> counted j s s' -> counted k s s'.
Proof. by intros ->. Qed.

Lemma frame_refl (this : importer) (w : world) : frame this w w.
Proof. by unfold frame. Qed.

Lemma frame_trans (this : importer) (w1 w2 w3 : world) :
  frame this w1 w2 -> frame this w2 w3 -> frame this w1 w3.
Proof.
  intros (Hf1 & Hc1 & Hh1) (Hf2 & Hc2 & Hh2). unfold frame.
  rewrite Hf2, Hc2. repeat split; try done.
  intros l Hl. by rewrite Hh2, Hh1.
Qed.

Lemma frame_update (this : importer) (f : ImportStats -> ImportStats) (w : world) :
  frame this w (update (stats this) f w).
Proof.
  unfold frame, update. cbn. repeat split.
  intros l Hl. by rewrite lookup_insert_ne.
Qed.

Lemma frame_set_db (this : importer) (d : database) (w : world) :
  frame this w (set_db d w).
Proof. by unfold frame. Qed.

Lemma frame_set_sched (this : importer) (p : list nat) (w : world) :
  frame this w (set_sched p w).
Proof. by unfold frame. Qed.

Lemma counted_incr_errors (this : importer) (w : world) :
  counted 1 (read (stats this) w) (read (stats this) (update (stats this) incr_errors w)).
Proof. rewrite read_update_eq. unfold counted, accounted. cbn. lia. Qed.

Lemma counted_incr_skipped (this : importer) (w : world) :
  counted 1 (read (stats this) w) (read (stats this) (update (stats this) incr_skipped w)).
Proof. rewrite read_update_eq. unfold counted, accounted. cbn. lia. Qed.

Lemma counted_incr_imported (this : importer) (w : world) :
  counted 1 (read (stats this) w) (read (stats this) (update (stats this) incr_imported w)).
Proof. rewrite read_update_eq. unfold counted, accounted. cbn. lia. Qed.

Create HintDb accounting.

#[local] Hint Resolve counted_refl frame_refl frame_update frame_set_db
  frame_set_sched counted_incr_errors counted_incr_skipped
  counted_incr_imported : accounting.

(** ** Reconciler: one task *)

Lemma row_objects_cons (r : json_row) (rows : list json_row) :
  Z.of_nat (length (row_objects (r :: rows)))
  = Z.of_nat (length (row_objects [r])) + Z.of_nat (length (row_objects rows)).
Proof. unfold row_objects. destruct r; cbn; lia. Qed.

Lemma row_objects_app (rows rows' : list json_row) :
  row_objects (rows ++ rows') = row_objects rows ++ row_objects rows'.
Proof. apply omap_app. Qed.

Lemma row_objects_fmap (rows : list client) : row_objects (JsonObject <$> rows) = rows.
Proof.
  induction rows as [|c rows IH]; [done|].
  change (row_objects (JsonObject <$> c :: rows))
    with (c :: row_objects (JsonObject <$> rows)).
  by rewrite IH.
Qed.

Lemma row_objects_length (rows : list json_row) :
  (length (row_objects rows) <= length rows)%nat.
Proof. unfold row_objects. induction rows as [|[|c] rows IH]; cbn; lia. Qed.

Lemma no_null_record (rows : list client) : JsonNull ∉ JsonObject <$> rows.
Proof. intros (c & Hc & _)%list_elem_of_fmap. done. Qed.

(** The rows are all records exactly when none of them is [null]. *)
Lemma row_objects_all (rows : list json_row) :
  length (row_objects rows) = length rows <-> JsonNull ∉ rows.
Proof.
  induction rows as [|[|c] rows IH].
  - split; [intros _; apply not_elem_of_nil | done].
  - pose proof (row_objects_length rows).
    change (row_objects (JsonNull :: rows)) with (row_objects rows). split.
    + cbn [length]. lia.
    + intros Hnull. exfalso. apply Hnull. left.
  - change (row_objects (JsonObject c :: rows)) with (c :: row_objects rows).
    cbn [length]. split.
    + intros [= Hlen]. apply not_elem_of_cons. split; [done|]. by apply IH.
    + intros [_ Hnull]%not_elem_of_cons. f_equal. by apply IH.
Qed.

Lemma processClient_start_counted (this : importer) (entry : json_row) (w : world) :
  let (t, w') := processClient_start this entry w in
  counted (Z.of_nat (length (row_objects [entry])) - pend t)
    (read (stats this) w) (read (stats this) w')
  /\ frame this w w' /\ db w' = db w /\ sched w' = sched w.
Proof.
  unfold processClient_start. destruct entry as [|c].
  - change (row_objects [JsonNull]) with (@nil client). cbn. auto with accounting.
  - change (row_objects [JsonObject c]) with [c].
    destruct (truthy (field c "Client ID")); cbn; auto with accounting.
Qed.

Lemma processClient_resume_counted (this : importer) (options : ImportOptions)
    (t : task) (w : world) :
  let (t', w') := processClient_resume this options t w in
  counted (pend t - pend t') (read (stats this) w) (read (stats this) w')
  /\ frame this w w' /\ sched w' = sched w.
Proof.
  destruct t as [c|c|c|]; cbn [processClient_resume].
  - destruct (checkExistingClient _ _) as [[|[|]] d];
      repeat (match goal with |- context [if ?b then _ else _] => destruct b end);
      cbn; rewrite ?read_set_db; split_and!; auto with accounting;
      try (eapply frame_trans; [apply (frame_set_db this d)|]; auto with accounting);
      rewrite <- (read_set_db (stats this) d w) at 1; auto with accounting.
  - destruct (insertClient _ _) as [[|] d]; cbn; split_and!; auto;
      try (eapply frame_trans; [apply (frame_set_db this d)|]; auto with accounting);
      rewrite <- (read_set_db (stats this) d w) at 1; auto with accounting.
  - destruct (updateClient _ _) as [[|] d]; cbn; split_and!; auto;
      try (eapply frame_trans; [apply (frame_set_db this d)|]; auto with accounting);
      rewrite <- (read_set_db (stats this) d w) at 1; auto with accounting.
  - cbn. auto with accounting.
Qed.

(** A task is settled after at most two completions. *)
Lemma processClient_resume_twice (this : importer) (options : ImportOptions)
    (t : task) (w : world) :
  let (t1, w1) := processClient_resume this options t w in
  fst (processClient_resume this options t1 w1) = Settled.
Proof.
  destruct t as [c|c|c|]; cbn [processClient_resume].
  - destruct (checkExistingClient _ _) as [[|[|]] d];
      repeat (match goal with |- context [if ?b then _ else _] => destruct b end);
      cbn [processClient_resume fst]; try done.
    + by destruct (updateClient _ _) as [[|] ?].
    + by destruct (insertClient _ _) as [[|] ?].
  - by destruct (insertClient _ _) as [[|] ?].
  - by destruct (updateClient _ _) as [[|] ?].
  - done.
Qed.

(** One record run to its end is counted once: the three counters never
    go down and their sum goes up by 1. *)
Lemma processClient_counted (this : importer) (c : client) (options : ImportOptions)
    (w : world) :
  counted 1 (read (stats this) w)
    (read (stats this) (processClient this (JsonObject c) options w)).
Proof.
  unfold processClient.
  pose proof (processClient_start_counted this (JsonObject c) w) as H0.
  destruct (processClient_start this (JsonObject c) w) as [t1 w1].
  pose proof (processClient_resume_counted this options t1 w1) as H1.
  pose proof (processClient_resume_twice this options t1 w1) as H12.
  destruct (processClient_resume this options t1 w1) as [t2 w2].
  pose proof (processClient_resume_counted this options t2 w2) as H2.
  destruct (processClient_resume this options t2 w2) as [t3 w3].
  cbn [fst snd] in *. subst t3.
  destruct H0 as (H0 & _), H1 as (H1 & _), H2 as (H2 & _).
  eapply counted_eq; [|exact (counted_trans _ _ _ _ _ (counted_trans _ _ _ _ _ H0 H1) H2)].
  change (pend Settled) with 0.
  change (row_objects [JsonObject c]) with [c]. cbn [length]. lia.
Qed.

(** ** Reconciler: a batch *)

Lemma pend_range (t : task) : 0 <= pend t <= 1.
Proof. unfold pend. destruct (is_settled t); lia. Qed.

Lemma pending_nonneg (tasks : list task) : 0 <= pending tasks.
Proof.
  induction tasks as [|t ts IH]; cbn; [lia|]. pose proof (pend_range t). lia.
Qed.

Lemma pending_all_settled (tasks : list task) :
  forallb is_settled tasks = true -> pending tasks = 0.
Proof.
  induction tasks as [|t ts IH]; cbn; [done|].
  intros [Ht Hts]%andb_prop. unfold pend. rewrite Ht, IH; done.
Qed.

Lemma pending_insert (tasks : list task) (i : nat) (t t' : task) :
  tasks !! i = Some t ->
  pending (<[i := t']> tasks) = pending tasks - pend t + pend t'.
Proof.
  revert i. induction tasks as [|x xs IH]; intros [|i] Hi; try done.
  - cbn in Hi. injection Hi as ->. cbn. lia.
  - cbn in Hi. change (<[S i := t']> (x :: xs)) with (x :: <[i := t']> xs).
    cbn [pending]. rewrite (IH i Hi). lia.
Qed.

Lemma start_all_counted (this : importer) (batch : list json_row) (w : world) :
  let (tasks, w') := start_all this batch w in
  counted (Z.of_nat (length (row_objects batch)) - pending tasks)
    (read (stats this) w) (read (stats this) w')
  /\ frame this w w' /\ db w' = db w /\ sched w' = sched w.
Proof.
  revert w. induction batch as [|c rest IH]; intros w; cbn [start_all].
  - cbn. auto with accounting.
  - pose proof (processClient_start_counted this c w) as H1.
    destruct (processClient_start this c w) as [t w1].
    specialize (IH w1). destruct (start_all this rest w1) as [ts w2].
    destruct H1 as (Hc1 & Hf1 & Hd1 & Hs1), IH as (Hc2 & Hf2 & Hd2 & Hs2).
    split_and!; [|by eapply frame_trans|congruence|congruence].
    eapply counted_eq; [|by eapply counted_trans].
    rewrite (row_objects_cons c rest). cbn [pending]. lia.
Qed.

Lemma resume_at_counted (this : importer) (options : ImportOptions) (i : nat)
    (tasks : list task) (w : world) :
  let (tasks', w') := resume_at this options i tasks w in
  counted (pending tasks - pending tasks')
    (read (stats this) w) (read (stats this) w')
  /\ frame this w w' /\ sched w' = sched w.
Proof.
  unfold resume_at. destruct (tasks !! i) as [t|] eqn:Hi.
  - pose proof (processClient_resume_counted this options t w) as H.
    destruct (processClient_resume this options t w) as [t' w'].
    destruct H as (Hc & Hf & Hs). split_and!; try done.
    eapply counted_eq; [|exact Hc]. rewrite (pending_insert _ _ _ _ Hi). lia.
  - split_and!; auto with accounting. eapply counted_eq; [|apply counted_refl]. lia.
Qed.

Lemma settle_all_counted (this : importer) (options : ImportOptions)
    (tasks : list task) (w : world) :
  counted (pending tasks) (read (stats this) w)
    (read (stats this) (settle_all this options tasks w))
  /\ frame this w (settle_all this options tasks w).
Proof.
  revert w. induction tasks as [|t ts IH]; intros w; cbn [settle_all pending].
  - auto with accounting.
  - pose proof (processClient_resume_counted this options t w) as H1.
    pose proof (processClient_resume_twice this options t w) as H12.
    destruct (processClient_resume this options t w) as [t1 w1].
    pose proof (processClient_resume_counted this options t1 w1) as H2.
    destruct (processClient_resume this options t1 w1) as [t2 w2].
    cbn in H12. subst t2.
    destruct H1 as (Hc1 & Hf1 & _), H2 as (Hc2 & Hf2 & _), (IH w2) as (Hc3 & Hf3).
    split; [|eauto using frame_trans].
    eapply counted_eq; [|exact (counted_trans _ _ _ _ _ (counted_trans _ _ _ _ _ Hc1 Hc2) Hc3)].
    change (pend Settled) with 0. lia.
Qed.

Lemma event_loop_counted (this : importer) (options : ImportOptions)
    (picks : list nat) :
  forall (tasks : list task) (w : world),
    counted (pending tasks) (read (stats this) w)
      (read (stats this) (event_loop this options picks tasks w))
    /\ frame this w (event_loop this options picks tasks w).
Proof.
  induction picks as [|i picks IH]; intros tasks w; cbn [event_loop];
    destruct (forallb is_settled tasks) eqn:Hall.
  - rewrite (pending_all_settled _ Hall). auto with accounting.
  - destruct (settle_all_counted this options tasks (set_sched [] w)) as [Hc Hf].
    split; [done|]. eapply frame_trans; [apply frame_set_sched|done].
  - rewrite (pending_all_settled _ Hall). auto with accounting.
  - pose proof (resume_at_counted this options i tasks w) as H.
    destruct (resume_at this options i tasks w) as [tasks' w'].
    destruct H as (Hc & Hf & _), (IH tasks' w') as [Hc' Hf'].
    split; [|eauto using frame_trans].
    eapply counted_eq; [|by eapply counted_trans]. lia.
Qed.

Lemma processBatch_counted (this : importer) (batch : list json_row)
    (options : ImportOptions) (w : world) :
  counted (Z.of_nat (length (row_objects batch))) (read (stats this) w)
    (read (stats this) (processBatch this batch options w))
  /\ frame this w (processBatch this batch options w).
Proof.
  unfold processBatch.
  pose proof (start_all_counted this batch w) as H.
  destruct (start_all this batch w) as [tasks w1].
  destruct H as (Hc & Hf & _), (event_loop_counted this options (sched w1) tasks w1)
    as [Hc' Hf'].
  split; [|eauto using frame_trans].
  eapply counted_eq; [|by eapply counted_trans]. lia.
Qed.

Lemma process_batches_counted (this : importer) (options : ImportOptions)
    (batches : list (list json_row)) :
  forall w : world,
    counted (Z.of_nat (length (row_objects (concat batches)))) (read (stats this) w)
      (read (stats this) (process_batches this options batches w))
    /\ frame this w (process_batches this options batches w).
Proof.
  unfold process_batches.
  induction batches as [|b bs IH]; intros w; cbn [fold_left concat].
  - auto with accounting.
  - destruct (processBatch_counted this b options w) as [Hc Hf].
    destruct (IH (processBatch this b options w)) as [Hc' Hf'].
    split; [|eauto using frame_trans].
    eapply counted_eq; [|by eapply counted_trans].
    rewrite row_objects_app, length_app. lia.
Qed.

(** Two records with one key in one batch: when both existence checks
    complete before either insert, the second insert is rejected by the
    key constraint and counted as an error; when the first record
    completes before the second is checked, the second is skipped. *)
Example same_key_race :
  fst (run_import no_options (race_world [0; 1; 0; 1]%nat))
  = Returned {| total := 2; imported := 1; skipped := 0; errors := 1;
                duplicates := 0; processingTime := 250 |}.
Proof. vm_compute. reflexivity. Qed.

Example same_key_in_turn :
  fst (run_import no_options (race_world [0; 0; 1; 1]%nat))
  = Returned {| total := 2; imported := 1; skipped := 1; errors := 0;
                duplicates := 0; processingTime := 250 |}.
Proof. vm_compute. reflexivity. Qed.

(** ** Orchestrator *)

Lemma Date_now_frame (w : world) :
  heap (snd (Date_now w)) = heap w /\ db (snd (Date_now w)) = db w
  /\ fs (snd (Date_now w)) = fs w /\ sched (snd (Date_now w)) = sched w.
Proof. unfold Date_now. by destruct (clock w). Qed.

Lemma read_Date_now (l : loc) (w : world) : read l (snd (Date_now w)) = read l w.
Proof. unfold Date_now, read. by destruct (clock w). Qed.

Lemma createBatches_concat {A} (clients : list A) (B : Z) (batches : list (list A)) :
  1 <= B \/ clients = [] ->
  createBatches clients B = Some batches -> concat batches = clients.
Proof.
  intros [HB| ->] Hrun.
  - destruct (createBatches_coverage clients B HB) as (bs & Hbs & _ & _ & Hcat & _).
    congruence.
  - cbn in Hrun. by injection Hrun as <-.
Qed.

(** A live import of a readable source: the importer's own object comes
    back, [total] is the number of rows, and every row that is a record
    was counted once on top of what the object held before. *)
Lemma importAll_live (this : importer) (options : ImportOptions) (w : world)
    (doc : json_doc) (member : sheet1_member) :
  fs w !! jsonPath this = Some (Json doc) ->
  get_Sheet1 doc = Some member ->
  flag (dryRun options) = false ->
  1 <= effective_batchSize options \/ rows_or_empty member = [] ->
  exists w',
    importAll this options w = (Returned (stats this), w')
    /\ total (read (stats this) w') = Z.of_nat (length (rows_or_empty member))
    /\ accounted (read (stats this) w')
        = accounted (read (stats this) w)
          + Z.of_nat (length (row_objects (rows_or_empty member)))
    /\ imported (read (stats this) w) <= imported (read (stats this) w')
    /\ skipped (read (stats this) w) <= skipped (read (stats this) w')
    /\ errors (read (stats this) w) <= errors (read (stats this) w')
    /\ duplicates (read (stats this) w') = duplicates (read (stats this) w)
    /\ fs w' = fs w
    /\ is_Some (heap w' !! stats this)
    /\ (forall l, l <> stats this -> heap w' !! l = heap w !! l).
Proof.
  intros Hfile Hdoc Hdry HB. unfold importAll.
  destruct (Date_now_frame w) as (Hh0 & Hd0 & Hf0 & Hs0).
  pose proof (read_Date_now (stats this) w) as Hr0.
  destruct (Date_now w) as [startTime w0]. cbn [snd] in *.
  rewrite Hf0, Hfile, Hdoc, Hdry.
  set (clients := rows_or_empty member) in *.
  set (w1 := update (stats this) (set_total (Z.of_nat (length clients))) w0).
  destruct (createBatches clients (effective_batchSize options)) as [batches|] eqn:Hb.
  2:{ exfalso. destruct HB as [HB|HB].
      - destruct (createBatches_coverage clients _ HB) as (bs & Hbs & _). congruence.
      - rewrite HB in Hb. done. }
  pose proof (createBatches_concat _ _ _ HB Hb) as Hcat.
  destruct (process_batches_counted this options batches w1) as [Hc (Hf & _ & Hh)].
  rewrite Hcat in Hc.
  set (w2 := process_batches this options batches w1) in *.
  destruct (Date_now_frame w2) as (Hh3 & Hd3 & Hf3 & Hs3).
  pose proof (read_Date_now (stats this) w2) as Hr3.
  destruct (Date_now w2) as [now w3]. cbn [snd] in *.
  eexists. split; [reflexivity|].
  rewrite read_update_eq, Hr3.
  assert (read (stats this) w1 = set_total (Z.of_nat (length clients)) (read (stats this) w))
    as Hr1 by (unfold w1; by rewrite read_update_eq, Hr0).
  rewrite Hr1 in Hc. unfold counted, accounted in *. cbn in Hc |- *.
  split_and!; try lia.
  - by rewrite Hf3, Hf.
  - by rewrite lookup_insert_eq.
  - intros l Hl. rewrite lookup_insert_ne by done. rewrite Hh3, (Hh l Hl).
    unfold w1, update. cbn. rewrite lookup_insert_ne by done. by rewrite Hh0.
Qed.

(** A live import of a readable source, when [createBatches] returns. *)
Lemma importAll_live_unfold (this : importer) (options : ImportOptions) (w : world)
    (doc : json_doc) (member : sheet1_member) (batches : list (list json_row)) :
  fs w !! jsonPath this = Some (Json doc) ->
  get_Sheet1 doc = Some member ->
  flag (dryRun options) = false ->
  createBatches (rows_or_empty member) (effective_batchSize options) = Some batches ->
  importAll this options w
  = (Returned (stats this),
     update (stats this)
       (set_processingTime
          (fst (Date_now
                  (process_batches this options batches
                     (update (stats this)
                        (set_total (Z.of_nat (length (rows_or_empty member))))
                        (snd (Date_now w)))))
           - fst (Date_now w)))
       (snd (Date_now
               (process_batches this options batches
                  (update (stats this)
                     (set_total (Z.of_nat (length (rows_or_empty member))))
                     (snd (Date_now w))))))).
Proof.
  intros Hfile Hdoc Hdry Hb. unfold importAll.
  destruct (Date_now_frame w) as (_ & _ & Hf0 & _).
  destruct (Date_now w) as [startTime w0]. cbn [fst snd] in *.
  rewrite Hf0, Hfile, Hdoc, Hdry, Hb.
  by destruct (Date_now _).
Qed.

(** Claim C3, as the code has it.  [importAll] hands
    [options.batchSize || 100] to [createBatches] as it is: 100 when the
    option is absent or 0, and the given integer otherwise, positive or
    negative.  That value is at least 1 exactly when the option is
    absent, 0 or positive.  A live import processes the batches that
    [createBatches] makes with that value, and does not come back when
    [createBatches] does not.  For a batch size of at least 1
    [createBatches] returns on every list; below 1 its loop ends on the
    empty list only. *)
Theorem batchSize_default_and_termination (this : importer) (options : ImportOptions)
    (w : world) (clients : list json_row) :
  (batchSize options = None \/ batchSize options = Some 0 ->
     effective_batchSize options = 100)
  /\ (forall b, batchSize options = Some b -> b <> 0 -> effective_batchSize options = b)
  /\ (1 <= effective_batchSize options <->
       batchSize options = None \/ exists b, batchSize options = Some b /\ 0 <= b)
  /\ (fs w !! jsonPath this = Some (Json (DocObject (Sheet1Rows clients))) ->
      flag (dryRun options) = false ->
      match createBatches clients (effective_batchSize options) with
      | Some batches =>
          fst (importAll this options w) = Returned (stats this)
          /\ db (snd (importAll this options w))
              = db (process_batches this options batches
                      (update (stats this) (set_total (Z.of_nat (length clients)))
                         (snd (Date_now w))))
      | None => fst (importAll this options w) = Diverged
      end)
  /\ (1 <= effective_batchSize options ->
        exists batches, createBatches clients (effective_batchSize options) = Some batches)
  /\ (effective_batchSize options < 1 -> clients <> [] ->
        forall fuel, createBatches_loop fuel clients (effective_batchSize options) 0 [] = None).
Proof.
  split_and!.
  - unfold effective_batchSize. by intros [-> | ->].
  - intros b Hb Hnz. unfold effective_batchSize. rewrite Hb. by destruct b.
  - apply effective_batchSize_cases.
  - intros Hfile Hdry.
    destruct (createBatches clients (effective_batchSize options)) as [batches|] eqn:Hb.
    + rewrite (importAll_live_unfold this options w _ _ batches Hfile eq_refl Hdry Hb).
      split; [done|]. cbn [snd rows_or_empty db update set_heap].
      by destruct (Date_now_frame
                     (process_batches this options batches
                        (update (stats this) (set_total (Z.of_nat (length clients)))
                           (snd (Date_now w))))) as (_ & -> & _).
    + unfold importAll. destruct (Date_now_frame w) as (_ & _ & Hf0 & _).
      destruct (Date_now w) as [startTime w0]. cbn [snd] in Hf0.
      rewrite Hf0, Hfile. cbn [get_Sheet1 rows_or_empty]. by rewrite Hdry, Hb.
  - intros HB. destruct (createBatches_coverage clients _ HB) as (batches & H & _).
    eauto.
  - intros HB Hne fuel. apply createBatches_loop_diverges; [lia|].
    destruct clients; [done|]. cbn [length]. lia.
Qed.

Lemma batchSize_default_and_termination_witness :
  effective_batchSize no_options = 100
  /\ effective_batchSize live_options = 2
  /\ (exists batches,
        createBatches (JsonObject <$> sample_rows) (effective_batchSize no_options)
        = Some batches)
  /\ match createBatches (JsonObject <$> sample_rows) (effective_batchSize no_options) with
     | Some batches =>
         fst (importAll (fst (constructor None sample_world)) no_options
                (snd (constructor None sample_world)))
         = Returned (stats (fst (constructor None sample_world)))
         /\ db (snd (importAll (fst (constructor None sample_world)) no_options
                       (snd (constructor None sample_world))))
             = db (process_batches (fst (constructor None sample_world)) no_options batches
                     (update (stats (fst (constructor None sample_world)))
                        (set_total (Z.of_nat (length (JsonObject <$> sample_rows))))
                        (snd (Date_now (snd (constructor None sample_world))))))
     | None =>
         fst (importAll (fst (constructor None sample_world)) no_options
                (snd (constructor None sample_world))) = Diverged
     end.
Proof.
  destruct (batchSize_default_and_termination (fst (constructor None sample_world))
              no_options (snd (constructor None sample_world))
              (JsonObject <$> sample_rows))
    as (H1 & _ & _ & H4 & H5 & _).
  destruct (batchSize_default_and_termination (fst (constructor None sample_world))
              live_options (snd (constructor None sample_world))
              (JsonObject <$> sample_rows))
    as (_ & H2 & _).
  split; [apply H1; by left|].
  split; [apply (H2 2); [reflexivity | lia]|].
  split; [apply H5; vm_compute; discriminate|].
  apply H4; [vm_compute; reflexivity | reflexivity].
Defined.

(** Claim C3 as stated fails: a negative [batchSize] reaches
    [createBatches] unclamped, and [importAll] does not come back. *)
Lemma batchSize_not_clamped :
  effective_batchSize negative_batch_options = -1
  /\ createBatches [row "A" "x@y.com"] (effective_batchSize negative_batch_options) = None
  /\ fst (run_import negative_batch_options (world_with [row "A" "x@y.com"] empty_db))
       = Diverged.
Proof. vm_compute. auto. Qed.

(** A new importer owns a new object with all six members zero. *)
Lemma constructor_fresh (path : option string) (w0 w : world) (this : importer) :
  constructor path w0 = (this, w) ->
  read (stats this) w = zero_stats
  /\ fs w = fs w0 /\ db w = db w0 /\ clock w = clock w0 /\ sched w = sched w0
  /\ heap w0 !! stats this = None.
Proof.
  unfold constructor, alloc. intros [= <- <-]. cbn.
  split_and!; try done.
  - unfold read. cbn. by rewrite lookup_insert_eq.
  - apply not_elem_of_dom, is_fresh.
Qed.

(** On a freshly constructed importer, a live import ([dryRun] false)
    with a batch size of at least 1 returns with [total] the number of
    rows and [imported + skipped + errors] the number of rows that are
    not [null], whatever the store answers and in whatever order the
    statements of a batch complete: every record lands in exactly one of
    the three counters and a [null] row in none, so the sum is [total]
    exactly when no row is [null]. *)
Theorem counter_conservation (path : option string) (options : ImportOptions)
    (w0 w : world) (this : importer) (doc : json_doc) (member : sheet1_member) (b : Z) :
  constructor path w0 = (this, w) ->
  fs w0 !! jsonPath this = Some (Json doc) ->
  get_Sheet1 doc = Some member ->
  flag (dryRun options) = false ->
  batchSize options = Some b -> 0 < b ->
  exists w',
    importAll this options w = (Returned (stats this), w')
    /\ total (read (stats this) w') = Z.of_nat (length (rows_or_empty member))
    /\ imported (read (stats this) w') + skipped (read (stats this) w')
        + errors (read (stats this) w')
        = Z.of_nat (length (row_objects (rows_or_empty member)))
    /\ (JsonNull ∉ rows_or_empty member ->
        imported (read (stats this) w') + skipped (read (stats this) w')
        + errors (read (stats this) w') = total (read (stats this) w'))
    /\ (JsonNull ∈ rows_or_empty member ->
        imported (read (stats this) w') + skipped (read (stats this) w')
        + errors (read (stats this) w') < total (read (stats this) w')).
Proof.
  intros Hnew Hfile Hdoc Hdry Hb Hpos.
  destruct (constructor_fresh _ _ _ _ Hnew) as (Hzero & Hfs & _).
  assert (1 <= effective_batchSize options) as HB.
  { unfold effective_batchSize. rewrite Hb. destruct b; lia. }
  rewrite <- Hfs in Hfile.
  destruct (importAll_live this options w doc member Hfile Hdoc Hdry (or_introl HB))
    as (w' & Hrun & Htotal & Hacc & _).
  exists w'. split; [done|]. split; [done|].
  rewrite Hzero in Hacc. unfold accounted in Hacc. cbn in Hacc.
  pose proof (row_objects_length (rows_or_empty member)) as Hle.
  pose proof (row_objects_all (rows_or_empty member)) as Hall.
  split; [lia|]. split.
  - intros Hnull. apply Hall in Hnull. lia.
  - intros Hnull.
    assert (length (row_objects (rows_or_empty member)) <> length (rows_or_empty member))
      by (intros Heq; by apply Hall in Heq).
    lia.
Qed.

Lemma counter_conservation_witness :
  exists w',
    importAll (fst (constructor None sample_world)) live_options
      (snd (constructor None sample_world))
      = (Returned (stats (fst (constructor None sample_world))), w')
    /\ total (read (stats (fst (constructor None sample_world))) w')
        = Z.of_nat (length (rows_or_empty (Sheet1Rows (JsonObject <$> sample_rows))))
    /\ imported (read (stats (fst (constructor None sample_world))) w')
        + skipped (read (stats (fst (constructor None sample_world))) w')
        + errors (read (stats (fst (constructor None sample_world))) w')
        = Z.of_nat (length (row_objects
                              (rows_or_empty (Sheet1Rows (JsonObject <$> sample_rows))))).
Proof.
  destruct (counter_conservation None live_options sample_world
              (snd (constructor None sample_world)) (fst (constructor None sample_world))
              (DocObject (Sheet1Rows (JsonObject <$> sample_rows)))
              (Sheet1Rows (JsonObject <$> sample_rows)) 2)
    as (w' & H1 & H2 & H3 & _);
    [reflexivity | vm_compute; reflexivity | reflexivity | reflexivity
    | reflexivity | lia |].
  exists w'. auto.
Defined.

(** Claim C2, on the source [{"Sheet1": [null]}].  A live import on a
    fresh importer returns with [total = 1] while [imported], [skipped]
    and [errors] are all 0: the call of [processClient] on the [null] row
    throws out of its own [catch] block before [this.stats.errors++], and
    [Promise.allSettled] takes the rejection.  With a [null] row between
    two records the sum is 2 and [total] is 3. *)
Theorem null_row_is_not_counted :
  fst (run_import live_options null_row_world)
  = Returned {| total := 1; imported := 0; skipped := 0; errors := 0;
                duplicates := 0; processingTime := 250 |}
  /\ fst (run_import live_options mixed_world)
      = Returned {| total := 3; imported := 1; skipped := 0; errors := 1;
                    duplicates := 0; processingTime := 250 |}.
Proof. by vm_compute. Qed.

(** The dry-run loop comes to its end exactly when no row is [null],
    and then it has run [analyze_step] over the records in order. *)
Lemma analyze_loop_objects (rows : list json_row) :
  forall acc,
    JsonNull ∉ rows ->
    analyze_loop rows acc = Some (fold_left analyze_step (row_objects rows) acc).
Proof.
  induction rows as [|[|c] rows IH]; intros acc Hnull; [done| |].
  - exfalso. apply Hnull. left.
  - apply not_elem_of_cons in Hnull as [_ Hnull]. cbn [analyze_loop].
    by rewrite (IH _ Hnull).
Qed.

Lemma analyze_loop_null (rows : list json_row) :
  forall acc, JsonNull ∈ rows -> analyze_loop rows acc = None.
Proof.
  induction rows as [|[|c] rows IH]; intros acc Hnull; [by apply elem_of_nil in Hnull|done|].
  apply elem_of_cons in Hnull as [|Hnull]; [done|]. cbn [analyze_loop]. by apply IH.
Qed.

Lemma analyzeData_objects (this : importer) (rows : list json_row) (w : world) :
  JsonNull ∉ rows ->
  analyzeData this rows w
  = (Returned (stats this),
     update (stats this) (set_skipped (count_duplicates (row_objects rows)))
       (update (stats this) (set_duplicates (count_duplicates (row_objects rows))) w)).
Proof.
  intros Hnull. unfold analyzeData, count_duplicates.
  rewrite (analyze_loop_objects rows _ Hnull).
  by destruct (fold_left analyze_step (row_objects rows) (∅, ∅, 0)) as [[ids emails] d].
Qed.

Lemma analyzeData_null (this : importer) (rows : list json_row) (w : world) :
  JsonNull ∈ rows -> analyzeData this rows w = (Thrown TypeError, w).
Proof. intros Hnull. unfold analyzeData. by rewrite (analyze_loop_null rows _ Hnull). Qed.

Lemma importAll_dry_run (this : importer) (options : ImportOptions) (w : world)
    (doc : json_doc) (member : sheet1_member) :
  fs w !! jsonPath this = Some (Json doc) ->
  get_Sheet1 doc = Some member ->
  flag (dryRun options) = true ->
  JsonNull ∉ rows_or_empty member ->
  exists w',
    importAll this options w = (Returned (stats this), w')
    /\ db w' = db w
    /\ read (stats this) w'
        = set_skipped (count_duplicates (row_objects (rows_or_empty member)))
            (set_duplicates (count_duplicates (row_objects (rows_or_empty member)))
               (set_total (Z.of_nat (length (rows_or_empty member)))
                  (read (stats this) w))).
Proof.
  intros Hfile Hdoc Hdry Hnull. unfold importAll.
  destruct (Date_now_frame w) as (Hh0 & Hd0 & Hf0 & Hs0).
  pose proof (read_Date_now (stats this) w) as Hr0.
  destruct (Date_now w) as [startTime w0]. cbn [snd] in *.
  rewrite Hf0, Hfile, Hdoc, Hdry, (analyzeData_objects _ _ _ Hnull).
  eexists. split; [reflexivity|]. split; [done|].
  by rewrite !read_update_eq, Hr0.
Qed.

(** A dry run over a dataset with a [null] row: [total] is written,
    then the analysis throws. *)
Lemma importAll_dry_null (this : importer) (options : ImportOptions) (w : world)
    (doc : json_doc) (member : sheet1_member) :
  fs w !! jsonPath this = Some (Json doc) ->
  get_Sheet1 doc = Some member ->
  flag (dryRun options) = true ->
  JsonNull ∈ rows_or_empty member ->
  importAll this options w
  = (Thrown TypeError,
     update (stats this) (set_total (Z.of_nat (length (rows_or_empty member))))
       (snd (Date_now w))).
Proof.
  intros Hfile Hdoc Hdry Hnull. unfold importAll.
  destruct (Date_now_frame w) as (_ & _ & Hf0 & _).
  destruct (Date_now w) as [startTime w0]. cbn [snd] in *.
  by rewrite Hf0, Hfile, Hdoc, Hdry, (analyzeData_null _ _ _ Hnull).
Qed.

(** A dry run makes no adapter call and leaves the store as it was.
    On a freshly constructed importer it leaves [imported = 0],
    [errors = 0] and [total] the number of rows; when no row is [null]
    it returns the statistics with [skipped] equal to [duplicates], and
    when a row is [null] it throws with [skipped] and [duplicates] still
    0. *)
Theorem dry_run_leaves_store (path : option string) (options : ImportOptions)
    (w0 w : world) (this : importer) (rows : list json_row) :
  constructor path w0 = (this, w) ->
  fs w0 !! jsonPath this = Some (Json (DocObject (Sheet1Rows rows))) ->
  flag (dryRun options) = true ->
  db (snd (importAll this options w)) = db w0
  /\ imported (read (stats this) (snd (importAll this options w))) = 0
  /\ errors (read (stats this) (snd (importAll this options w))) = 0
  /\ total (read (stats this) (snd (importAll this options w))) = Z.of_nat (length rows)
  /\ (JsonNull ∉ rows ->
      fst (importAll this options w) = Returned (stats this)
      /\ skipped (read (stats this) (snd (importAll this options w)))
          = duplicates (read (stats this) (snd (importAll this options w)))
      /\ duplicates (read (stats this) (snd (importAll this options w)))
          = count_duplicates (row_objects rows))
  /\ (JsonNull ∈ rows ->
      fst (importAll this options w) = Thrown TypeError
      /\ skipped (read (stats this) (snd (importAll this options w))) = 0
      /\ duplicates (read (stats this) (snd (importAll this options w))) = 0).
Proof.
  intros Hnew Hfile Hdry.
  destruct (constructor_fresh _ _ _ _ Hnew) as (Hzero & Hfs & Hdb & _).
  rewrite <- Hfs in Hfile.
  destruct (decide (JsonNull ∈ rows)) as [Hnull|Hnull].
  - rewrite (importAll_dry_null this options w _ _ Hfile eq_refl Hdry Hnull).
    cbn [fst snd rows_or_empty]. rewrite read_update_eq, read_Date_now, Hzero.
    destruct (Date_now_frame w) as (_ & Hd & _). cbn. rewrite Hd, Hdb.
    by split_and!.
  - destruct (importAll_dry_run this options w _ _ Hfile eq_refl Hdry Hnull)
      as (w' & Hrun & Hd & Hr).
    rewrite Hrun. cbn [fst snd]. rewrite Hr, Hzero, Hd, Hdb. cbn. by split_and!.
Qed.

Lemma dry_run_leaves_store_witness :
  db (snd (importAll (fst (constructor None sample_world)) dry_options
             (snd (constructor None sample_world)))) = db sample_world
  /\ total (read (stats (fst (constructor None sample_world)))
               (snd (importAll (fst (constructor None sample_world)) dry_options
                       (snd (constructor None sample_world)))))
      = Z.of_nat (length (JsonObject <$> sample_rows)).
Proof.
  destruct (dry_run_leaves_store None dry_options sample_world
              (snd (constructor None sample_world)) (fst (constructor None sample_world))
              (JsonObject <$> sample_rows))
    as (H1 & _ & _ & H2 & _);
    [reflexivity | vm_compute; reflexivity | reflexivity |].
  split; [exact H1 | exact H2].
Defined.

(** Claim C6, on the source [{"Sheet1": [null]}].  A dry run makes no
    adapter call, but it does not return statistics: [analyzeData]
    throws a [TypeError] on the [null] row, after [importAll] wrote
    [total] and before [duplicates] and [skipped] are written. *)
Theorem null_row_fails_dry_run :
  run_import dry_options null_row_world = (Thrown TypeError, empty_db)
  /\ read (stats (fst (constructor None null_row_world)))
        (snd (importAll (fst (constructor None null_row_world)) dry_options
                (snd (constructor None null_row_world))))
      = {| total := 1; imported := 0; skipped := 0; errors := 0;
           duplicates := 0; processingTime := 0 |}
  /\ fst (run_import dry_options mixed_world) = Thrown TypeError.
Proof. by vm_compute. Qed.

Lemma Date_now_clock (w w' : world) :
  clock w = clock w' -> fst (Date_now w) = fst (Date_now w').
Proof. unfold Date_now. intros ->. by destruct (clock w'). Qed.

Lemma createBatches_nil {A} (B : Z) : createBatches (@nil A) B = Some [].
Proof. reflexivity. Qed.

(** Claim C10, as the code has it.  When the source parses to a value
    other than [null] whose [Sheet1] is missing or falsy, [importAll] on
    a fresh importer returns with [total], [imported], [skipped],
    [errors] and [duplicates] all 0 and makes no adapter call;
    [processingTime] is 0 in a dry run and the elapsed time otherwise. *)
Theorem missing_Sheet1_is_empty_dataset (path : option string)
    (options : ImportOptions) (w0 w : world) (this : importer) (doc : json_doc) :
  constructor path w0 = (this, w) ->
  fs w0 !! jsonPath this = Some (Json doc) ->
  doc = DocOther \/ doc = DocObject Sheet1Missing \/ doc = DocObject Sheet1Falsy ->
  exists w',
    importAll this options w = (Returned (stats this), w')
    /\ total (read (stats this) w') = 0
    /\ imported (read (stats this) w') = 0
    /\ skipped (read (stats this) w') = 0
    /\ errors (read (stats this) w') = 0
    /\ duplicates (read (stats this) w') = 0
    /\ processingTime (read (stats this) w')
        = (if flag (dryRun options) then 0 else elapsed w)
    /\ db w' = db w0.
Proof.
  intros Hnew Hfile Hdoc.
  destruct (constructor_fresh _ _ _ _ Hnew) as (Hzero & Hfs & Hdb & _).
  rewrite <- Hfs in Hfile.
  assert (exists member, get_Sheet1 doc = Some member /\ rows_or_empty member = [])
    as (member & Hmember & Hrows).
  { destruct Hdoc as [-> | [-> | ->]]; eexists; split; reflexivity. }
  destruct (flag (dryRun options)) eqn:Hdry.
  - assert (JsonNull ∉ rows_or_empty member) as Hnull
      by (rewrite Hrows; apply not_elem_of_nil).
    destruct (importAll_dry_run this options w _ _ Hfile Hmember Hdry Hnull)
      as (w' & Hrun & Hd & Hr).
    exists w'. rewrite Hr, Hzero, Hd, Hdb, Hrows. cbn. by split_and!.
  - unfold importAll, elapsed.
    destruct (Date_now_frame w) as (Hh0 & Hd0 & Hf0 & Hs0).
    pose proof (read_Date_now (stats this) w) as Hr0.
    destruct (Date_now w) as [startTime w1]. cbn [snd] in *.
    rewrite Hf0, Hfile, Hmember, Hdry, Hrows, createBatches_nil.
    change (Z.of_nat (length (@nil json_row))) with 0.
    cbn [process_batches fold_left].
    set (w2 := update (stats this) (set_total 0) w1).
    destruct (Date_now_frame w2) as (Hh3 & Hd3 & Hf3 & Hs3).
    pose proof (read_Date_now (stats this) w2) as Hr3.
    pose proof (Date_now_clock w2 w1 eq_refl) as Hclock.
    destruct (Date_now w2) as [now w3], (Date_now w1) as [now' w1']. cbn [fst snd] in *.
    eexists. split; [reflexivity|].
    rewrite read_update_eq, Hr3. unfold w2. rewrite read_update_eq, Hr0, Hzero.
    cbn. rewrite Hd3, Hclock. unfold w2. cbn. rewrite Hd0, Hdb. by split_and!.
Qed.

Lemma missing_Sheet1_is_empty_dataset_witness :
  exists w',
    importAll (fst (constructor None no_sheet_world)) no_options
      (snd (constructor None no_sheet_world))
      = (Returned (stats (fst (constructor None no_sheet_world))), w')
    /\ total (read (stats (fst (constructor None no_sheet_world))) w') = 0
    /\ db w' = db no_sheet_world.
Proof.
  destruct (missing_Sheet1_is_empty_dataset None no_options no_sheet_world
              (snd (constructor None no_sheet_world))
              (fst (constructor None no_sheet_world)) (DocObject Sheet1Missing))
    as (w' & H1 & H2 & _ & _ & _ & _ & _ & H3);
    [reflexivity | vm_compute; reflexivity | auto |].
  exists w'. auto.
Defined.

(** Claim C10 as stated fails: the text [null] parses as JSON and holds
    no [Sheet1] array, and [importAll] throws on it. *)
Lemma null_source_throws :
  fs null_world !! default_jsonPath = Some (Json DocNull)
  /\ fst (run_import no_options null_world) = Thrown TypeError
  /\ fst (run_import dry_options null_world) = Thrown TypeError.
Proof. vm_compute. auto. Qed.

(** ** Error propagation *)

(** The dataset [importAll] loads. *)
Lemma dataset_cases (this : importer) (w : world) :
  fs w !! jsonPath this = None
  \/ fs w !! jsonPath this = Some Unparsable
  \/ fs w !! jsonPath this = Some (Json DocNull)
  \/ exists doc member,
       fs w !! jsonPath this = Some (Json doc) /\ get_Sheet1 doc = Some member.
Proof.
  destruct (fs w !! jsonPath this) as [[|[| |m]]|]; auto;
    right; right; right; eexists _, _; split; reflexivity.
Qed.

(** [importAll] throws when the source is missing, cannot be read or
    parsed or parses to [null], and when a dry run meets a [null] row;
    it throws in no other case. *)
Lemma importAll_throws_iff (this : importer) (options : ImportOptions) (w : world) :
  (exists e, fst (importAll this options w) = Thrown e) <->
  (fs w !! jsonPath this = None
   \/ fs w !! jsonPath this = Some Unparsable
   \/ fs w !! jsonPath this = Some (Json DocNull))
  \/ (flag (dryRun options) = true
      /\ exists rows,
           fs w !! jsonPath this = Some (Json (DocObject (Sheet1Rows rows)))
           /\ JsonNull ∈ rows).
Proof.
  destruct (dataset_cases this w) as [Hfile|[Hfile|[Hfile|(doc & member & Hfile & Hdoc)]]].
  - split; [auto|]. intros _. unfold importAll.
    destruct (Date_now_frame w) as (_ & _ & Hf0 & _).
    destruct (Date_now w) as [startTime w0]. cbn [snd] in *. rewrite Hf0, Hfile. eauto.
  - split; [auto|]. intros _. unfold importAll.
    destruct (Date_now_frame w) as (_ & _ & Hf0 & _).
    destruct (Date_now w) as [startTime w0]. cbn [snd] in *. rewrite Hf0, Hfile. eauto.
  - split; [auto|]. intros _. unfold importAll.
    destruct (Date_now_frame w) as (_ & _ & Hf0 & _).
    destruct (Date_now w) as [startTime w0]. cbn [snd] in *. rewrite Hf0, Hfile. eauto.
  - assert (doc <> DocNull) as Hdoc' by (by intros ->).
    destruct (flag (dryRun options)) eqn:Hdry.
    + destruct (decide (JsonNull ∈ rows_or_empty member)) as [Hnull|Hnull].
      * rewrite (importAll_dry_null this options w _ _ Hfile Hdoc Hdry Hnull).
        split; [|eauto]. intros _. right. split; [done|].
        destruct doc as [| |m]; [done| |]; cbn in Hdoc; injection Hdoc as Hm;
          subst member; [by apply elem_of_nil in Hnull|].
        destruct m as [| |rows]; try (by apply elem_of_nil in Hnull).
        by exists rows.
      * destruct (importAll_dry_run this options w _ _ Hfile Hdoc Hdry Hnull)
          as (w' & -> & _).
        split; [by intros [e He]|].
        intros [[H|[H|H]]|[_ (rows & H & Hin)]]; rewrite Hfile in H; try done.
        -- injection H as Hd. by subst doc.
        -- injection H as Hd. subst doc. cbn in Hdoc. injection Hdoc as Hm.
           subst member. done.
    + split.
      * intros [e He]. exfalso. revert He. unfold importAll.
        destruct (Date_now_frame w) as (_ & _ & Hf0 & _).
        destruct (Date_now w) as [startTime w0]. cbn [snd] in *.
        rewrite Hf0, Hfile, Hdoc, Hdry.
        destruct (createBatches _ _); [|done]. by destruct (Date_now _).
      * intros [[H|[H|H]]|[H _]]; try done; rewrite Hfile in H; try done.
        injection H as Hd. by subst doc.
Qed.

Lemma rejected_statement_counts_as_error (this : importer) (options : ImportOptions)
    (t : task) (w : world) :
  adapter_fails t (db w) ->
  fst (processClient_resume this options t w) = Settled
  /\ errors (read (stats this) (snd (processClient_resume this options t w)))
      = errors (read (stats this) w) + 1
  /\ imported (read (stats this) (snd (processClient_resume this options t w)))
      = imported (read (stats this) w)
  /\ skipped (read (stats this) (snd (processClient_resume this options t w)))
      = skipped (read (stats this) w).
Proof.
  destruct t as [c|c|c|]; cbn [adapter_fails processClient_resume]; [| | |done].
  - destruct (checkExistingClient _ _) as [[|?] d]; cbn [fst snd]; [|done].
    intros _. rewrite read_update_eq, read_set_db. cbn. auto.
  - destruct (insertClient _ _) as [[|?] d]; cbn [fst snd]; [|done].
    intros _. rewrite read_update_eq, read_set_db. cbn. auto.
  - destruct (updateClient _ _) as [[|?] d]; cbn [fst snd]; [|done].
    intros _. rewrite read_update_eq, read_set_db. cbn. auto.
Qed.

(** Claim C5, as the code has it.  [importAll] throws when the source
    file is missing, cannot be read or parsed, or parses to [null], and
    when a dry run meets a [null] row, and in no other case: on a dataset
    of record objects it throws exactly in the first three cases.  A
    rejected existence check, insert or update settles its own task with
    [errors + 1] and nothing else counted; a batch always counts each of
    its records once, and a live import that the batch size lets through
    returns with every record counted. *)
Theorem only_source_errors_propagate (this : importer) (options : ImportOptions)
    (w : world) :
  ((exists e, fst (importAll this options w) = Thrown e) <->
     (fs w !! jsonPath this = None
      \/ fs w !! jsonPath this = Some Unparsable
      \/ fs w !! jsonPath this = Some (Json DocNull))
     \/ (flag (dryRun options) = true
         /\ exists rows,
              fs w !! jsonPath this = Some (Json (DocObject (Sheet1Rows rows)))
              /\ JsonNull ∈ rows))
  /\ ((forall rows,
         fs w !! jsonPath this = Some (Json (DocObject (Sheet1Rows rows))) ->
         JsonNull ∉ rows) ->
      ((exists e, fst (importAll this options w) = Thrown e) <->
         (fs w !! jsonPath this = None
          \/ fs w !! jsonPath this = Some Unparsable
          \/ fs w !! jsonPath this = Some (Json DocNull))))
  /\ (forall t, adapter_fails t (db w) ->
        fst (processClient_resume this options t w) = Settled
        /\ errors (read (stats this) (snd (processClient_resume this options t w)))
            = errors (read (stats this) w) + 1
        /\ imported (read (stats this) (snd (processClient_resume this options t w)))
            = imported (read (stats this) w)
        /\ skipped (read (stats this) (snd (processClient_resume this options t w)))
            = skipped (read (stats this) w))
  /\ (forall batch : list client,
        counted (Z.of_nat (length batch)) (read (stats this) w)
          (read (stats this) (processBatch this (JsonObject <$> batch) options w)))
  /\ (forall rows : list client,
        fs w !! jsonPath this = Some (Json (DocObject (Sheet1Rows (JsonObject <$> rows)))) ->
        flag (dryRun options) = false ->
        1 <= effective_batchSize options ->
        exists w',
          importAll this options w = (Returned (stats this), w')
          /\ accounted (read (stats this) w')
              = accounted (read (stats this) w) + Z.of_nat (length rows)).
Proof.
  split; [apply importAll_throws_iff|]. split; [|split; [|split]].
  - intros Hrecords. rewrite importAll_throws_iff. split; [|auto].
    intros [Hbad | (_ & rows & Hfile & Hnull)]; [done|].
    by destruct (Hrecords rows Hfile).
  - intros t. apply rejected_statement_counts_as_error.
  - intros batch.
    destruct (processBatch_counted this (JsonObject <$> batch) options w) as [Hc _].
    by rewrite row_objects_fmap in Hc.
  - intros rows Hfile Hdry HB.
    destruct (importAll_live this options w _ _ Hfile eq_refl Hdry (or_introl HB))
      as (w' & Hrun & _ & Hacc & _).
    cbn [rows_or_empty] in Hacc. rewrite row_objects_fmap in Hacc. eauto.
Qed.

(** Claim C5 as stated fails in one direction: a source that is found
    and parses (to [null]) still makes [importAll] throw. *)
Lemma parsed_source_can_throw :
  fst (importAll (fst (constructor None null_world)) live_options
         (snd (constructor None null_world))) = Thrown TypeError
  /\ fs (snd (constructor None null_world))
       !! jsonPath (fst (constructor None null_world)) = Some (Json DocNull).
Proof. vm_compute. auto. Qed.

Lemma only_source_errors_propagate_witness :
  adapter_fails (AwaitExisting (row "A" "a@x.com")) failing_db
  /\ fst (processClient_resume (fst (constructor None (world_with [] failing_db)))
            no_options (AwaitExisting (row "A" "a@x.com"))
            (snd (constructor None (world_with [] failing_db)))) = Settled.
Proof.
  split; [reflexivity|].
  apply (only_source_errors_propagate (fst (constructor None (world_with [] failing_db)))
           no_options (snd (constructor None (world_with [] failing_db)))).
  reflexivity.
Defined.

(** ** Statistics lifecycle *)


Lemma resetStats_zero (this : importer) (w : world) :
  read (stats (fst (resetStats this w))) (snd (resetStats this w)) = zero_stats.
Proof. unfold resetStats, alloc, read. cbn. by rewrite lookup_insert_eq. Qed.




(** ** Reconciler: the decisions *)

(** Claim C9.  A record whose key is missing, [null] or the empty string
    settles at once with [errors + 1]; [imported] and [skipped] keep
    their values and the store sees no statement. *)
Theorem missing_key_counts_as_error (this : importer) (c : client)
    (options : ImportOptions) (w : world) :
  field c "Client ID" = JUndefined \/ field c "Client ID" = JNull
    \/ field c "Client ID" = JString "" ->
  processClient_start this (JsonObject c) w = (Settled, processClient this (JsonObject c) options w)
  /\ errors (read (stats this) (processClient this (JsonObject c) options w))
      = errors (read (stats this) w) + 1
  /\ imported (read (stats this) (processClient this (JsonObject c) options w))
      = imported (read (stats this) w)
  /\ skipped (read (stats this) (processClient this (JsonObject c) options w))
      = skipped (read (stats this) w)
  /\ db (processClient this (JsonObject c) options w) = db w.
Proof.
  intros Hkey.
  assert (truthy (field c "Client ID") = false) as Hfalsy
    by (destruct Hkey as [-> | [-> | ->]]; reflexivity).
  unfold processClient, processClient_start. rewrite Hfalsy.
  cbn. rewrite read_update_eq. cbn. auto.
Qed.

Lemma missing_key_counts_as_error_witness :
  errors (read (stats (fst (constructor None sample_world)))
            (processClient (fst (constructor None sample_world)) (JsonObject (row "" "q@x.com"))
               live_options (snd (constructor None sample_world))))
  = errors (read (stats (fst (constructor None sample_world)))
              (snd (constructor None sample_world))) + 1.
Proof.
  apply (missing_key_counts_as_error (fst (constructor None sample_world))
           (row "" "q@x.com") live_options (snd (constructor None sample_world))).
  right. right. reflexivity.
Defined.

Lemma execute_no_fault (c : db_call) (d : database) (n : nat) :
  no_fault (S n) d = true ->
  fst (execute c d) = false
  /\ table (snd (execute c d)) = table d
  /\ calls (snd (execute c d)) = calls d ++ [c]
  /\ no_fault n (snd (execute c d)) = true.
Proof.
  unfold no_fault, execute. destruct (faults d) as [|f rest]; cbn.
  - intros _. by rewrite take_nil.
  - intros [Hf Hrest]%andb_prop. by destruct f.
Qed.

Lemma checkExistingClient_found (k : string) (d : database) :
  no_fault 1 d = true -> is_Some (table d !! k) ->
  checkExistingClient (JString k) d = (DbOk true, snd (execute (CallGet [JString k]) d)).
Proof.
  intros Hok Hrow. unfold checkExistingClient, db_get.
  destruct (execute_no_fault (CallGet [JString k]) d 0 Hok) as (Hf & Ht & _).
  destruct (execute _ d) as [failed d1]. cbn [fst snd] in *. subst failed.
  cbn. rewrite Ht. by rewrite bool_decide_eq_true_2.
Qed.

Lemma updateClient_found (c : client) (k : string) (d : database) :
  field c "Client ID" = JString k ->
  no_fault 1 d = true -> is_Some (table d !! k) ->
  not_null_ok data_columns (bind_param <$> (field c <$> data_fields)) = true ->
  let d1 := snd (execute (CallUpdate ((field c <$> data_fields) ++ [field c "Client ID"])) d) in
  updateClient c d
  = (DbOk (), set_table (<[k := bind_param <$> (field c <$> data_fields)]> (table d1)) d1).
Proof.
  intros Hk Hok [old Hrow] Hnn. unfold updateClient, db_run_update.
  destruct (execute_no_fault
              (CallUpdate ((field c <$> data_fields) ++ [field c "Client ID"])) d 0 Hok)
    as (Hf & Ht & _).
  destruct (execute _ d) as [failed d1]. cbn [fst snd] in *. subst failed.
  cbv zeta.
  assert (bind_param <$> (field c <$> data_fields) ++ [field c "Client ID"]
          = (bind_param <$> (field c <$> data_fields)) ++ [SqlText k]) as Hbound
    by (rewrite fmap_app, Hk; reflexivity).
  rewrite Hbound.
  rewrite (lookup_app_r _ _ 22) by (rewrite !length_fmap; cbn; lia).
  rewrite !length_fmap. cbn [data_fields length Nat.sub lookup list_lookup].
  rewrite (take_app_length' _ _ 22) by (by rewrite !length_fmap).
  by rewrite Ht, Hrow, Hnn.
Qed.

(** Claim C1, as the code has it.  For a record whose key is already in
    the store and [updateExisting] true, [skipDuplicates] is looked at
    first: when it is true the record is counted under [skipped] and the
    store keeps its rows; when it is false or absent, and the two
    statements go through, the adapter's update runs, [imported] grows by
    exactly 1 and the stored row's data columns are the input record's
    fields. *)
Theorem existing_record_skip_before_update (this : importer) (c : client)
    (options : ImportOptions) (w : world) (k : string) :
  field c "Client ID" = JString k -> k <> "" ->
  is_Some (table (db w) !! k) ->
  flag (updateExisting options) = true ->
  (flag (skipDuplicates options) = true ->
   no_fault 1 (db w) = true ->
     skipped (read (stats this) (processClient this (JsonObject c) options w))
       = skipped (read (stats this) w) + 1
     /\ imported (read (stats this) (processClient this (JsonObject c) options w))
         = imported (read (stats this) w)
     /\ errors (read (stats this) (processClient this (JsonObject c) options w))
         = errors (read (stats this) w)
     /\ table (db (processClient this (JsonObject c) options w)) = table (db w)
     /\ calls (db (processClient this (JsonObject c) options w))
         = calls (db w) ++ [CallGet [JString k]])
  /\ (flag (skipDuplicates options) = false ->
      no_fault 2 (db w) = true ->
      not_null_ok data_columns (bind_param <$> (field c <$> data_fields)) = true ->
     imported (read (stats this) (processClient this (JsonObject c) options w))
       = imported (read (stats this) w) + 1
     /\ skipped (read (stats this) (processClient this (JsonObject c) options w))
         = skipped (read (stats this) w)
     /\ errors (read (stats this) (processClient this (JsonObject c) options w))
         = errors (read (stats this) w)
     /\ calls (db (processClient this (JsonObject c) options w))
         = calls (db w) ++ [CallGet [JString k];
                            CallUpdate ((field c <$> data_fields) ++ [JString k])]
     /\ table (db (processClient this (JsonObject c) options w))
         = <[k := bind_param <$> (field c <$> data_fields)]> (table (db w))).
Proof.
  intros Hk Hne Hrow Hupd.
  assert (truthy (field c "Client ID") = true) as Htruthy.
  { rewrite Hk. cbn. apply negb_true_iff. by apply String.eqb_neq. }
  unfold processClient, processClient_start. rewrite Htruthy.
  cbn [negb processClient_resume]. rewrite Hk.
  split.
  - intros Hskip Hok.
    rewrite (checkExistingClient_found k (db w) Hok Hrow), Hskip.
    destruct (execute_no_fault (CallGet [JString k]) (db w) 0 Hok) as (_ & Ht & Hc & _).
    cbn [processClient_resume snd]. rewrite read_update_eq, read_set_db. cbn.
    by split_and!.
  - intros Hskip Hok Hnn.
    assert (no_fault 1 (db w) = true) as Hok1.
    { revert Hok. unfold no_fault. destruct (faults (db w)) as [|f [|g rest]]; cbn;
        try done. by intros [-> _]%andb_prop. }
    rewrite (checkExistingClient_found k (db w) Hok1 Hrow), Hskip, Hupd.
    destruct (execute_no_fault (CallGet [JString k]) (db w) 1 Hok) as (_ & Ht & Hc & Hok').
    set (d1 := snd (execute (CallGet [JString k]) (db w))) in *. clearbody d1.
    cbn [processClient_resume db set_db].
    rewrite <- Ht in Hrow.
    rewrite (updateClient_found c k d1 Hk Hok' Hrow Hnn).
    destruct (execute_no_fault
                (CallUpdate ((field c <$> data_fields) ++ [field c "Client ID"])) d1 0 Hok')
      as (_ & Ht2 & Hc2 & _).
    destruct (execute (CallUpdate _) d1) as [f2 d2]. cbn [snd] in *.
    rewrite read_update_eq, !read_set_db. cbn.
    rewrite Ht2, Hc2, Ht, Hc, Hk, <- app_assoc. by split_and!.
Qed.

Lemma existing_record_skip_before_update_witness :
  table (db (processClient stored_importer (JsonObject (full_row "A" "Amy" "z@x.com"))
               update_only stored_world))
  = <[ "A" := bind_param <$> (field (full_row "A" "Amy" "z@x.com") <$> data_fields) ]>
      (table (db stored_world)).
Proof.
  apply (existing_record_skip_before_update stored_importer
           (full_row "A" "Amy" "z@x.com") update_only stored_world "A");
    [reflexivity | discriminate | vm_compute; eauto | reflexivity
    | reflexivity | reflexivity | vm_compute; reflexivity].
Defined.

(** Claim C1 as stated fails: with [skipDuplicates] and [updateExisting]
    both true the existing record is skipped, no update reaches the
    store, and the stored row keeps its old fields. *)
Lemma skipDuplicates_wins_over_updateExisting :
  imported (read (stats stored_importer)
              (processClient stored_importer (JsonObject (full_row "A" "Amy" "z@x.com"))
                 both_flags stored_world)) = 0
  /\ skipped (read (stats stored_importer)
                (processClient stored_importer (JsonObject (full_row "A" "Amy" "z@x.com"))
                   both_flags stored_world)) = 1
  /\ calls (db (processClient stored_importer (JsonObject (full_row "A" "Amy" "z@x.com"))
                  both_flags stored_world)) = [CallGet [JString "A"]]
  /\ table (db (processClient stored_importer (JsonObject (full_row "A" "Amy" "z@x.com"))
                  both_flags stored_world)) !! "A"
      = Some (bind_param <$> (field (full_row "A" "Ann" "a@x.com") <$> data_fields))
  /\ table (db (processClient stored_importer (JsonObject (full_row "A" "Amy" "z@x.com"))
                  both_flags stored_world)) !! "A"
      <> Some (bind_param <$> (field (full_row "A" "Amy" "z@x.com") <$> data_fields)).
Proof. vm_compute. split_and!; try reflexivity. discriminate. Qed.

(** ** Dry-run analyzer *)

Lemma analyze_fold_sets (seen : list client) :
  forall v,
    (v ∈ fst (fst (fold_left analyze_step seen (∅, ∅, 0))) <-> v ∈ keys_of seen)
    /\ (v ∈ snd (fst (fold_left analyze_step seen (∅, ∅, 0)))
        <-> truthy v = true /\ v ∈ emails_of seen).
Proof.
  induction seen as [|c seen IH] using rev_ind; intros v.
  - cbn. rewrite !elem_of_empty, !elem_of_nil. tauto.
  - rewrite fold_left_app. cbn [fold_left].
    unfold keys_of, emails_of in *. rewrite !fmap_app. cbn [fmap list_fmap].
    destruct (fold_left analyze_step seen (∅, ∅, 0)) as [[ids emails] d].
    cbn [fst snd] in IH. unfold analyze_step.
    destruct (IH v) as [IHk IHe].
    assert (v ∈ ({[field c "Client ID"]} ∪ ids : gset jsval)
            <-> v ∈ ((fun c => field c "Client ID") <$> seen) ++ [field c "Client ID"]) as Hk.
    { rewrite elem_of_union, elem_of_singleton, elem_of_app, list_elem_of_singleton.
      tauto. }
    destruct (bool_decide (field c "Client ID" ∈ ids)) eqn:Hin.
    + apply bool_decide_eq_true_1 in Hin.
      assert (v ∈ ids <-> v ∈ ((fun c => field c "Client ID") <$> seen) ++ [field c "Client ID"])
        as Hk'.
      { rewrite <- Hk, elem_of_union, elem_of_singleton.
        split; [tauto | intros [-> | ]; done]. }
      destruct (truthy (field c "Email")) eqn:Ht; cbn [andb];
        [destruct (bool_decide (field c "Email" ∈ emails)) eqn:Hine|]; cbn [fst snd];
        (split; [exact Hk'|]); rewrite ?elem_of_union, ?elem_of_singleton,
          elem_of_app, list_elem_of_singleton, IHe.
      * apply bool_decide_eq_true_1 in Hine. apply (proj2 (IH _)) in Hine as Hine'.
        split; [tauto|]. intros [Hv [ | -> ]]; [tauto|]. apply IH. done.
      * split; [intros [->|]; tauto|]. intros [Hv [|]]; tauto.
      * split; [tauto|]. intros [Hv [ | -> ]]; [tauto|congruence].
    + destruct (truthy (field c "Email")) eqn:Ht; cbn [andb];
        [destruct (bool_decide (field c "Email" ∈ emails)) eqn:Hine|]; cbn [fst snd];
        (split; [exact Hk|]); rewrite ?elem_of_union, ?elem_of_singleton,
          elem_of_app, list_elem_of_singleton, IHe.
      * apply bool_decide_eq_true_1 in Hine.
        split; [tauto|]. intros [Hv [ | -> ]]; [tauto|]. apply IH. done.
      * split; [intros [->|]; tauto|]. intros [Hv [|]]; tauto.
      * split; [tauto|]. intros [Hv [ | -> ]]; [tauto|congruence].
Qed.

Lemma count_duplicates_step (seen : list client) (c : client) :
  count_duplicates (seen ++ [c])
  = count_duplicates seen
    + (if bool_decide (field c "Client ID" ∈ keys_of seen) then 1 else 0)
    + (if truthy (field c "Email") && bool_decide (field c "Email" ∈ emails_of seen)
       then 1 else 0).
Proof.
  unfold count_duplicates. rewrite fold_left_app. cbn [fold_left].
  pose proof (analyze_fold_sets seen) as Hsets.
  destruct (fold_left analyze_step seen (∅, ∅, 0)) as [[ids emails] d].
  cbn [fst snd] in *. unfold analyze_step.
  rewrite (bool_decide_ext _ _ (proj1 (Hsets (field c "Client ID")))).
  destruct (truthy (field c "Email")) eqn:Ht; cbn [andb].
  - assert (bool_decide (field c "Email" ∈ emails)
            = bool_decide (field c "Email" ∈ emails_of seen)) as ->.
    { apply bool_decide_ext. rewrite (proj2 (Hsets _)). tauto. }
    destruct (bool_decide (field c "Client ID" ∈ keys_of seen)),
      (bool_decide (field c "Email" ∈ emails_of seen)); cbn [snd]; lia.
  - destruct (bool_decide (field c "Client ID" ∈ keys_of seen)); cbn [snd]; lia.
Qed.

(** What [analyzeData] leaves in [duplicates] on a dataset of records. *)
Lemma analyzeData_duplicates (this : importer) (rows : list client) (w : world) :
  fst (analyzeData this (JsonObject <$> rows) w) = Returned (stats this)
  /\ duplicates (read (stats this) (snd (analyzeData this (JsonObject <$> rows) w)))
      = count_duplicates rows
  /\ skipped (read (stats this) (snd (analyzeData this (JsonObject <$> rows) w)))
      = count_duplicates rows.
Proof.
  rewrite (analyzeData_objects this _ w (no_null_record rows)), row_objects_fmap.
  cbn [fst snd]. by rewrite !read_update_eq.
Qed.

(** Claim C7.  [analyzeData] returns on a dataset of records, and each
    record, in input order, adds 1 to the [duplicates] it writes when its
    key is among the keys of the earlier records and, independently, 1
    when its e-mail is non-empty and among the e-mails of the earlier
    records, so one record adds at most 2, and a record that repeats both
    adds 2.  A dry run of the three records of the example returns
    statistics with [duplicates = 2]. *)
Theorem dry_run_counts_key_and_email (this : importer) (w : world)
    (seen : list client) (c : client) :
  fst (analyzeData this (JsonObject <$> (seen ++ [c])) w) = Returned (stats this)
  /\ duplicates (read (stats this) (snd (analyzeData this (JsonObject <$> (seen ++ [c])) w)))
      = duplicates (read (stats this) (snd (analyzeData this (JsonObject <$> seen) w)))
        + (if bool_decide (field c "Client ID" ∈ keys_of seen) then 1 else 0)
        + (if truthy (field c "Email") && bool_decide (field c "Email" ∈ emails_of seen)
           then 1 else 0)
  /\ duplicates (read (stats this) (snd (analyzeData this (JsonObject <$> seen) w)))
      <= duplicates (read (stats this) (snd (analyzeData this (JsonObject <$> (seen ++ [c])) w)))
      <= duplicates (read (stats this) (snd (analyzeData this (JsonObject <$> seen) w))) + 2
  /\ duplicates (read (stats this)
                   (snd (analyzeData this
                           (JsonObject <$> [row "A" "x@y.com"; row "A" "x@y.com"]) w)))
      = 2
  /\ duplicates (read (stats this) (snd (analyzeData this (JsonObject <$> example_rows) w)))
      = 2
  /\ fst (run_import dry_options (world_with example_rows empty_db))
      = Returned {| total := 3; imported := 0; skipped := 2; errors := 0;
                    duplicates := 2; processingTime := 0 |}.
Proof.
  destruct (analyzeData_duplicates this (seen ++ [c]) w) as (Hret & Hdup & _).
  destruct (analyzeData_duplicates this seen w) as (_ & Hdup0 & _).
  rewrite Hdup, Hdup0, count_duplicates_step.
  split; [exact Hret|]. split; [done|]. split; [|split; [|split]].
  - destruct (bool_decide (field c "Client ID" ∈ keys_of seen)),
      (truthy (field c "Email") && bool_decide (field c "Email" ∈ emails_of seen)); lia.
  - by rewrite (proj1 (proj2 (analyzeData_duplicates this _ w))).
  - by rewrite (proj1 (proj2 (analyzeData_duplicates this _ w))).
  - by vm_compute.
Qed.

(** * Further properties of the importer *)

(** ** Batcher: size of the batches *)




(** ** Adapter: insert and lookup *)

Lemma insertClient_inv (c : client) (d d' : database) :
  insertClient c d = (DbOk (), d') ->
  exists k,
    field c "Client ID" = JString k
    /\ table d !! k = None
    /\ not_null_ok data_columns (row_values c) = true
    /\ table d' = <[k := row_values c]> (table d)
    /\ faults d' = tail (faults d)
    /\ calls d' = calls d ++ [CallInsert (field c "Client ID" :: (field c <$> data_fields))].
Proof.
  unfold insertClient, db_run_insert, execute, row_values.
  set (params := field c "Client ID" :: (field c <$> data_fields)).
  destruct (faults d) as [|[|] rest] eqn:Hf; try done;
    cbn [fmap list_fmap params]; fold (fmap (M:=list) bind_param);
    (destruct (field c "Client ID") as [| |k]; cbn [bind_param]; try done);
    cbn [table];
    (destruct (bool_decide (is_Some (table d !! k))) eqn:Hin; [done|]);
    (destruct (not_null_ok data_columns _) eqn:Hnn; [|done]);
    intros [= <-]; exists k; cbn; split_and!; try done;
    apply bool_decide_eq_false_1 in Hin; by apply eq_None_not_Some.
Qed.

Lemma insertClient_existing (c : client) (k : string) (d : database) :
  field c "Client ID" = JString k ->
  is_Some (table d !! k) ->
  fst (insertClient c d) = DbErr /\ table (snd (insertClient c d)) = table d.
Proof.
  intros Hk Hrow. unfold insertClient, db_run_insert, execute.
  destruct (faults d) as [|[|] rest]; cbn [fmap list_fmap]; rewrite ?Hk;
    cbn [bind_param table fst snd]; try done;
    by rewrite bool_decide_eq_true_2.
Qed.

(** A record that [insertClient] stored is found by
    [checkExistingClient] under its key with exactly its columns, and a
    later insert under the same key is rejected and leaves the stored row
    as it is: an insert never overwrites. *)
Theorem insert_then_lookup (c : client) (d d' : database) :
  insertClient c d = (DbOk (), d') ->
  exists k,
    field c "Client ID" = JString k
    /\ table d !! k = None
    /\ table d' !! k = Some (row_values c)
    /\ (forall k', k' <> k -> table d' !! k' = table d !! k')
    /\ (no_fault 1 d' = true ->
        fst (checkExistingClient (field c "Client ID") d') = DbOk true)
    /\ (forall c2, field c2 "Client ID" = JString k ->
          fst (insertClient c2 d') = DbErr
          /\ table (snd (insertClient c2 d')) = table d').
Proof.
  intros Hins. destruct (insertClient_inv c d d' Hins) as (k & Hk & Hnone & _ & Ht & _).
  exists k. split_and!; try done.
  - by rewrite Ht, lookup_insert_eq.
  - intros k' Hne. by rewrite Ht, lookup_insert_ne.
  - intros Hok. rewrite Hk, checkExistingClient_found; [done|done|].
    rewrite Ht, lookup_insert_eq. eauto.
  - intros c2 Hk2. apply (insertClient_existing c2 k d' Hk2).
    rewrite Ht, lookup_insert_eq. eauto.
Qed.

Lemma insert_then_lookup_witness :
  exists k,
    field (full_row "A" "Ann" "a@x.com") "Client ID" = JString k
    /\ table (snd (insertClient (full_row "A" "Ann" "a@x.com") empty_db)) !! k
        = Some (row_values (full_row "A" "Ann" "a@x.com")).
Proof.
  destruct (insert_then_lookup (full_row "A" "Ann" "a@x.com") empty_db
              (snd (insertClient (full_row "A" "Ann" "a@x.com") empty_db)))
    as (k & H1 & _ & H2 & _); [vm_compute; reflexivity|].
  exists k. auto.
Defined.

(** ** Reconciler: the remaining decisions *)

Lemma truthy_key (k : string) : k <> "" -> truthy (JString k) = true.
Proof. intros Hne. cbn. apply negb_true_iff. by apply String.eqb_neq. Qed.

Lemma no_fault_S (n : nat) (d : database) :
  no_fault (S n) d = true -> no_fault 1 d = true.
Proof.
  unfold no_fault. destruct (faults d) as [|f rest]; cbn; [done|].
  intros [-> _]%andb_prop. by rewrite take_0.
Qed.

Lemma checkExistingClient_absent (k : string) (d : database) :
  no_fault 1 d = true -> table d !! k = None ->
  checkExistingClient (JString k) d = (DbOk false, snd (execute (CallGet [JString k]) d)).
Proof.
  intros Hok Hrow. unfold checkExistingClient, db_get.
  destruct (execute_no_fault (CallGet [JString k]) d 0 Hok) as (Hf & Ht & _).
  destruct (execute _ d) as [failed d1]. cbn [fst snd] in *. subst failed.
  cbn. rewrite Ht, Hrow. by rewrite bool_decide_eq_false_2 by (by intros [? ?]).
Qed.

Lemma insertClient_absent (c : client) (k : string) (d : database) :
  field c "Client ID" = JString k ->
  no_fault 1 d = true -> table d !! k = None ->
  let d1 := snd (execute (CallInsert (field c "Client ID" :: (field c <$> data_fields))) d) in
  insertClient c d
  = if not_null_ok data_columns (row_values c)
    then (DbOk (), set_table (<[k := row_values c]> (table d1)) d1)
    else (DbErr, d1).
Proof.
  intros Hk Hok Hrow. unfold insertClient, db_run_insert, row_values.
  destruct (execute_no_fault
              (CallInsert (field c "Client ID" :: (field c <$> data_fields))) d 0 Hok)
    as (Hf & Ht & _).
  destruct (execute _ d) as [failed d1]. cbn [fst snd] in *. subst failed.
  cbv zeta. rewrite fmap_cons, Hk. cbn [bind_param]. rewrite Ht, Hrow.
  by rewrite bool_decide_eq_false_2 by (by intros [? ?]).
Qed.

Lemma processClient_existing_skips (this : importer) (c : client)
    (options : ImportOptions) (w : world) (k : string) :
  field c "Client ID" = JString k -> k <> "" ->
  is_Some (table (db w) !! k) ->
  no_fault 1 (db w) = true ->
  flag (skipDuplicates options) = true \/ flag (updateExisting options) = false ->
  processClient this (JsonObject c) options w
  = update (stats this) incr_skipped
      (set_db (snd (execute (CallGet [JString k]) (db w))) w).
Proof.
  intros Hk Hne Hrow Hok Hopt.
  unfold processClient, processClient_start. rewrite Hk, (truthy_key k Hne).
  cbn [negb processClient_resume]. rewrite Hk.
  rewrite (checkExistingClient_found k (db w) Hok Hrow).
  destruct Hopt as [-> | Hupd]; [done|].
  rewrite Hupd. by destruct (flag (skipDuplicates options)).
Qed.

(** A record whose key is already stored is skipped whenever
    [updateExisting] is false or absent, whatever [skipDuplicates] says:
    [skipped] grows by 1, the only statement is the existence check and
    the rows of the store stay as they are. *)
Theorem stored_record_skipped_without_update (this : importer) (c : client)
    (options : ImportOptions) (w : world) (k : string) :
  field c "Client ID" = JString k -> k <> "" ->
  is_Some (table (db w) !! k) ->
  no_fault 1 (db w) = true ->
  flag (updateExisting options) = false ->
  skipped (read (stats this) (processClient this (JsonObject c) options w))
    = skipped (read (stats this) w) + 1
  /\ imported (read (stats this) (processClient this (JsonObject c) options w))
      = imported (read (stats this) w)
  /\ errors (read (stats this) (processClient this (JsonObject c) options w))
      = errors (read (stats this) w)
  /\ table (db (processClient this (JsonObject c) options w)) = table (db w)
  /\ calls (db (processClient this (JsonObject c) options w))
      = calls (db w) ++ [CallGet [JString k]].
Proof.
  intros Hk Hne Hrow Hok Hupd.
  rewrite (processClient_existing_skips this c options w k Hk Hne Hrow Hok (or_intror Hupd)).
  destruct (execute_no_fault (CallGet [JString k]) (db w) 0 Hok) as (_ & Ht & Hc & _).
  rewrite read_update_eq, read_set_db. cbn. by split_and!.
Qed.

Lemma stored_record_skipped_without_update_witness :
  skipped (read (stats stored_importer)
             (processClient stored_importer (JsonObject (full_row "A" "Amy" "z@x.com"))
                no_options stored_world))
  = skipped (read (stats stored_importer) stored_world) + 1.
Proof.
  apply (stored_record_skipped_without_update stored_importer
           (full_row "A" "Amy" "z@x.com") no_options stored_world "A");
    [reflexivity | discriminate | vm_compute; eauto | reflexivity | reflexivity].
Defined.

Lemma processClient_absent (this : importer) (c : client)
    (options : ImportOptions) (w : world) (k : string) :
  field c "Client ID" = JString k -> k <> "" ->
  table (db w) !! k = None ->
  no_fault 2 (db w) = true ->
  let d1 := snd (execute (CallGet [JString k]) (db w)) in
  let d2 := snd (execute (CallInsert (JString k :: (field c <$> data_fields))) d1) in
  processClient this (JsonObject c) options w
  = if not_null_ok data_columns (row_values c)
    then update (stats this) incr_imported
           (set_db (set_table (<[k := row_values c]> (table d2)) d2) w)
    else update (stats this) incr_errors (set_db d2 w).
Proof.
  intros Hk Hne Hrow Hok. cbv zeta.
  unfold processClient, processClient_start. rewrite Hk, (truthy_key k Hne).
  cbn [negb processClient_resume]. rewrite Hk.
  rewrite (checkExistingClient_absent k (db w) (no_fault_S _ _ Hok) Hrow).
  destruct (execute_no_fault (CallGet [JString k]) (db w) 1 Hok) as (_ & Ht & Hc & Hok').
  set (d1 := snd (execute (CallGet [JString k]) (db w))) in *. clearbody d1.
  cbn [processClient_resume db set_db].
  rewrite <- Ht in Hrow.
  rewrite (insertClient_absent c k d1 Hk Hok' Hrow), Hk.
  by destruct (not_null_ok data_columns (row_values c)).
Qed.

(** A record with a new key and the columns the table requires is
    inserted: the existence check and the insert are the two statements
    made, [imported] grows by 1 and the store holds the record's columns
    under its key, next to the rows it had. *)
Theorem new_record_inserted (this : importer) (c : client)
    (options : ImportOptions) (w : world) (k : string) :
  field c "Client ID" = JString k -> k <> "" ->
  table (db w) !! k = None ->
  no_fault 2 (db w) = true ->
  not_null_ok data_columns (row_values c) = true ->
  imported (read (stats this) (processClient this (JsonObject c) options w))
    = imported (read (stats this) w) + 1
  /\ skipped (read (stats this) (processClient this (JsonObject c) options w))
      = skipped (read (stats this) w)
  /\ errors (read (stats this) (processClient this (JsonObject c) options w))
      = errors (read (stats this) w)
  /\ table (db (processClient this (JsonObject c) options w)) = <[k := row_values c]> (table (db w))
  /\ calls (db (processClient this (JsonObject c) options w))
      = calls (db w) ++ [CallGet [JString k];
                         CallInsert (JString k :: (field c <$> data_fields))].
Proof.
  intros Hk Hne Hrow Hok Hnn.
  rewrite (processClient_absent this c options w k Hk Hne Hrow Hok), Hnn.
  destruct (execute_no_fault (CallGet [JString k]) (db w) 1 Hok) as (_ & Ht & Hc & Hok').
  set (d1 := snd (execute (CallGet [JString k]) (db w))) in *. clearbody d1.
  destruct (execute_no_fault (CallInsert (JString k :: (field c <$> data_fields))) d1 0 Hok')
    as (_ & Ht2 & Hc2 & _).
  destruct (execute (CallInsert _) d1) as [f2 d2]. cbn [snd] in *.
  rewrite read_update_eq, read_set_db. cbn.
  rewrite Ht2, Hc2, Ht, Hc, <- app_assoc. by split_and!.
Qed.

Lemma new_record_inserted_witness :
  table (db (processClient (fst (constructor None (world_with [] empty_db)))
               (JsonObject (full_row "A" "Ann" "a@x.com")) no_options
               (snd (constructor None (world_with [] empty_db)))))
  = <[ "A" := row_values (full_row "A" "Ann" "a@x.com") ]> (table empty_db).
Proof.
  apply (new_record_inserted (fst (constructor None (world_with [] empty_db)))
           (full_row "A" "Ann" "a@x.com") no_options
           (snd (constructor None (world_with [] empty_db))) "A");
    [reflexivity | discriminate | reflexivity | reflexivity | vm_compute; reflexivity].
Defined.

(** A record with a new key that lacks a column the table declares
    [NOT NULL] (display name, first name, last name, e-mail or phone) is
    counted under [errors]: the insert is attempted, rejected, and the
    store keeps its rows. *)
Theorem record_without_required_column (this : importer) (c : client)
    (options : ImportOptions) (w : world) (k : string) :
  field c "Client ID" = JString k -> k <> "" ->
  table (db w) !! k = None ->
  no_fault 2 (db w) = true ->
  not_null_ok data_columns (row_values c) = false ->
  errors (read (stats this) (processClient this (JsonObject c) options w))
    = errors (read (stats this) w) + 1
  /\ imported (read (stats this) (processClient this (JsonObject c) options w))
      = imported (read (stats this) w)
  /\ skipped (read (stats this) (processClient this (JsonObject c) options w))
      = skipped (read (stats this) w)
  /\ table (db (processClient this (JsonObject c) options w)) = table (db w)
  /\ calls (db (processClient this (JsonObject c) options w))
      = calls (db w) ++ [CallGet [JString k];
                         CallInsert (JString k :: (field c <$> data_fields))].
Proof.
  intros Hk Hne Hrow Hok Hnn.
  rewrite (processClient_absent this c options w k Hk Hne Hrow Hok), Hnn.
  destruct (execute_no_fault (CallGet [JString k]) (db w) 1 Hok) as (_ & Ht & Hc & Hok').
  set (d1 := snd (execute (CallGet [JString k]) (db w))) in *. clearbody d1.
  destruct (execute_no_fault (CallInsert (JString k :: (field c <$> data_fields))) d1 0 Hok')
    as (_ & Ht2 & Hc2 & _).
  destruct (execute (CallInsert _) d1) as [f2 d2]. cbn [snd] in *.
  rewrite read_update_eq, read_set_db. cbn.
  rewrite Ht2, Hc2, Ht, Hc, <- app_assoc. by split_and!.
Qed.

Lemma record_without_required_column_witness :
  errors (read (stats (fst (constructor None (world_with [] empty_db))))
            (processClient (fst (constructor None (world_with [] empty_db)))
               (JsonObject nameless_row) no_options
               (snd (constructor None (world_with [] empty_db)))))
  = errors (read (stats (fst (constructor None (world_with [] empty_db))))
              (snd (constructor None (world_with [] empty_db)))) + 1.
Proof.
  apply (record_without_required_column (fst (constructor None (world_with [] empty_db)))
           nameless_row no_options
           (snd (constructor None (world_with [] empty_db))) "N");
    [reflexivity | discriminate | reflexivity | reflexivity | vm_compute; reflexivity].
Defined.

(** ** What an import does to the rows of the store *)

Lemma execute_table (call : db_call) (d : database) :
  table (snd (execute call d)) = table d.
Proof. unfold execute. by destruct (faults d). Qed.

Lemma db_get_table (params : list jsval) (d : database) :
  table (snd (db_get params d)) = table d.
Proof.
  unfold db_get. pose proof (execute_table (CallGet params) d) as Ht.
  destruct (execute _ d) as [[|] d1]; cbn [snd] in *; [done|].
  by repeat case_match.
Qed.

Lemma db_run_insert_table (params : list jsval) (d : database) :
  table d ⊆ table (snd (db_run_insert params d)).
Proof.
  unfold db_run_insert. pose proof (execute_table (CallInsert params) d) as Ht.
  destruct (execute _ d) as [[|] d1]; cbn [snd] in *; [by rewrite Ht|].
  destruct (bind_param <$> params) as [|[|k] vals]; cbn [snd]; try by rewrite Ht.
  destruct (bool_decide (is_Some (table d1 !! k))) eqn:Hin; cbn [snd]; [by rewrite Ht|].
  destruct (not_null_ok data_columns vals); cbn [snd table set_table]; [|by rewrite Ht].
  rewrite <- Ht. apply insert_subseteq, eq_None_not_Some.
  by apply bool_decide_eq_false_1 in Hin.
Qed.

Lemma db_run_update_dom (params : list jsval) (d : database) :
  dom (table (snd (db_run_update params d))) = dom (table d).
Proof.
  unfold db_run_update. pose proof (execute_table (CallUpdate params) d) as Ht.
  destruct (execute _ d) as [[|] d1]; cbn [snd] in *; [by rewrite Ht|].
  cbv zeta. destruct ((bind_param <$> params) !! 22%nat) as [[|k]|]; cbn [snd];
    try by rewrite Ht.
  destruct (table d1 !! k) eqn:Hrow; cbn [snd]; [|by rewrite Ht].
  destruct (not_null_ok data_columns _); cbn [snd table set_table]; [|by rewrite Ht].
  rewrite <- Ht. apply dom_insert_lookup_L. eauto.
Qed.

Section TableRelation.

(** A preorder on tables that every completion of a task respects, as
    long as the tasks satisfy [Inv]. *)
Context (this : importer) (options : ImportOptions).
Context (R : relation (gmap string (list sqlval))) (Inv : task -> Prop).
Context `{!PreOrder R}.
Hypothesis Inv_start : forall c, Inv (AwaitExisting c).
Hypothesis Inv_settled : Inv Settled.
Hypothesis R_resume : forall t w, Inv t ->
  Inv (fst (processClient_resume this options t w))
  /\ R (table (db w)) (table (db (snd (processClient_resume this options t w)))).

Lemma start_all_Inv (batch : list json_row) (w : world) :
  Forall Inv (fst (start_all this batch w))
  /\ db (snd (start_all this batch w)) = db w.
Proof.
  revert w. induction batch as [|c rest IH]; intros w; cbn [start_all]; [done|].
  pose proof (processClient_start_counted this c w) as H1.
  assert (Inv (fst (processClient_start this c w))) as Ht.
  { unfold processClient_start. destruct c as [|c]; [done|].
    destruct (negb _); cbn [fst]; auto. }
  destruct (processClient_start this c w) as [t w1].
  specialize (IH w1). destruct (start_all this rest w1) as [ts w2].
  cbn [fst snd] in *. destruct H1 as (_ & _ & Hd & _), IH as [IH1 IH2].
  split; [by constructor | congruence].
Qed.

Lemma resume_at_R (i : nat) (tasks : list task) (w : world) :
  Forall Inv tasks ->
  Forall Inv (fst (resume_at this options i tasks w))
  /\ R (table (db w)) (table (db (snd (resume_at this options i tasks w)))).
Proof.
  intros Hinv. unfold resume_at. destruct (tasks !! i) as [t|] eqn:Hi; [|done].
  assert (Inv t) as Ht by (by eapply Forall_lookup_1).
  destruct (R_resume t w Ht) as [Ht' HR].
  destruct (processClient_resume this options t w) as [t' w']. cbn [fst snd] in *.
  split; [|done]. by apply Forall_insert.
Qed.

Lemma settle_all_R (tasks : list task) (w : world) :
  Forall Inv tasks ->
  R (table (db w)) (table (db (settle_all this options tasks w))).
Proof.
  revert w. induction tasks as [|t ts IH]; intros w Hinv; cbn [settle_all]; [done|].
  apply Forall_cons in Hinv as [Ht Hts].
  destruct (R_resume t w Ht) as [Ht1 HR1].
  destruct (processClient_resume this options t w) as [t1 w1]. cbn [fst snd] in *.
  destruct (R_resume t1 w1 Ht1) as [_ HR2].
  destruct (processClient_resume this options t1 w1) as [t2 w2]. cbn [fst snd] in *.
  etrans; [exact HR1|]. etrans; [exact HR2|]. by apply IH.
Qed.

Lemma event_loop_R (picks : list nat) :
  forall (tasks : list task) (w : world),
    Forall Inv tasks ->
    R (table (db w)) (table (db (event_loop this options picks tasks w))).
Proof.
  induction picks as [|i picks IH]; intros tasks w Hinv; cbn [event_loop];
    destruct (forallb is_settled tasks); try done.
  - by apply (settle_all_R tasks (set_sched [] w)).
  - destruct (resume_at_R i tasks w Hinv) as [Hinv' HR].
    destruct (resume_at this options i tasks w) as [tasks' w']. cbn [fst snd] in *.
    etrans; [exact HR|]. by apply IH.
Qed.

Lemma processBatch_R (batch : list json_row) (w : world) :
  R (table (db w)) (table (db (processBatch this batch options w))).
Proof.
  unfold processBatch. destruct (start_all_Inv batch w) as [Hinv Hd].
  destruct (start_all this batch w) as [tasks w1]. cbn [fst snd] in *.
  rewrite <- Hd. by apply event_loop_R.
Qed.

Lemma process_batches_R (batches : list (list json_row)) (w : world) :
  R (table (db w)) (table (db (process_batches this options batches w))).
Proof.
  unfold process_batches. revert w.
  induction batches as [|b bs IH]; intros w; cbn [fold_left]; [done|].
  etrans; [apply (processBatch_R b w)|]. apply IH.
Qed.

Lemma importAll_R (w : world) :
  R (table (db w)) (table (db (snd (importAll this options w)))).
Proof.
  unfold importAll, analyzeData.
  destruct (Date_now_frame w) as (_ & Hd0 & _ & _).
  destruct (Date_now w) as [startTime w0]. cbn [snd] in *. rewrite <- Hd0.
  destruct (fs w0 !! jsonPath this) as [[|doc]|]; try done.
  destruct (get_Sheet1 doc) as [member|]; [|done].
  destruct (flag (dryRun options)); [by destruct (analyze_loop _ _) as [[[? ?] ?]|]|].
  destruct (createBatches _ _) as [batches|]; [|done].
  set (w1 := update (stats this) _ w0).
  pose proof (process_batches_R batches w1) as HR.
  destruct (Date_now_frame (process_batches this options batches w1)) as (_ & Hd3 & _ & _).
  destruct (Date_now (process_batches this options batches w1)) as [now w3].
  cbn [snd] in *. change (table (db w3)) with (table (db w3)).
  cbn [snd db update set_heap]. by rewrite Hd3.
Qed.

End TableRelation.

(** Whatever the options, the source, the driver errors and the order
    of completion, [importAll] never removes a row: every key stored
    before the call is stored after it. *)
Theorem import_keeps_every_key (this : importer) (options : ImportOptions) (w : world) :
  dom (table (db w)) ⊆ dom (table (db (snd (importAll this options w)))).
Proof.
  assert (PreOrder (fun t t' : gmap string (list sqlval) => dom t ⊆ dom t')) as HP.
  { split; [by intros ? | intros ? ? ? ? ?; by etrans]. }
  apply (@importAll_R this options _ (fun _ => True) HP).
  - done.
  - done.
  - intros t w' _. split; [done|].
    destruct t as [c|c|c|]; cbn [processClient_resume]; [| | |done].
    + pose proof (db_get_table [field c "Client ID"] (db w')) as Ht.
      unfold checkExistingClient.
      destruct (db_get _ _) as [[|[|]] d]; cbn [snd] in *;
        repeat (match goal with |- context [if ?b then _ else _] => destruct b end);
        cbn; by rewrite Ht.
    + pose proof (db_run_insert_table (field c "Client ID" :: (field c <$> data_fields))
                    (db w')) as Ht.
      unfold insertClient. destruct (db_run_insert _ _) as [[|] d]; cbn [snd] in *;
        cbn; by apply subseteq_dom.
    + pose proof (db_run_update_dom ((field c <$> data_fields) ++ [field c "Client ID"])
                    (db w')) as Ht.
      unfold updateClient. destruct (db_run_update _ _) as [[|] d]; cbn [snd] in *;
        cbn; by rewrite Ht.
Qed.

(** With [skipDuplicates] true, or [updateExisting] false or absent, an
    import leaves every row that was in the store exactly as it was:
    rows are only added. *)
Theorem import_without_update_keeps_rows (this : importer) (options : ImportOptions)
    (w : world) :
  cannot_update options ->
  table (db w) ⊆ table (db (snd (importAll this options w))).
Proof.
  intros Hopt.
  apply (@importAll_R this options (⊆) (fun t => awaits_update t = false) _).
  - done.
  - done.
  - intros t w' Ht.
    destruct t as [c|c|c|]; cbn [processClient_resume]; [| |done|done].
    + pose proof (db_get_table [field c "Client ID"] (db w')) as Htab.
      unfold checkExistingClient.
      destruct (db_get _ _) as [[|[|]] d]; cbn [snd] in *.
      * cbn. by rewrite Htab.
      * destruct Hopt as [-> | Hupd].
        -- cbn. by rewrite Htab.
        -- rewrite Hupd. destruct (flag (skipDuplicates options)); cbn; by rewrite Htab.
      * cbn. by rewrite Htab.
    + pose proof (db_run_insert_table (field c "Client ID" :: (field c <$> data_fields))
                    (db w')) as Htab.
      unfold insertClient. by destruct (db_run_insert _ _) as [[|] d].
Qed.

Lemma import_without_update_keeps_rows_witness :
  table (db stored_world)
  ⊆ table (db (snd (importAll stored_importer live_options stored_world))).
Proof.
  apply (import_without_update_keeps_rows stored_importer live_options stored_world).
  left. reflexivity.
Defined.

(** ** Dry-run analyzer: what the count is *)

Lemma analyze_fold_closed (seen : list client) :
  fold_left analyze_step seen (∅, ∅, 0)
  = (list_to_set (keys_of seen), list_to_set (nonempty_emails seen),
     Z.of_nat (length seen) - Z.of_nat (distinct (keys_of seen))
     + (Z.of_nat (length (nonempty_emails seen))
        - Z.of_nat (distinct (nonempty_emails seen)))).
Proof.
  induction seen as [|c seen IH] using rev_ind; [done|].
  rewrite fold_left_app, IH. cbn [fold_left]. clear IH.
  unfold analyze_step, distinct, nonempty_emails, keys_of, emails_of.
  rewrite !fmap_app, filter_app, !length_app, !list_to_set_app_L.
  cbn [fmap list_fmap length].
  set (ids := list_to_set ((fun c => field c "Client ID") <$> seen) : gset jsval).
  set (mails := filter (fun v => truthy v = true) ((fun c => field c "Email") <$> seen)).
  set (emails := list_to_set mails : gset jsval).
  assert (list_to_set [field c "Client ID"] = ({[field c "Client ID"]} : gset jsval))
    as -> by apply (right_id_L ∅ (∪)).
  assert (forall (x : jsval) (X : gset jsval), x ∈ X -> X ∪ {[x]} = X) as Hin.
  { intros x X Hx. rewrite (comm_L (∪)). apply subseteq_union_1_L.
    by apply singleton_subseteq_l. }
  assert (forall (x : jsval) (X : gset jsval), x ∉ X ->
            X ∪ {[x]} = {[x]} ∪ X /\ size ({[x]} ∪ X) = S (size X)) as Hout.
  { intros x X Hx. split; [apply (comm_L (∪))|].
    rewrite size_union by (by apply disjoint_singleton_l). by rewrite size_singleton. }
  destruct (bool_decide (field c "Client ID" ∈ ids)) eqn:Hk.
  - apply bool_decide_eq_true_1 in Hk. rewrite (Hin _ _ Hk).
    destruct (truthy (field c "Email")) eqn:Ht; cbn [andb].
    + rewrite filter_cons_True by done. rewrite filter_nil. cbn [length].
      assert (list_to_set [field c "Email"] = ({[field c "Email"]} : gset jsval))
        as -> by apply (right_id_L ∅ (∪)).
      destruct (bool_decide (field c "Email" ∈ emails)) eqn:He.
      * apply bool_decide_eq_true_1 in He. rewrite (Hin _ _ He). f_equal; lia.
      * apply bool_decide_eq_false_1 in He.
        destruct (Hout _ _ He) as [-> ->]. f_equal; lia.
    + rewrite filter_cons_False by (by rewrite Ht). rewrite filter_nil. cbn [length].
      rewrite list_to_set_nil, (right_id_L ∅ (∪)). f_equal; lia.
  - apply bool_decide_eq_false_1 in Hk. destruct (Hout _ _ Hk) as [-> ->].
    destruct (truthy (field c "Email")) eqn:Ht; cbn [andb].
    + rewrite filter_cons_True by done. rewrite filter_nil. cbn [length].
      assert (list_to_set [field c "Email"] = ({[field c "Email"]} : gset jsval))
        as -> by apply (right_id_L ∅ (∪)).
      destruct (bool_decide (field c "Email" ∈ emails)) eqn:He.
      * apply bool_decide_eq_true_1 in He. rewrite (Hin _ _ He). f_equal; lia.
      * apply bool_decide_eq_false_1 in He.
        destruct (Hout _ _ He) as [-> ->]. f_equal; lia.
    + rewrite filter_cons_False by (by rewrite Ht). rewrite filter_nil. cbn [length].
      rewrite list_to_set_nil, (right_id_L ∅ (∪)). f_equal; lia.
Qed.

(** The dry-run count is the number of records minus the number of
    distinct keys, plus the number of non-empty e-mail addresses minus
    the number of distinct ones; it is never negative and at most
    [2 * (N - 1)]. *)
Theorem dry_run_count_closed_form (rows : list client) :
  count_duplicates rows
  = (Z.of_nat (length rows) - Z.of_nat (distinct (keys_of rows)))
    + (Z.of_nat (length (nonempty_emails rows))
       - Z.of_nat (distinct (nonempty_emails rows)))
  /\ 0 <= count_duplicates rows
  /\ (rows <> [] -> count_duplicates rows <= 2 * (Z.of_nat (length rows) - 1)).
Proof.
  assert (forall l : list jsval, (distinct l <= length l)%nat
            /\ (l <> [] -> 1 <= distinct l)%nat) as Hd.
  { intros l. unfold distinct. split.
    - induction l as [|x l IH]; [done|]. cbn [list_to_set length].
      pose proof (size_union_alt ({[x]} : gset jsval) (list_to_set l)) as Hs.
      pose proof (subseteq_size (list_to_set l ∖ {[x]}) (list_to_set l : gset jsval)
                    ltac:(apply subseteq_difference_l; done)).
      rewrite size_singleton in Hs. lia.
    - destruct l as [|x l]; [done|]. intros _. cbn [list_to_set].
      pose proof (subseteq_size ({[x]} : gset jsval) ({[x]} ∪ list_to_set l)
                    ltac:(apply union_subseteq_l)) as Hs.
      rewrite size_singleton in Hs. lia. }
  unfold count_duplicates. rewrite analyze_fold_closed. cbn [snd].
  split; [done|].
  destruct (Hd (keys_of rows)) as [Hk1 Hk2], (Hd (nonempty_emails rows)) as [He1 He2].
  assert (length (keys_of rows) = length rows) as Hlk
    by (unfold keys_of; by rewrite length_fmap).
  assert (length (nonempty_emails rows) <= length rows)%nat as Hle.
  { unfold nonempty_emails, emails_of.
    etrans; [apply length_filter|]. by rewrite length_fmap. }
  split; [lia|]. intros Hne.
  assert (keys_of rows <> []) as Hkne by (destruct rows; done).
  specialize (Hk2 Hkne).
  destruct (nonempty_emails rows) as [|e es] eqn:Hem.
  - cbn [length] in *. lia.
  - assert (1 <= distinct (e :: es))%nat by (by apply He2). lia.
Qed.

Lemma dry_run_count_closed_form_aux (rows rows' : list client) :
  rows ≡ₚ rows' ->
  length rows = length rows'
  /\ distinct (keys_of rows) = distinct (keys_of rows')
  /\ length (nonempty_emails rows) = length (nonempty_emails rows')
  /\ distinct (nonempty_emails rows) = distinct (nonempty_emails rows').
Proof.
  intros Hperm.
  assert (keys_of rows ≡ₚ keys_of rows') as Hk by (unfold keys_of; by rewrite Hperm).
  assert (nonempty_emails rows ≡ₚ nonempty_emails rows') as He
    by (unfold nonempty_emails, emails_of; by rewrite Hperm).
  unfold distinct. split_and!.
  - by rewrite Hperm.
  - f_equal. apply set_eq. intros x. rewrite !elem_of_list_to_set. by rewrite Hk.
  - by rewrite He.
  - f_equal. apply set_eq. intros x. rewrite !elem_of_list_to_set. by rewrite He.
Qed.

(** The dry-run count does not depend on the order of the records. *)
Theorem dry_run_count_order_independent (rows rows' : list client) :
  rows ≡ₚ rows' -> count_duplicates rows = count_duplicates rows'.
Proof.
  intros Hperm.
  destruct (dry_run_count_closed_form_aux rows rows' Hperm) as (H1 & H2 & H3 & H4).
  unfold count_duplicates. rewrite !analyze_fold_closed. cbn [snd].
  by rewrite H1, H2, H3, H4.
Qed.

Lemma dry_run_count_order_independent_witness :
  count_duplicates [row "A" "x@y.com"; row "A" "z@y.com"; row "B" "x@y.com"]
  = count_duplicates [row "B" "x@y.com"; row "A" "x@y.com"; row "A" "z@y.com"].
Proof.
  apply dry_run_count_order_independent.
  symmetry.
  apply (Permutation_cons_append [row "A" "x@y.com"; row "A" "z@y.com"] (row "B" "x@y.com")).
Defined.

(** ** What a call that throws leaves behind, and the elapsed time *)

(** When [importAll] throws, the store, the files and every object
    other than the importer's statistics are as they were.  When the
    source is missing, cannot be read or parsed, or parses to [null], the
    statistics are untouched as well and the error names the cause.  The
    one other throw is the [TypeError] of a dry run that met a [null]
    row: [total] has been written by then, [duplicates] and [skipped]
    have not. *)
Theorem failed_import_leaves_store (this : importer) (options : ImportOptions)
    (w : world) (e : js_error) :
  fst (importAll this options w) = Thrown e ->
  db (snd (importAll this options w)) = db w
  /\ fs (snd (importAll this options w)) = fs w
  /\ (forall l, l <> stats this -> heap (snd (importAll this options w)) !! l = heap w !! l)
  /\ match fs w !! jsonPath this with
     | None => e = FileNotFound (jsonPath this)
               /\ heap (snd (importAll this options w)) = heap w
     | Some Unparsable => e = ReadOrParseError
                          /\ heap (snd (importAll this options w)) = heap w
     | Some (Json doc) =>
         e = TypeError
         /\ match get_Sheet1 doc with
            | None => heap (snd (importAll this options w)) = heap w
            | Some member =>
                flag (dryRun options) = true
                /\ JsonNull ∈ rows_or_empty member
                /\ read (stats this) (snd (importAll this options w))
                    = set_total (Z.of_nat (length (rows_or_empty member)))
                        (read (stats this) w)
            end
     end.
Proof.
  destruct (dataset_cases this w) as [Hfile|[Hfile|[Hfile|(doc & member & Hfile & Hdoc)]]].
  - unfold importAll.
    destruct (Date_now_frame w) as (Hh0 & Hd0 & Hf0 & _).
    destruct (Date_now w) as [startTime w0]. cbn [snd] in *. rewrite Hf0, Hfile.
    cbn [fst snd]. intros [= <-]. rewrite Hh0. by split_and!.
  - unfold importAll.
    destruct (Date_now_frame w) as (Hh0 & Hd0 & Hf0 & _).
    destruct (Date_now w) as [startTime w0]. cbn [snd] in *. rewrite Hf0, Hfile.
    cbn [fst snd]. intros [= <-]. rewrite Hh0. by split_and!.
  - unfold importAll.
    destruct (Date_now_frame w) as (Hh0 & Hd0 & Hf0 & _).
    destruct (Date_now w) as [startTime w0]. cbn [snd] in *. rewrite Hf0, Hfile.
    cbn [fst snd get_Sheet1]. intros [= <-]. rewrite Hh0. by split_and!.
  - rewrite Hfile, Hdoc. intros Hthrown.
    assert (exists e', fst (importAll this options w) = Thrown e') as Hex by eauto.
    apply importAll_throws_iff in Hex as [[H|[H|H]]|[Hdry (rows & H & Hnull)]];
      rewrite Hfile in H; try done.
    { injection H as Hd. subst doc. done. }
    injection H as Hd. subst doc. cbn in Hdoc. injection Hdoc as Hm. subst member.
    rewrite (importAll_dry_null this options w _ _ Hfile eq_refl Hdry Hnull) in Hthrown |- *.
    cbn [fst snd rows_or_empty] in *. injection Hthrown as <-.
    destruct (Date_now_frame w) as (Hh0 & Hd0 & Hf0 & _).
    rewrite read_update_eq, read_Date_now. cbn. rewrite Hd0, Hf0.
    split_and!; try done.
    intros l Hl. rewrite lookup_insert_ne by done. by rewrite Hh0.
Qed.

Lemma failed_import_leaves_store_witness :
  db (snd (importAll (fst (constructor None null_world)) live_options
             (snd (constructor None null_world))))
  = db (snd (constructor None null_world)).
Proof.
  apply (failed_import_leaves_store (fst (constructor None null_world)) live_options
           (snd (constructor None null_world)) TypeError).
  reflexivity.
Defined.

Lemma createBatches_coverage_aux {A} (clients : list A) (B : Z) :
  1 <= B -> exists batches, createBatches clients B = Some batches.
Proof.
  intros HB.
  destruct (createBatches_loop_spec clients B HB (length clients) 0 [])
    as (rest & Hrun & _); [lia | lia |].
  by exists rest.
Qed.

(** After a live import [processingTime] is the reading of the clock at
    the end minus the reading at the start, whatever the object held
    before: the processing in between does not read the clock. *)
Theorem live_import_processingTime (this : importer) (options : ImportOptions)
    (w : world) (rows : list json_row) :
  fs w !! jsonPath this = Some (Json (DocObject (Sheet1Rows rows))) ->
  flag (dryRun options) = false ->
  1 <= effective_batchSize options ->
  processingTime (read (stats this) (snd (importAll this options w))) = elapsed w.
Proof.
  intros Hfile Hdry HB.
  destruct (createBatches_coverage_aux rows _ HB) as [batches Hb].
  rewrite (importAll_live_unfold this options w _ _ batches Hfile eq_refl Hdry Hb).
  cbn [snd rows_or_empty]. rewrite read_update_eq. cbn [processingTime set_processingTime].
  unfold elapsed.
  set (w1 := update (stats this) _ (snd (Date_now w))).
  destruct (process_batches_counted this options batches w1) as [_ (_ & Hclock & _)].
  rewrite (Date_now_clock _ w1 Hclock).
  rewrite (Date_now_clock w1 (snd (Date_now w)) eq_refl).
  destruct (Date_now w) as [t0 w0]. cbn [fst snd]. by destruct (Date_now w0).
Qed.

Lemma live_import_processingTime_witness :
  processingTime
    (read (stats (fst (constructor None sample_world)))
       (snd (importAll (fst (constructor None sample_world)) live_options
               (snd (constructor None sample_world)))))
  = elapsed (snd (constructor None sample_world)).
Proof.
  apply (live_import_processingTime (fst (constructor None sample_world)) live_options
           (snd (constructor None sample_world)) (JsonObject <$> sample_rows));
    [vm_compute; reflexivity | reflexivity | vm_compute; discriminate].
Defined.

(** ** Importing records the store does not hold yet *)

Lemma clean_no_fault (d : database) (n : nat) : clean d -> no_fault n d = true.
Proof.
  unfold clean, no_fault. intros Hc. apply forallb_forall. intros f Hf.
  apply list_elem_of_In, elem_of_take in Hf as (i & Hi & _).
  rewrite Forall_lookup in Hc. by rewrite (Hc i f Hi).
Qed.

Lemma clean_execute (call : db_call) (d : database) :
  clean d -> clean (snd (execute call d)).
Proof.
  unfold clean, execute. destruct (faults d) as [|f rest]; cbn; [done|].
  by intros [_ ?]%Forall_cons.
Qed.

Lemma stored_mono (d d' : database) (c : client) :
  stored d c -> table d ⊆ table d' -> stored d' c.
Proof.
  intros (k & Hk & Hrow) Hsub. exists k. split; [done|].
  by eapply lookup_weaken.
Qed.

Lemma ready_other (d d' : database) (c c' : client) :
  ready d c' -> touches_only c d d' ->
  field c' "Client ID" <> field c "Client ID" -> ready d' c'.
Proof.
  intros (k & Hk & Hne & Hrow & Hnn) [_ Hsame] Hdiff. exists k. split_and!; try done.
  rewrite Hsame; [done|]. by rewrite <- Hk.
Qed.

Lemma in_flight_other (d d' : database) (c c' : client) (t : task) :
  in_flight d c' t -> touches_only c d d' ->
  field c' "Client ID" <> field c "Client ID" -> in_flight d' c' t.
Proof.
  intros Hin Htouch Hdiff. destruct t as [c0|c0|c0|]; cbn in *; try done.
  - destruct Hin as [-> Hr]. split; [done|]. by eapply ready_other.
  - destruct Hin as [-> Hr]. split; [done|]. by eapply ready_other.
  - eapply stored_mono; [done|]. apply Htouch.
Qed.

Lemma touches_only_refl (c : client) (d : database) : touches_only c d d.
Proof. by split. Qed.

Lemma touches_only_trans (c : client) (d1 d2 d3 : database) :
  touches_only c d1 d2 -> touches_only c d2 d3 -> touches_only c d1 d3.
Proof.
  intros [Hs1 Hk1] [Hs2 Hk2]. split; [by etrans|].
  intros k' Hk. by rewrite Hk2, Hk1.
Qed.

Lemma quiet_refl (this : importer) (w : world) : quiet this w w.
Proof. by split. Qed.

Lemma quiet_trans (this : importer) (w1 w2 w3 : world) :
  quiet this w1 w2 -> quiet this w2 w3 -> quiet this w1 w3.
Proof. unfold quiet. intros [? ?] [? ?]. split; congruence. Qed.

Section NewRecords.

Context (this : importer) (options : ImportOptions).

(** One completion of the task of a new record. *)
Lemma resume_in_flight (c : client) (t : task) (w : world) :
  in_flight (db w) c t -> clean (db w) ->
  in_flight (db (snd (processClient_resume this options t w))) c
    (fst (processClient_resume this options t w))
  /\ clean (db (snd (processClient_resume this options t w)))
  /\ touches_only c (db w) (db (snd (processClient_resume this options t w)))
  /\ quiet this w (snd (processClient_resume this options t w)).
Proof.
  intros Hin Hclean.
  destruct t as [c0|c0|c0|]; cbn [in_flight] in Hin; [| |done|].
  - destruct Hin as [-> (k & Hk & Hne & Hrow & Hnn)].
    cbn [processClient_resume]. rewrite Hk.
    rewrite (checkExistingClient_absent k (db w) (clean_no_fault _ 1 Hclean) Hrow).
    pose proof (execute_table (CallGet [JString k]) (db w)) as Ht.
    pose proof (clean_execute (CallGet [JString k]) (db w) Hclean) as Hc.
    cbn [fst snd db set_db in_flight]. split; [|split; [|split]]; try done.
    + split; [done|]. exists k. by rewrite Ht.
    + split; [by rewrite Ht|]. intros k' _. by rewrite Ht.
  - destruct Hin as [-> (k & Hk & Hne & Hrow & Hnn)].
    cbn [processClient_resume].
    rewrite (insertClient_absent c k (db w) Hk (clean_no_fault _ 1 Hclean) Hrow), Hnn.
    pose proof (execute_table
                  (CallInsert (field c "Client ID" :: (field c <$> data_fields))) (db w))
      as Ht.
    pose proof (clean_execute
                  (CallInsert (field c "Client ID" :: (field c <$> data_fields))) (db w)
                  Hclean) as Hc.
    destruct (execute (CallInsert _) (db w)) as [f1 d1]. cbn [snd] in Ht, Hc.
    cbn [fst snd in_flight]. split; [|split; [|split]].
    + exists k. split; [done|]. cbn. by rewrite lookup_insert_eq.
    + done.
    + split; cbn; rewrite Ht.
      * by apply insert_subseteq.
      * intros k' Hk'. rewrite lookup_insert_ne; [done|]. intros ->. by rewrite Hk in Hk'.
    + split; rewrite read_update_eq, read_set_db; done.
  - cbn [processClient_resume fst snd in_flight].
    split; [done|]. split; [done|]. split; [apply touches_only_refl | apply quiet_refl].
Qed.

Lemma keys_differ (batch : list client) (i j : nat) (c c' : client) :
  NoDup (keys_of batch) -> batch !! i = Some c -> batch !! j = Some c' -> i <> j ->
  field c' "Client ID" <> field c "Client ID".
Proof.
  intros Hnd Hi Hj Hij Heq. apply Hij.
  apply (NoDup_lookup (keys_of batch) i j (field c "Client ID")); [done| |];
    unfold keys_of; rewrite list_lookup_fmap; [by rewrite Hi | rewrite Hj; cbn; by rewrite Heq].
Qed.

Lemma resume_at_in_flight (i : nat) (batch fut : list client) (tasks : list task)
    (w : world) :
  Forall2 (in_flight (db w)) batch tasks ->
  Forall (ready (db w)) fut ->
  NoDup (keys_of (batch ++ fut)) ->
  clean (db w) ->
  Forall2 (in_flight (db (snd (resume_at this options i tasks w)))) batch
    (fst (resume_at this options i tasks w))
  /\ Forall (ready (db (snd (resume_at this options i tasks w)))) fut
  /\ clean (db (snd (resume_at this options i tasks w)))
  /\ table (db w) ⊆ table (db (snd (resume_at this options i tasks w)))
  /\ quiet this w (snd (resume_at this options i tasks w)).
Proof.
  intros Hfl Hfut Hnd Hclean. unfold resume_at.
  destruct (tasks !! i) as [t|] eqn:Hi; cbn [fst snd];
    [|split_and!; try done; try apply quiet_refl].
  destruct (Forall2_lookup_r _ _ _ _ _ Hfl Hi) as (c & Hc & Hin).
  destruct (resume_in_flight c t w Hin Hclean) as (Hin' & Hclean' & Htouch & Hquiet).
  destruct (processClient_resume this options t w) as [t' w']. cbn [fst snd] in *.
  unfold keys_of in Hnd. rewrite fmap_app in Hnd.
  apply NoDup_app in Hnd as (Hndb & Hdisj & _).
  split_and!; try done; [| |apply Htouch].
  - apply Forall2_same_length_lookup_2.
    + rewrite length_insert. by eapply Forall2_length.
    + intros j cj tj Hcj Htj. destruct (decide (i = j)) as [<- | Hij].
      * rewrite list_lookup_insert_eq in Htj by (by eapply lookup_lt_Some).
        injection Htj as <-. by rewrite Hc in Hcj; injection Hcj as <-.
      * rewrite list_lookup_insert_ne in Htj by done.
        eapply in_flight_other; [|exact Htouch|by eapply (keys_differ batch i j)].
        by eapply Forall2_lookup_lr.
  - rewrite Forall_forall in Hfut |- *. intros c' Hc'.
    eapply ready_other; [by apply Hfut|exact Htouch|].
    intros Heq. apply (Hdisj (field c "Client ID")).
    + apply list_elem_of_fmap. exists c. split; [done|]. by eapply list_elem_of_lookup_2.
    + apply list_elem_of_fmap. exists c'. by split.
Qed.

Lemma settle_all_in_flight (batch fut : list client) :
  forall (tasks : list task) (w : world),
    Forall2 (in_flight (db w)) batch tasks ->
    Forall (ready (db w)) fut ->
    NoDup (keys_of (batch ++ fut)) ->
    clean (db w) ->
    Forall (stored (db (settle_all this options tasks w))) batch
    /\ Forall (ready (db (settle_all this options tasks w))) fut
    /\ clean (db (settle_all this options tasks w))
    /\ table (db w) ⊆ table (db (settle_all this options tasks w))
    /\ quiet this w (settle_all this options tasks w).
Proof.
  induction batch as [|c cs IH]; intros tasks w Hfl Hfut Hnd Hclean.
  - apply Forall2_nil_inv_l in Hfl as ->. cbn. split_and!; try done; try apply quiet_refl.
  - apply Forall2_cons_inv_l in Hfl as (t & ts & Hin & Hrest & ->).
    cbn [settle_all].
    destruct (resume_in_flight c t w Hin Hclean) as (Hin1 & Hclean1 & Htouch1 & Hq1).
    pose proof (processClient_resume_twice this options t w) as Htwice.
    destruct (processClient_resume this options t w) as [t1 w1]. cbn [fst snd] in *.
    destruct (resume_in_flight c t1 w1 Hin1 Hclean1) as (Hin2 & Hclean2 & Htouch2 & Hq2).
    destruct (processClient_resume this options t1 w1) as [t2 w2]. cbn [fst snd] in *.
    subst t2. cbn [in_flight] in Hin2.
    pose proof (touches_only_trans _ _ _ _ Htouch1 Htouch2) as Htouch.
    cbn [app] in Hnd. unfold keys_of in Hnd. rewrite fmap_cons in Hnd.
    apply NoDup_cons in Hnd as [Hfresh Hnd].
    assert (forall c', c' ∈ cs ++ fut ->
              field c' "Client ID" <> field c "Client ID") as Hdiff.
    { intros c' Hc' Heq. apply Hfresh. rewrite <- Heq.
      apply list_elem_of_fmap. by exists c'. }
    destruct (IH ts w2) as (Hst & Hfut' & Hclean' & Hsub & Hq); try done.
    + apply Forall2_same_length_lookup_2; [by eapply Forall2_length|].
      intros j cj tj Hcj Htj. eapply in_flight_other; [|exact Htouch|].
      * by eapply Forall2_lookup_lr.
      * apply Hdiff, elem_of_app. left. by eapply list_elem_of_lookup_2.
    + rewrite Forall_forall in Hfut |- *. intros c' Hc'.
      eapply ready_other; [by apply Hfut|exact Htouch|].
      apply Hdiff, elem_of_app. by right.
    + split_and!; try done.
      * constructor; [|done]. by eapply stored_mono.
      * etrans; [apply Htouch|done].
      * eapply quiet_trans; [|exact Hq]. by eapply quiet_trans.
Qed.

Lemma all_settled_stored (d : database) (batch : list client) (tasks : list task) :
  Forall2 (in_flight d) batch tasks -> forallb is_settled tasks = true ->
  Forall (stored d) batch.
Proof.
  induction 1 as [|c t cs ts Hin _ IH]; cbn; [done|].
  intros [Ht Hts]%andb_prop. constructor; [|by apply IH].
  by destruct t.
Qed.

Lemma event_loop_in_flight (batch fut : list client) (picks : list nat) :
  forall (tasks : list task) (w : world),
    Forall2 (in_flight (db w)) batch tasks ->
    Forall (ready (db w)) fut ->
    NoDup (keys_of (batch ++ fut)) ->
    clean (db w) ->
    Forall (stored (db (event_loop this options picks tasks w))) batch
    /\ Forall (ready (db (event_loop this options picks tasks w))) fut
    /\ clean (db (event_loop this options picks tasks w))
    /\ table (db w) ⊆ table (db (event_loop this options picks tasks w))
    /\ quiet this w (event_loop this options picks tasks w).
Proof.
  induction picks as [|i picks IH]; intros tasks w Hfl Hfut Hnd Hclean;
    cbn [event_loop]; destruct (forallb is_settled tasks) eqn:Hall.
  - cbn. split_and!; try done; try (by eapply all_settled_stored); try apply quiet_refl.
  - apply (settle_all_in_flight batch fut tasks (set_sched [] w)); done.
  - cbn. split_and!; try done; try (by eapply all_settled_stored); try apply quiet_refl.
  - destruct (resume_at_in_flight i batch fut tasks w Hfl Hfut Hnd Hclean)
      as (Hfl' & Hfut' & Hclean' & Hsub & Hq).
    destruct (resume_at this options i tasks w) as [tasks' w']. cbn [fst snd] in *.
    destruct (IH tasks' w' Hfl' Hfut' Hnd Hclean') as (H1 & H2 & H3 & H4 & H5).
    split_and!; try done; try (by etrans); try (by eapply quiet_trans).
Qed.

Lemma start_all_in_flight (batch : list client) (w : world) :
  Forall (ready (db w)) batch ->
  Forall2 (in_flight (db w)) batch (fst (start_all this (JsonObject <$> batch) w))
  /\ db (snd (start_all this (JsonObject <$> batch) w)) = db w
  /\ quiet this w (snd (start_all this (JsonObject <$> batch) w)).
Proof.
  revert w. induction batch as [|c cs IH]; intros w Hready;
    cbn [start_all fmap list_fmap].
  - cbn. split_and!; try done; try apply quiet_refl.
  - apply Forall_cons in Hready as [Hc Hcs].
    unfold processClient_start.
    destruct Hc as (k & Hk & Hne & Hrow & Hnn).
    rewrite Hk, (truthy_key k Hne). cbn [negb].
    destruct (IH w Hcs) as (Hfl & Hd & Hq). fold (fmap (M:=list) JsonObject cs).
    destruct (start_all this (JsonObject <$> cs) w) as [ts w1]. cbn [fst snd] in *.
    split_and!; try done. constructor; [|done].
    split; [done|]. by exists k.
Qed.

Lemma processBatch_in_flight (batch fut : list client) (w : world) :
  Forall (ready (db w)) (batch ++ fut) ->
  NoDup (keys_of (batch ++ fut)) ->
  clean (db w) ->
  Forall (stored (db (processBatch this (JsonObject <$> batch) options w))) batch
  /\ Forall (ready (db (processBatch this (JsonObject <$> batch) options w))) fut
  /\ clean (db (processBatch this (JsonObject <$> batch) options w))
  /\ table (db w) ⊆ table (db (processBatch this (JsonObject <$> batch) options w))
  /\ quiet this w (processBatch this (JsonObject <$> batch) options w).
Proof.
  intros [Hb Hf]%Forall_app Hnd Hclean. unfold processBatch.
  destruct (start_all_in_flight batch w Hb) as (Hfl & Hd & Hq).
  destruct (start_all this (JsonObject <$> batch) w) as [tasks w1]. cbn [fst snd] in *.
  rewrite <- Hd in Hfl, Hf, Hclean.
  destruct (event_loop_in_flight batch fut (sched w1) tasks w1 Hfl Hf Hnd Hclean)
    as (H1 & H2 & H3 & H4 & H5).
  rewrite <- Hd. split_and!; try done. by eapply quiet_trans.
Qed.

Lemma process_batches_in_flight (batches : list (list client)) :
  forall w : world,
    Forall (ready (db w)) (concat batches) ->
    NoDup (keys_of (concat batches)) ->
    clean (db w) ->
    Forall (stored (db (process_batches this options (fmap (M:=list) JsonObject <$> batches) w)))
      (concat batches)
    /\ clean (db (process_batches this options (fmap (M:=list) JsonObject <$> batches) w))
    /\ table (db w) ⊆ table (db (process_batches this options (fmap (M:=list) JsonObject <$> batches) w))
    /\ quiet this w (process_batches this options (fmap (M:=list) JsonObject <$> batches) w).
Proof.
  unfold process_batches.
  induction batches as [|b bs IH]; intros w Hready Hnd Hclean;
    cbn [fold_left concat fmap list_fmap] in *.
  - split_and!; try done; try apply quiet_refl.
  - destruct (processBatch_in_flight b (concat bs) w Hready Hnd Hclean)
      as (Hst & Hfut & Hclean' & Hsub & Hq).
    unfold keys_of in Hnd. rewrite fmap_app in Hnd. apply NoDup_app in Hnd as (_ & _ & Hnd').
    fold (fmap (M:=list) JsonObject b) in *.
    fold (fmap (M:=list) (fmap (M:=list) JsonObject) bs) in *.
    destruct (IH (processBatch this (JsonObject <$> b) options w) Hfut Hnd' Hclean')
      as (Hst' & Hclean'' & Hsub' & Hq').
    split_and!; try done.
    + apply Forall_app. split; [|done].
      eapply Forall_impl; [exact Hst|]. intros c Hc. by eapply stored_mono.
    + by etrans.
    + by eapply quiet_trans.
Qed.

End NewRecords.

(** Records with distinct non-empty keys that the store does not hold,
    each with the columns the table requires, and no driver error: a
    live import returns with [imported] grown by the number of records,
    [skipped] and [errors] as they were, every record stored with its
    columns and every earlier row untouched, in whatever order the
    statements of a batch complete. *)
Theorem new_records_all_imported (this : importer) (options : ImportOptions)
    (w : world) (rows : list client) :
  fs w !! jsonPath this = Some (Json (DocObject (Sheet1Rows (JsonObject <$> rows)))) ->
  flag (dryRun options) = false ->
  1 <= effective_batchSize options ->
  clean (db w) ->
  NoDup (keys_of rows) ->
  Forall (ready (db w)) rows ->
  fst (importAll this options w) = Returned (stats this)
  /\ imported (read (stats this) (snd (importAll this options w)))
      = imported (read (stats this) w) + Z.of_nat (length rows)
  /\ skipped (read (stats this) (snd (importAll this options w)))
      = skipped (read (stats this) w)
  /\ errors (read (stats this) (snd (importAll this options w)))
      = errors (read (stats this) w)
  /\ Forall (stored (db (snd (importAll this options w)))) rows
  /\ table (db w) ⊆ table (db (snd (importAll this options w))).
Proof.
  intros Hfile Hdry HB Hclean Hnd Hready.
  destruct (createBatches_coverage_aux rows _ HB) as [batches Hb].
  pose proof (createBatches_concat _ _ _ (or_introl HB) Hb) as Hcat.
  assert (createBatches (JsonObject <$> rows) (effective_batchSize options)
          = Some (fmap (M:=list) JsonObject <$> batches)) as Hb'
    by (by rewrite createBatches_fmap, Hb).
  pose proof (createBatches_concat _ _ _ (or_introl HB) Hb') as Hcat'.
  rewrite (importAll_live_unfold this options w _ _ _ Hfile eq_refl Hdry Hb').
  cbn [fst snd rows_or_empty]. rewrite length_fmap.
  set (w1 := update (stats this) (set_total (Z.of_nat (length rows))) (snd (Date_now w))).
  assert (db w1 = db w) as Hd1.
  { unfold w1. cbn. by destruct (Date_now_frame w) as (_ & -> & _). }
  assert (read (stats this) w1 = set_total (Z.of_nat (length rows)) (read (stats this) w))
    as Hr1 by (unfold w1; by rewrite read_update_eq, read_Date_now).
  destruct (process_batches_in_flight this options batches w1)
    as (Hst & _ & Hsub & [Hqe Hqs]); rewrite ?Hcat, ?Hd1; try done.
  destruct (process_batches_counted this options (fmap (M:=list) JsonObject <$> batches) w1)
    as [Hc _].
  rewrite Hcat', row_objects_fmap in Hc. rewrite Hcat in Hst. rewrite Hd1 in Hsub.
  set (w2 := process_batches this options (fmap (M:=list) JsonObject <$> batches) w1) in *.
  destruct (Date_now_frame w2) as (_ & Hd2 & _).
  rewrite read_update_eq, read_Date_now.
  cbn [db update set_heap]. rewrite Hd2.
  rewrite Hr1 in Hc, Hqe, Hqs. unfold counted, accounted in Hc. cbn in *.
  split_and!; try done; lia.
Qed.

Lemma new_records_all_imported_witness :
  imported (read (stats (fst (constructor None distinct_world)))
              (snd (importAll (fst (constructor None distinct_world)) live_options
                      (snd (constructor None distinct_world)))))
  = imported (read (stats (fst (constructor None distinct_world)))
                (snd (constructor None distinct_world)))
    + Z.of_nat (length distinct_rows).
Proof.
  apply (new_records_all_imported (fst (constructor None distinct_world)) live_options
           (snd (constructor None distinct_world)) distinct_rows).
  - vm_compute. reflexivity.
  - reflexivity.
  - vm_compute. discriminate.
  - constructor.
  - apply (bool_decide_unpack _). vm_compute. reflexivity.
  - repeat constructor.
    + exists "A". split_and!; [reflexivity | discriminate | reflexivity | vm_compute; reflexivity].
    + exists "B". split_and!; [reflexivity | discriminate | reflexivity | vm_compute; reflexivity].
    + exists "C". split_and!; [reflexivity | discriminate | reflexivity | vm_compute; reflexivity].
Defined.

(** ** Dry run on an importer that was used before *)





(** * The callers of the importer *)

(** ** POST /easypay/import *)

Lemma effective_batchSize_request (body : import_body) :
  effective_batchSize (import_request_options body) = or_default (body_batchSize body) 100
  /\ (1 <= or_default (body_batchSize body) 100 <->
        body_batchSize body = None \/ exists b, body_batchSize body = Some b /\ 0 <= b).
Proof.
  unfold effective_batchSize, import_request_options, or_default. cbn.
  destruct (body_batchSize body) as [[|b|b]|]; (split; [done|]).
  - split; [intros _; right; exists 0; split; [done|lia] | lia].
  - split; [intros _; right; exists (Z.pos b); split; [done|lia] | lia].
  - split; [lia|]. intros [|(b' & [= <-] & ?)]; [done|lia].
  - split; [tauto|lia].
Qed.

Lemma constructor_None (w0 : world) :
  jsonPath (fst (constructor None w0)) = default_jsonPath.
Proof. done. Qed.

(** A request for a live import whose [batchSize] is absent, zero or
    positive is answered with "Import completed successfully" and the
    statistics of a new importer: [total] is the number of rows of the
    source, [imported + skipped + errors] is the number of rows that are
    not [null], which is [total] when no row is [null], and
    [duplicates = 0]. *)
Theorem post_import_reports_every_row (body : import_body) (w : world)
    (rows : list json_row) :
  fs w !! default_jsonPath = Some (Json (DocObject (Sheet1Rows rows))) ->
  flag (body_dryRun body) = false ->
  (body_batchSize body = None \/ exists b, body_batchSize body = Some b /\ 0 <= b) ->
  exists st,
    fst (post_import body w)
    = Json200 "Import completed successfully" st (import_request_options body)
    /\ total st = Z.of_nat (length rows)
    /\ imported st + skipped st + errors st = Z.of_nat (length (row_objects rows))
    /\ (JsonNull ∉ rows -> imported st + skipped st + errors st = total st)
    /\ duplicates st = 0.
Proof.
  intros Hfile Hdry Hbatch. unfold post_import.
  destruct (constructor None w) as [this w1] eqn:Hnew.
  destruct (constructor_fresh _ _ _ _ Hnew) as (Hzero & Hfs & _).
  assert (jsonPath this = default_jsonPath) as Hpath
    by (pose proof (constructor_None w) as H; by rewrite Hnew in H).
  rewrite <- Hfs, <- Hpath in Hfile.
  destruct (effective_batchSize_request body) as [HB1 HB2].
  assert (1 <= effective_batchSize (import_request_options body)) as HB
    by (rewrite HB1; by apply HB2).
  destruct (importAll_live this (import_request_options body) w1 _ _ Hfile eq_refl Hdry
              (or_introl HB)) as (w' & Hrun & Htotal & Hacc & _ & _ & _ & Hdup & _).
  rewrite Hrun. cbn [fst dryRun import_request_options]. rewrite Hdry.
  eexists. split; [reflexivity|].
  rewrite Hzero in Hacc, Hdup. unfold accounted in Hacc. cbn in *.
  split_and!; try done; try lia.
  intros Hnull. apply row_objects_all in Hnull. lia.
Qed.

Lemma post_import_reports_every_row_witness :
  exists st,
    fst (post_import plain_request sample_world)
    = Json200 "Import completed successfully" st (import_request_options plain_request)
    /\ imported st + skipped st + errors st = total st.
Proof.
  destruct (post_import_reports_every_row plain_request sample_world
              (JsonObject <$> sample_rows))
    as (st & H1 & _ & _ & H2 & _); [reflexivity | reflexivity | by left |].
  exists st. split; [exact H1|]. apply H2, no_null_record.
Defined.

(** A request body with [updateExisting] true that does not also set
    [skipDuplicates] to false runs the import with both options true:
    a record whose key is stored is then skipped, not updated, and the
    stored row stays as it was. *)
Theorem update_request_skips_stored_records (body : import_body) (this : importer)
    (c : client) (w : world) (k : string) :
  body_updateExisting body = Some true ->
  body_skipDuplicates body <> Some false ->
  field c "Client ID" = JString k -> k <> "" ->
  is_Some (table (db w) !! k) ->
  no_fault 1 (db w) = true ->
  updateExisting (import_request_options body) = Some true
  /\ skipDuplicates (import_request_options body) = Some true
  /\ skipped (read (stats this) (processClient this (JsonObject c) (import_request_options body) w))
      = skipped (read (stats this) w) + 1
  /\ imported (read (stats this) (processClient this (JsonObject c) (import_request_options body) w))
      = imported (read (stats this) w)
  /\ table (db (processClient this (JsonObject c) (import_request_options body) w)) = table (db w).
Proof.
  intros Hupd Hskip Hk Hne Hrow Hok.
  assert (skipDuplicates (import_request_options body) = Some true) as Hs.
  { cbn. by rewrite bool_decide_eq_false_2. }
  assert (updateExisting (import_request_options body) = Some true) as Hu
    by (cbn; by rewrite Hupd).
  rewrite (processClient_existing_skips this c _ w k Hk Hne Hrow Hok)
    by (left; by rewrite Hs).
  destruct (execute_no_fault (CallGet [JString k]) (db w) 0 Hok) as (_ & Ht & _).
  rewrite read_update_eq, read_set_db. cbn [skipped imported incr_skipped set_skipped].
  split_and!; try done.
Qed.

Lemma update_request_skips_stored_records_witness :
  table (db (processClient stored_importer (JsonObject (full_row "A" "Amy" "z@x.com"))
               (import_request_options update_request) stored_world))
  = table (db stored_world).
Proof.
  apply (update_request_skips_stored_records update_request stored_importer
           (full_row "A" "Amy" "z@x.com") stored_world "A");
    [reflexivity | discriminate | reflexivity | discriminate | vm_compute; eauto
    | reflexivity].
Defined.

(** [importAll] does not come back exactly when a live import is given
    a batch size below 1 and a dataset that is not empty. *)
Lemma importAll_diverges_iff (this : importer) (options : ImportOptions) (w : world) :
  fst (importAll this options w) = Diverged <->
  flag (dryRun options) = false
  /\ effective_batchSize options < 1
  /\ exists rows,
       fs w !! jsonPath this = Some (Json (DocObject (Sheet1Rows rows))) /\ rows <> [].
Proof.
  unfold importAll.
  destruct (Date_now_frame w) as (_ & _ & Hf0 & _).
  destruct (Date_now w) as [startTime w0]. cbn [snd] in *. rewrite Hf0.
  destruct (fs w !! jsonPath this) as [[|doc]|];
    try (split; [done | by intros (_ & _ & rows & ? & _)]).
  destruct (get_Sheet1 doc) as [member|] eqn:Hdoc;
    [|destruct doc; try done; split; [done | by intros (_ & _ & rows & ? & _)]].
  destruct (flag (dryRun options)).
  { unfold analyzeData. destruct (analyze_loop _ _) as [[[? ?] ?]|];
      (split; [done | by intros (? & _)]). }
  destruct (createBatches _ _) as [batches|] eqn:Hb.
  - destruct (Date_now _). split; [done|]. intros (_ & HB & rows & [= ->] & Hne).
    cbn in Hdoc. injection Hdoc as <-. cbn [rows_or_empty] in Hb.
    unfold createBatches in Hb.
    rewrite createBatches_loop_diverges in Hb; [done|lia|].
    destruct rows; [done|]. cbn [length]. lia.
  - split; [|done]. intros _. split; [done|].
    destruct (Z.lt_ge_cases (effective_batchSize options) 1) as [HB|HB].
    + split; [done|]. destruct doc as [| |[| |rows]]; try done;
        cbn in Hdoc; injection Hdoc as <-; try done.
      exists rows. split; [done|]. intros ->. done.
    + destruct (createBatches_coverage_aux (rows_or_empty member) _ HB) as [bs Hbs].
      congruence.
Qed.

(** The route answers with status 500 when the source file is missing,
    cannot be read or parsed, or holds [null], and when a dry run meets a
    [null] row, and in no other case; it leaves a request without an
    answer exactly when the request asks for a live import with a
    negative [batchSize] and the dataset is not empty. *)
Theorem post_import_failures (body : import_body) (w : world) :
  ((exists e, fst (post_import body w) = Json500 e) <->
     (fs w !! default_jsonPath = None
      \/ fs w !! default_jsonPath = Some Unparsable
      \/ fs w !! default_jsonPath = Some (Json DocNull))
     \/ (flag (body_dryRun body) = true
         /\ exists rows,
              fs w !! default_jsonPath = Some (Json (DocObject (Sheet1Rows rows)))
              /\ JsonNull ∈ rows))
  /\ (fst (post_import body w) = NoResponse <->
       flag (body_dryRun body) = false
       /\ (exists b, body_batchSize body = Some b /\ b < 0)
       /\ exists rows,
            fs w !! default_jsonPath = Some (Json (DocObject (Sheet1Rows rows)))
            /\ rows <> []).
Proof.
  unfold post_import.
  destruct (constructor None w) as [this w1] eqn:Hnew.
  destruct (constructor_fresh _ _ _ _ Hnew) as (_ & Hfs & _).
  assert (jsonPath this = default_jsonPath) as Hpath
    by (pose proof (constructor_None w) as H; by rewrite Hnew in H).
  pose proof (importAll_throws_iff this (import_request_options body) w1) as Hiff.
  pose proof (importAll_diverges_iff this (import_request_options body) w1) as Hdiv.
  rewrite Hfs, Hpath in Hiff, Hdiv.
  change (flag (dryRun (import_request_options body))) with (flag (body_dryRun body))
    in Hiff, Hdiv.
  assert (effective_batchSize (import_request_options body) < 1
          <-> exists b, body_batchSize body = Some b /\ b < 0) as Hneg.
  { destruct (effective_batchSize_request body) as [-> HB2].
    destruct (body_batchSize body) as [b|] eqn:Hb.
    - split.
      + intros Hlt. exists b. split; [done|].
        destruct (Z.lt_ge_cases b 0); [done|]. exfalso.
        assert (1 <= or_default (Some b) 100); [|lia]. apply HB2. right. by exists b.
      + intros (b' & [= <-] & Hlt). destruct b; cbn; lia.
    - split; [cbn; lia | by intros (b & ? & _)]. }
  rewrite Hneg in Hdiv.
  destruct (importAll this (import_request_options body) w1) as [[r|e|] w'];
    cbn [fst] in *; split.
  - rewrite <- Hiff. split; intros [e He]; done.
  - rewrite <- Hdiv. done.
  - rewrite <- Hiff. split; eauto.
  - rewrite <- Hdiv. done.
  - rewrite <- Hiff. split; intros [e He]; done.
  - rewrite <- Hdiv. done.
Qed.

(** ** The command-line tool *)

Section CommandLine.

Context (parseInt : string -> option Z).

Lemma parse_args_invariant (args : list string) :
  forall o0 o : ImportOptions,
    parse_args parseInt args o0 = CliOptions o ->
    (skipDuplicates o0 = Some (negb (flag (updateExisting o0))) ->
     skipDuplicates o = Some (negb (flag (updateExisting o))))
    /\ ((exists b, batchSize o0 = Some b /\ b <> 0) ->
        exists b, batchSize o = Some b /\ b <> 0)
    /\ (flag (updateExisting o0) = true -> flag (updateExisting o) = true)
    /\ (flag (dryRun o0) = true -> flag (dryRun o) = true).
Proof.
  induction args as [args IH] using (induction_ltof1 _ (@length string)).
  unfold ltof in IH. intros o0 o.
  destruct args as [|a rest]; cbn [parse_args]; [by intros [= <-]|].
  destruct (String.eqb a "--batch-size").
  { assert (forall x, or_default x 100 <> 0) as Hnz
      by (intros [[| |]|]; cbn; lia).
    destruct rest as [|v rest'].
    - intros [= <-]. cbn. split_and!; try done. intros _. eauto.
    - intros Hp. destruct (IH rest' ltac:(cbn; lia) _ _ Hp) as (H1 & H2 & H3 & H4).
      split_and!; try done. intros _. apply H2. cbn. eauto. }
  destruct (String.eqb a "--update-existing").
  { intros Hp. destruct (IH rest ltac:(cbn; lia) _ _ Hp) as (H1 & H2 & H3 & H4).
    split_and!; try done.
    - intros _. by apply H1.
    - intros _. by apply H3. }
  destruct (String.eqb a "--dry-run").
  { intros Hp. destruct (IH rest ltac:(cbn; lia) _ _ Hp) as (H1 & H2 & H3 & H4).
    split_and!; try done. intros _. by apply H4. }
  destruct (String.eqb a "--help"); [done|].
  intros Hp. by apply (IH rest ltac:(cbn; lia)).
Qed.

End CommandLine.

(** Whatever the arguments, the options the tool hands to [importAll]
    never have [updateExisting] and [skipDuplicates] true together, and
    their [batchSize] is a number other than 0. *)
Theorem cli_options_consistent (parseInt : string -> option Z) (args : list string)
    (o : ImportOptions) :
  parse_args parseInt args cli_defaults = CliOptions o ->
  skipDuplicates o = Some (negb (flag (updateExisting o)))
  /\ (exists b, batchSize o = Some b /\ b <> 0 /\ effective_batchSize o = b).
Proof.
  intros Hp. destruct (parse_args_invariant parseInt args _ _ Hp) as (H1 & H2 & _).
  split; [by apply H1|].
  destruct H2 as (b & Hb & Hnz); [by exists 100|].
  exists b. split_and!; try done. unfold effective_batchSize. rewrite Hb. by destruct b.
Qed.

Lemma cli_options_consistent_witness :
  skipDuplicates (set_update_existing (set_batchSize 100 cli_defaults))
  = Some (negb (flag (updateExisting (set_update_existing (set_batchSize 100 cli_defaults))))).
Proof.
  apply (cli_options_consistent (fun _ => None) ["--batch-size"; "x"; "--update-existing"]).
  reflexivity.
Defined.

Lemma processClient_existing_updates (this : importer) (c : client)
    (options : ImportOptions) (w : world) (k : string) :
  field c "Client ID" = JString k -> k <> "" ->
  is_Some (table (db w) !! k) ->
  no_fault 2 (db w) = true ->
  flag (skipDuplicates options) = false ->
  flag (updateExisting options) = true ->
  not_null_ok data_columns (row_values c) = true ->
  imported (read (stats this) (processClient this (JsonObject c) options w))
    = imported (read (stats this) w) + 1
  /\ skipped (read (stats this) (processClient this (JsonObject c) options w))
      = skipped (read (stats this) w)
  /\ errors (read (stats this) (processClient this (JsonObject c) options w))
      = errors (read (stats this) w)
  /\ table (db (processClient this (JsonObject c) options w)) = <[k := row_values c]> (table (db w)).
Proof.
  intros Hk Hne Hrow Hok Hskip Hupd Hnn.
  unfold processClient, processClient_start. rewrite Hk, (truthy_key k Hne).
  cbn [negb processClient_resume]. rewrite Hk.
  rewrite (checkExistingClient_found k (db w) (no_fault_S _ _ Hok) Hrow), Hskip, Hupd.
  destruct (execute_no_fault (CallGet [JString k]) (db w) 1 Hok) as (_ & Ht & Hc & Hok').
  set (d1 := snd (execute (CallGet [JString k]) (db w))) in *. clearbody d1.
  cbn [processClient_resume db set_db].
  rewrite <- Ht in Hrow.
  rewrite (updateClient_found c k d1 Hk Hok' Hrow Hnn).
  destruct (execute_no_fault
              (CallUpdate ((field c <$> data_fields) ++ [field c "Client ID"])) d1 0 Hok')
    as (_ & Ht2 & _).
  destruct (execute (CallUpdate _) d1) as [f2 d2]. cbn [snd] in *.
  rewrite read_update_eq, !read_set_db. cbn. rewrite Ht2, Ht. by split_and!.
Qed.

(** With [--update-existing] as first argument the tool turns
    [skipDuplicates] off, so a record whose key is stored is updated:
    [imported] grows by 1 and the stored row takes the record's columns. *)
Theorem cli_update_existing_updates (parseInt : string -> option Z)
    (rest : list string) (o : ImportOptions) (this : importer) (c : client)
    (w : world) (k : string) :
  parse_args parseInt ("--update-existing" :: rest) cli_defaults = CliOptions o ->
  field c "Client ID" = JString k -> k <> "" ->
  is_Some (table (db w) !! k) ->
  no_fault 2 (db w) = true ->
  not_null_ok data_columns (row_values c) = true ->
  imported (read (stats this) (processClient this (JsonObject c) o w))
    = imported (read (stats this) w) + 1
  /\ skipped (read (stats this) (processClient this (JsonObject c) o w))
      = skipped (read (stats this) w)
  /\ table (db (processClient this (JsonObject c) o w)) = <[k := row_values c]> (table (db w)).
Proof.
  intros Hp Hk Hne Hrow Hok Hnn. cbn [parse_args String.eqb Ascii.eqb Bool.eqb] in Hp.
  destruct (parse_args_invariant parseInt rest _ _ Hp) as (H1 & _ & H3 & _).
  specialize (H1 eq_refl). specialize (H3 eq_refl).
  assert (flag (skipDuplicates o) = false) as Hskip by (rewrite H1, H3; done).
  destruct (processClient_existing_updates this c o w k Hk Hne Hrow Hok Hskip H3 Hnn)
    as (Hi & Hs & _ & Ht).
  by split_and!.
Qed.

Lemma cli_update_existing_updates_witness :
  table (db (processClient stored_importer (JsonObject (full_row "A" "Amy" "z@x.com"))
               (set_update_existing cli_defaults) stored_world))
  = <[ "A" := row_values (full_row "A" "Amy" "z@x.com") ]> (table (db stored_world)).
Proof.
  apply (cli_update_existing_updates (fun _ => None) [] (set_update_existing cli_defaults)
           stored_importer (full_row "A" "Amy" "z@x.com") stored_world "A");
    [reflexivity | reflexivity | discriminate | vm_compute; eauto | reflexivity
    | vm_compute; reflexivity].
Defined.

(** [formatTime] shows whole minutes and the seconds left over, and only
    the seconds under one minute: for a time of [ms] milliseconds, a
    whole number from 0 up to 2^53, the two numbers printed recompose to
    [floor(ms / 1000)] with the seconds below 60, and both are below
    10^21. *)
Theorem formatTime_minutes_and_seconds (ms : Z) :
  0 <= ms < 9007199254740992 ->
  formatTime ms
  = (if 60000 <=? ms
     then String.append (number_to_string (ms / 60000))
            (String.append "m "
               (String.append (number_to_string ((ms / 1000) mod 60)) "s"))
     else String.append (number_to_string (ms / 1000)) "s")
  /\ 0 <= (ms / 1000) mod 60 < 60
  /\ 60 * (ms / 60000) + (ms / 1000) mod 60 = ms / 1000
  /\ ms / 60000 < 10 ^ 21.
Proof.
  intros Hms. unfold formatTime.
  assert (ms / 60000 < 10 ^ 21) as Hbig.
  { apply Z.div_lt_upper_bound; [lia|]. change (10 ^ 21) with 1000000000000000000000. lia. }
  assert (0 <= ms / 1000) as Hs by (apply Z.div_pos; lia).
  assert (ms / 1000 / 60 = ms / 60000) as Hm by (rewrite Z.div_div by lia; reflexivity).
  rewrite Hm, Z.rem_mod_nonneg by lia.
  pose proof (Z.mod_pos_bound (ms / 1000) 60 ltac:(lia)) as Hr.
  pose proof (Z.div_mod (ms / 1000) 60 ltac:(lia)) as Hdm. rewrite Hm in Hdm.
  split; [|split; [|split]; lia].
  destruct (Z.leb_spec 60000 ms) as [Hge|Hlt].
  - assert (1 <= ms / 60000) by (apply Z.div_le_lower_bound; lia).
    destruct (Z.ltb_spec 0 (ms / 60000)); [done|lia].
  - assert (ms / 60000 = 0) as Hz by (apply Z.div_small; lia).
    rewrite Hz in *. cbn [Z.ltb Z.compare]. rewrite Z.mod_small; [done|]. lia.
Qed.

Lemma formatTime_minutes_and_seconds_witness :
  formatTime 75250 = "1m 15s" /\ formatTime 59999 = "59s".
Proof.
  split.
  - destruct (formatTime_minutes_and_seconds 75250) as [H _]; [lia|]. exact H.
  - destruct (formatTime_minutes_and_seconds 59999) as [H _]; [lia|]. exact H.
Defined.

(** ** GET /easypay/clients *)

Lemma pages_concat {A} (L : nat) (n : nat) :
  forall l : list A,
    (length l <= n * L)%nat ->
    concat ((fun p => take L (drop (p * L) l)) <$> seq 0 n) = l.
Proof.
  induction n as [|n IH]; intros l Hlen.
  - cbn in *. destruct l; [done|]. cbn in Hlen. lia.
  - cbn [seq fmap list_fmap concat]. rewrite <- fmap_S_seq, <- list_fmap_compose.
    cbn [Nat.mul drop]. trans (take L l ++ drop L l); [|apply take_drop]. f_equal.
    rewrite <- (IH (drop L l)) by (rewrite length_drop; lia).
    f_equal. apply list_fmap_ext. intros _ p _. cbn. by rewrite drop_drop.
Qed.

Lemma totalPages_ceil (total limit : Z) :
  1 <= limit ->
  limit * (totalPages total limit - 1) < total <= limit * totalPages total limit.
Proof.
  intros HL. unfold totalPages.
  pose proof (Z.mul_div_le (- total) limit ltac:(lia)).
  pose proof (Z.mul_succ_div_gt (- total) limit ltac:(lia)).
  lia.
Qed.

Lemma limit_offset_page {A} (rows : list A) (L : Z) (p : nat) :
  1 <= L ->
  limit_offset rows L ((Z.of_nat (S p) - 1) * L)
  = take (Z.to_nat L) (drop (p * Z.to_nat L) rows).
Proof.
  intros HL. unfold limit_offset.
  destruct (Z.ltb_spec L 0); [lia|]. do 2 f_equal. nia.
Qed.

(** With a page size of at least 1 (the [limit] of the query is absent,
    not a number, zero or positive) the page size is at most 100, the
    pages 1 to [totalPages] put one after the other are exactly the rows
    in their order, every page after [totalPages] is empty, and the
    handler answers with the rows of the page asked for. *)
Theorem paging_covers_rows (parseInt : string -> option Z) (q : page_query)
    (rows : list stored_row) :
  1 <= page_limit parseInt q ->
  page_limit parseInt q <= 100
  /\ concat ((fun p => limit_offset rows (page_limit parseInt q)
                         ((Z.of_nat p - 1) * page_limit parseInt q))
             <$> seq 1 (Z.to_nat (totalPages (Z.of_nat (length rows))
                                    (page_limit parseInt q))))
      = rows
  /\ (forall p, totalPages (Z.of_nat (length rows)) (page_limit parseInt q) < p ->
        limit_offset rows (page_limit parseInt q) ((p - 1) * page_limit parseInt q) = [])
  /\ (forall p, 1 <= p ->
        Z.of_nat (length (limit_offset rows (page_limit parseInt q)
                            ((p - 1) * page_limit parseInt q)))
        <= page_limit parseInt q)
  /\ get_clients parseInt q (count_of rows) (select_of rows)
      = Clients200
          (transform <$> limit_offset rows (page_limit parseInt q)
                           (page_offset parseInt q))
          {| page := page_number parseInt q; limit := page_limit parseInt q;
             page_total := Z.of_nat (length rows);
             page_totalPages := totalPages (Z.of_nat (length rows))
                                  (page_limit parseInt q) |}.
Proof.
  intros HL. set (L := page_limit parseInt q) in *.
  pose proof (totalPages_ceil (Z.of_nat (length rows)) L HL) as Hceil.
  set (T := totalPages (Z.of_nat (length rows)) L) in *.
  split; [unfold L, page_limit; lia|]. split; [|split; [|split]].
  - rewrite <- fmap_S_seq, <- list_fmap_compose.
    trans (concat ((fun p => take (Z.to_nat L) (drop (p * Z.to_nat L) rows))
                     <$> seq 0 (Z.to_nat T))); [|apply pages_concat; nia].
    f_equal. apply list_fmap_ext. intros _ p _. cbn. by apply limit_offset_page.
  - intros p Hp. unfold limit_offset. destruct (Z.ltb_spec L 0); [lia|].
    rewrite drop_ge by nia. apply take_nil.
  - intros p Hp. unfold limit_offset. destruct (Z.ltb_spec L 0); [lia|].
    rewrite length_take. lia.
  - reflexivity.
Qed.

Lemma paging_covers_rows_witness :
  concat ((fun p => limit_offset [("A", []); ("B", []); ("C", [])]
                      (page_limit (fun _ => Some 2) {| query_page := None; query_limit := Some "2" |})
                      ((Z.of_nat p - 1)
                       * page_limit (fun _ => Some 2)
                           {| query_page := None; query_limit := Some "2" |}))
          <$> seq 1 (Z.to_nat (totalPages (Z.of_nat (length [("A", @nil sqlval); ("B", []); ("C", [])]))
                                 (page_limit (fun _ => Some 2)
                                    {| query_page := None; query_limit := Some "2" |}))))
  = [("A", @nil sqlval); ("B", []); ("C", [])].
Proof.
  apply (paging_covers_rows (fun _ => Some 2)
           {| query_page := None; query_limit := Some "2" |}
           [("A", []); ("B", []); ("C", [])]).
  vm_compute. discriminate.
Defined.

(** A negative [limit] in the query passes [Math.min(..., 100)]
    unchanged and reaches the statement as a negative [LIMIT], which is
    no limit: on the first page the handler then answers with every row,
    however many there are, and reports a [totalPages] of 0 or less. *)
Theorem negative_limit_returns_all_rows (parseInt : string -> option Z)
    (q : page_query) (rows : list stored_row) (l : Z) :
  parse_query parseInt (query_limit q) = Some l ->
  l < 0 ->
  parse_query parseInt (query_page q) = None ->
  page_limit parseInt q = l
  /\ totalPages (Z.of_nat (length rows)) l <= 0
  /\ get_clients parseInt q (count_of rows) (select_of rows)
      = Clients200 (transform <$> rows)
          {| page := 1; limit := l; page_total := Z.of_nat (length rows);
             page_totalPages := totalPages (Z.of_nat (length rows)) l |}.
Proof.
  intros Hl Hneg Hp.
  assert (page_limit parseInt q = l) as HL.
  { unfold page_limit. rewrite Hl. destruct l; cbn; lia. }
  split; [done|]. split.
  - unfold totalPages.
    pose proof (Z.div_pos (Z.of_nat (length rows)) (- l) ltac:(lia) ltac:(lia)) as Hq.
    rewrite <- Z.div_opp_opp in Hq by lia. rewrite Z.opp_involutive in Hq. lia.
  - unfold get_clients, select_of, count_of, page_number. rewrite HL, Hp.
    cbn [or_default]. unfold limit_offset.
    destruct (Z.ltb_spec l 0); [|lia]. by rewrite Z.mul_0_l.
Qed.

Lemma negative_limit_returns_all_rows_witness :
  get_clients (fun _ => Some (-1)) {| query_page := None; query_limit := Some "-1" |}
    (count_of [("A", []); ("B", [])]) (select_of [("A", []); ("B", [])])
  = Clients200 (transform <$> [("A", []); ("B", [])])
      {| page := 1; limit := -1; page_total := 2; page_totalPages := totalPages 2 (-1) |}.
Proof.
  apply (negative_limit_returns_all_rows (fun _ => Some (-1))
           {| query_page := None; query_limit := Some "-1" |}
           [("A", []); ("B", [])] (-1)); [reflexivity | lia | reflexivity].
Defined.

Lemma transform_row_values (c : client) (k : string) (name : string) :
  field c "Client ID" = JString k ->
  name ∈ "Client ID" :: data_fields ->
  field (transform (k, row_values c)) name = shown (bind_param (field c name)).
Proof.
  intros Hk Hin. unfold data_fields in Hin.
  repeat (apply elem_of_cons in Hin as [-> | Hin]);
    try (by apply elem_of_nil in Hin);
    try (rewrite Hk); try (vm_compute; by repeat case_match).
Qed.

(** The listing reads back what the importer stored: for a record that
    [insertClient] stored, the object the handler builds from the stored
    row has the record's text under each of the 23 member names, from
    "Client ID" to "Registration Type", and [null] where the record had
    no value; it has no other member. *)
Theorem imported_record_reads_back (c : client) (d d' : database) :
  insertClient c d = (DbOk (), d') ->
  exists k,
    table d' !! k = Some (row_values c)
    /\ (forall name, name ∈ "Client ID" :: data_fields ->
          field (transform (k, row_values c)) name = shown (bind_param (field c name)))
    /\ dom (transform (k, row_values c)) = list_to_set ("Client ID" :: data_fields).
Proof.
  intros Hins. destruct (insertClient_inv c d d' Hins) as (k & Hk & _ & _ & Ht & _).
  exists k. split; [by rewrite Ht, lookup_insert_eq|]. split.
  - intros name Hin. by apply transform_row_values.
  - unfold transform. rewrite dom_list_to_map_L. f_equal.
Qed.

Lemma imported_record_reads_back_witness :
  exists k,
    table (snd (insertClient (full_row "A" "Ann" "a@x.com") empty_db)) !! k
    = Some (row_values (full_row "A" "Ann" "a@x.com"))
    /\ field (transform (k, row_values (full_row "A" "Ann" "a@x.com"))) "Display Name"
        = shown (bind_param (field (full_row "A" "Ann" "a@x.com") "Display Name")).
Proof.
  destruct (imported_record_reads_back (full_row "A" "Ann" "a@x.com") empty_db
              (snd (insertClient (full_row "A" "Ann" "a@x.com") empty_db)))
    as (k & H1 & H2 & _); [vm_compute; reflexivity|].
  exists k. split; [done|]. apply H2. right. by left.
Defined.

(** ** Statistics objects and later imports *)

Lemma importAll_frame (this : importer) (options : ImportOptions) (w : world) (l : loc) :
  l <> stats this ->
  heap (snd (importAll this options w)) !! l = heap w !! l.
Proof.
  intros Hl. unfold importAll, analyzeData.
  destruct (Date_now_frame w) as (Hh0 & _ & _ & _).
  destruct (Date_now w) as [startTime w0]. cbn [snd] in *. rewrite <- Hh0.
  destruct (fs w0 !! jsonPath this) as [[|doc]|]; try done.
  destruct (get_Sheet1 doc) as [member|]; [|done].
  destruct (flag (dryRun options)).
  - destruct (analyze_loop _ _) as [[[? ?] ?]|]; cbn; by rewrite !lookup_insert_ne.
  - destruct (createBatches _ _) as [batches|]; cbn [snd].
    + set (w1 := update (stats this) _ w0).
      destruct (process_batches_counted this options batches w1) as [_ (_ & _ & Hh)].
      destruct (Date_now_frame (process_batches this options batches w1)) as (Hh3 & _).
      destruct (Date_now (process_batches this options batches w1)) as [now w3].
      cbn [snd] in *. cbn. rewrite lookup_insert_ne by done. rewrite Hh3, (Hh l Hl).
      unfold w1. cbn. by rewrite lookup_insert_ne.
    + cbn. by rewrite lookup_insert_ne.
Qed.

(** [resetStats] gives the importer a new object: the object an earlier
    [importAll] returned keeps its numbers through any later import on
    the reset importer, which starts again from zero. *)
Theorem resetStats_detaches (this : importer) (options : ImportOptions) (w : world) :
  is_Some (heap w !! stats this) ->
  stats (fst (resetStats this w)) <> stats this
  /\ read (stats (fst (resetStats this w))) (snd (resetStats this w)) = zero_stats
  /\ read (stats this)
        (snd (importAll (fst (resetStats this w)) options (snd (resetStats this w))))
      = read (stats this) w
  /\ db (snd (resetStats this w)) = db w.
Proof.
  intros Hlive.
  assert (fresh (dom (heap w)) <> stats this) as Hne.
  { intros Heq. apply (is_fresh (dom (heap w))). rewrite Heq. by apply elem_of_dom. }
  split; [done|]. split; [apply resetStats_zero|]. split; [|done].
  unfold read. rewrite importAll_frame by (cbn; congruence).
  unfold resetStats, alloc. cbn. by rewrite lookup_insert_ne.
Qed.

Lemma resetStats_detaches_witness :
  read (stats stored_importer)
    (snd (importAll (fst (resetStats stored_importer stored_world)) live_options
            (snd (resetStats stored_importer stored_world))))
  = read (stats stored_importer) stored_world.
Proof.
  apply (resetStats_detaches stored_importer live_options stored_world).
  vm_compute. eauto.
Defined.

(** The tool ends with code 0 without touching anything when [--help]
    is met.  It ends with code 1 when the arguments parse and the source
    file is missing, cannot be read or parsed, or holds [null], or the
    arguments ask for a dry run and a row is [null], and in no other
    case. *)
Theorem cli_exit_codes (parseInt : string -> option Z) (args : list string) (w : world) :
  (parse_args parseInt args cli_defaults = CliExit 0 ->
     main parseInt args w = (CliExited 0, w))
  /\ (fst (main parseInt args w) = CliExited 1 <->
       exists o,
         parse_args parseInt args cli_defaults = CliOptions o
         /\ ((fs w !! default_jsonPath = None
              \/ fs w !! default_jsonPath = Some Unparsable
              \/ fs w !! default_jsonPath = Some (Json DocNull))
             \/ (flag (dryRun o) = true
                 /\ exists rows,
                      fs w !! default_jsonPath = Some (Json (DocObject (Sheet1Rows rows)))
                      /\ JsonNull ∈ rows))).
Proof.
  unfold main. split; [by intros ->|].
  destruct (parse_args parseInt args cli_defaults) as [o|code] eqn:Hp.
  - destruct (constructor None w) as [this w1] eqn:Hnew.
    destruct (constructor_fresh _ _ _ _ Hnew) as (_ & Hfs & _).
    assert (jsonPath this = default_jsonPath) as Hpath
      by (pose proof (constructor_None w) as H; by rewrite Hnew in H).
    pose proof (importAll_throws_iff this o w1) as Hiff. rewrite Hfs, Hpath in Hiff.
    destruct (importAll this o w1) as [[r|e|] w']; cbn [fst] in *.
    + split; [done|]. intros (o' & [= <-] & Hbad). apply Hiff in Hbad as [e He]. done.
    + split; [|done]. intros _. exists o. split; [done|]. apply Hiff. eauto.
    + split; [done|]. intros (o' & [= <-] & Hbad). apply Hiff in Hbad as [e He]. done.
  - assert (code = 0) as ->.
    { clear -Hp. revert Hp. generalize cli_defaults.
      induction args as [args IH] using (induction_ltof1 _ (@length string)).
      unfold ltof in IH. intros o0.
      destruct args as [|a rest]; cbn [parse_args]; [done|].
      destruct (String.eqb a "--batch-size").
      { destruct rest as [|v rest']; [done|]. apply (IH rest'). cbn. lia. }
      destruct (String.eqb a "--update-existing"); [apply (IH rest); cbn; lia|].
      destruct (String.eqb a "--dry-run"); [apply (IH rest); cbn; lia|].
      destruct (String.eqb a "--help"); [by intros [= <-]|].
      apply (IH rest). cbn. lia. }
    cbn [fst]. split; [done|]. by intros (o & ? & _).
Qed.

Lemma cli_exit_codes_witness :
  main (fun _ => None) ["--dry-run"; "--help"] sample_world = (CliExited 0, sample_world).
Proof.
  apply (cli_exit_codes (fun _ => None) ["--dry-run"; "--help"] sample_world).
  reflexivity.
Defined.

(** ** Imported records and new rows *)

Lemma new_rows_same (this : importer) (w w' : world) :
  table (db w') = table (db w) ->
  imported (read (stats this) w') = imported (read (stats this) w) ->
  new_rows this w w'.
Proof. unfold new_rows. intros -> ->. lia. Qed.

Lemma new_rows_refl (this : importer) (w : world) : new_rows this w w.
Proof. by apply new_rows_same. Qed.

Lemma new_rows_trans (this : importer) (w1 w2 w3 : world) :
  new_rows this w1 w2 -> new_rows this w2 w3 -> new_rows this w1 w3.
Proof. unfold new_rows. lia. Qed.

Lemma db_run_insert_size (params : list jsval) (d : database) :
  (fst (db_run_insert params d) = DbOk ()
   /\ size (table (snd (db_run_insert params d))) = S (size (table d)))
  \/ (fst (db_run_insert params d) = DbErr
      /\ table (snd (db_run_insert params d)) = table d).
Proof.
  unfold db_run_insert. pose proof (execute_table (CallInsert params) d) as Ht.
  destruct (execute _ d) as [[|] d1]; cbn [fst snd] in *; [by right|].
  destruct (bind_param <$> params) as [|[|k] vals]; cbn [fst snd]; try by right.
  destruct (bool_decide (is_Some (table d1 !! k))) eqn:Hin; cbn [fst snd]; [by right|].
  destruct (not_null_ok data_columns vals); cbn [fst snd table set_table]; [|by right].
  left. split; [done|]. rewrite <- Ht. apply map_size_insert_None, eq_None_not_Some.
  by apply bool_decide_eq_false_1 in Hin.
Qed.

Section NewRows.

Context (this : importer) (options : ImportOptions).
Hypothesis no_update : cannot_update options.

Lemma resume_new_rows (t : task) (w : world) :
  awaits_update t = false ->
  awaits_update (fst (processClient_resume this options t w)) = false
  /\ new_rows this w (snd (processClient_resume this options t w)).
Proof.
  intros Ht. destruct t as [c|c|c|]; cbn [processClient_resume]; [| |done|].
  - pose proof (db_get_table [field c "Client ID"] (db w)) as Htab.
    unfold checkExistingClient.
    destruct (db_get _ _) as [[|[|]] d]; cbn [snd] in *.
    + split; [done|]. apply new_rows_same; [done|]. by rewrite read_update_eq, read_set_db.
    + destruct (flag (skipDuplicates options)) eqn:Hs,
        (flag (updateExisting options)) eqn:Hu;
        try (destruct no_update; congruence);
        cbn [fst snd]; (split; [done|]); (apply new_rows_same; [done|]);
        by rewrite read_update_eq, read_set_db.
    + split; [done|]. by apply new_rows_same.
  - destruct (db_run_insert_size (field c "Client ID" :: (field c <$> data_fields)) (db w))
      as [[Hok Hsize] | [Herr Htab]]; unfold insertClient;
      destruct (db_run_insert _ _) as [r d]; cbn [fst snd] in *; subst r;
      cbn [fst snd]; (split; [done|]).
    + unfold new_rows. rewrite read_update_eq, read_set_db. cbn. rewrite Hsize. lia.
    + apply new_rows_same; [done|]. by rewrite read_update_eq, read_set_db.
  - split; [done|]. apply new_rows_refl.
Qed.

Lemma start_all_new_rows (batch : list json_row) (w : world) :
  Forall (fun t => awaits_update t = false) (fst (start_all this batch w))
  /\ new_rows this w (snd (start_all this batch w)).
Proof.
  revert w. induction batch as [|c rest IH]; intros w; cbn [start_all].
  - split; [done|]. apply new_rows_refl.
  - unfold processClient_start. destruct c as [|c].
    { destruct (IH w) as [Hinv HR].
      destruct (start_all this rest w) as [ts w2]. cbn [fst snd] in *.
      split; [by constructor|done]. }
    destruct (negb (truthy (field c "Client ID"))).
    + destruct (IH (update (stats this) incr_errors w)) as [Hinv HR].
      destruct (start_all this rest _) as [ts w2]. cbn [fst snd] in *.
      split; [by constructor|]. eapply new_rows_trans; [|exact HR].
      apply new_rows_same; [done|]. by rewrite read_update_eq.
    + destruct (IH w) as [Hinv HR].
      destruct (start_all this rest w) as [ts w2]. cbn [fst snd] in *.
      split; [by constructor|done].
Qed.

Lemma resume_at_new_rows (i : nat) (tasks : list task) (w : world) :
  Forall (fun t => awaits_update t = false) tasks ->
  Forall (fun t => awaits_update t = false) (fst (resume_at this options i tasks w))
  /\ new_rows this w (snd (resume_at this options i tasks w)).
Proof.
  intros Hinv. unfold resume_at. destruct (tasks !! i) as [t|] eqn:Hi;
    [|split; [done|apply new_rows_refl]].
  assert (awaits_update t = false) as Ht
    by (by eapply (Forall_lookup_1 (fun t => awaits_update t = false))).
  destruct (resume_new_rows t w Ht) as [Ht' HR].
  destruct (processClient_resume this options t w) as [t' w']. cbn [fst snd] in *.
  split; [|done]. by apply Forall_insert.
Qed.

Lemma settle_all_new_rows (tasks : list task) (w : world) :
  Forall (fun t => awaits_update t = false) tasks ->
  new_rows this w (settle_all this options tasks w).
Proof.
  revert w. induction tasks as [|t ts IH]; intros w Hinv; cbn [settle_all];
    [apply new_rows_refl|].
  apply Forall_cons in Hinv as [Ht Hts].
  destruct (resume_new_rows t w Ht) as [Ht1 HR1].
  destruct (processClient_resume this options t w) as [t1 w1]. cbn [fst snd] in *.
  destruct (resume_new_rows t1 w1 Ht1) as [_ HR2].
  destruct (processClient_resume this options t1 w1) as [t2 w2]. cbn [fst snd] in *.
  eapply new_rows_trans; [exact HR1|]. eapply new_rows_trans; [exact HR2|]. by apply IH.
Qed.

Lemma event_loop_new_rows (picks : list nat) :
  forall (tasks : list task) (w : world),
    Forall (fun t => awaits_update t = false) tasks ->
    new_rows this w (event_loop this options picks tasks w).
Proof.
  induction picks as [|i picks IH]; intros tasks w Hinv; cbn [event_loop];
    destruct (forallb is_settled tasks); try (by apply new_rows_same).
  - eapply new_rows_trans; [|by apply settle_all_new_rows]. by apply new_rows_same.
  - destruct (resume_at_new_rows i tasks w Hinv) as [Hinv' HR].
    destruct (resume_at this options i tasks w) as [tasks' w']. cbn [fst snd] in *.
    eapply new_rows_trans; [exact HR|]. by apply IH.
Qed.

Lemma process_batches_new_rows (batches : list (list json_row)) (w : world) :
  new_rows this w (process_batches this options batches w).
Proof.
  unfold process_batches. revert w.
  induction batches as [|b bs IH]; intros w; cbn [fold_left]; [apply new_rows_refl|].
  eapply new_rows_trans; [|apply IH]. unfold processBatch.
  destruct (start_all_new_rows b w) as [Hinv HR].
  destruct (start_all this b w) as [tasks w1]. cbn [fst snd] in *.
  eapply new_rows_trans; [exact HR|]. by apply event_loop_new_rows.
Qed.

End NewRows.

(** With [skipDuplicates] true, or [updateExisting] false or absent,
    [imported] counts exactly the rows the table gained: whatever the
    source, the driver errors and the order of completion, [imported]
    grows by the growth of the table.  In particular a key that occurs
    more than once in the source is inserted at most once. *)
Theorem imported_counts_new_rows (this : importer) (options : ImportOptions)
    (w : world) :
  cannot_update options ->
  imported (read (stats this) (snd (importAll this options w)))
    - imported (read (stats this) w)
  = Z.of_nat (size (table (db (snd (importAll this options w)))))
    - Z.of_nat (size (table (db w))).
Proof.
  intros Hopt. change (new_rows this w (snd (importAll this options w))).
  unfold importAll, analyzeData.
  destruct (Date_now_frame w) as (_ & Hd0 & _ & _).
  pose proof (read_Date_now (stats this) w) as Hr0.
  destruct (Date_now w) as [startTime w0]. cbn [snd] in *.
  assert (new_rows this w w0) as H0 by (apply new_rows_same; [by rewrite Hd0|by rewrite Hr0]).
  destruct (fs w0 !! jsonPath this) as [[|doc]|]; try done.
  destruct (get_Sheet1 doc) as [member|]; [|done].
  destruct (flag (dryRun options)).
  - eapply new_rows_trans; [exact H0|].
    destruct (analyze_loop _ _) as [[[? ?] ?]|]; cbn [snd];
      (apply new_rows_same; [done|]); by rewrite !read_update_eq.
  - set (w1 := update (stats this) _ w0).
    assert (new_rows this w0 w1) as H1
      by (apply new_rows_same; [done|]; unfold w1; by rewrite read_update_eq).
    destruct (createBatches _ _) as [batches|]; cbn [snd];
      [|by eapply new_rows_trans].
    pose proof (process_batches_new_rows this options Hopt batches w1) as H2.
    set (w2 := process_batches this options batches w1) in *.
    destruct (Date_now_frame w2) as (_ & Hd3 & _ & _).
    pose proof (read_Date_now (stats this) w2) as Hr3.
    destruct (Date_now w2) as [now w3]. cbn [snd] in *.
    eapply new_rows_trans; [exact H0|]. eapply new_rows_trans; [exact H1|].
    eapply new_rows_trans; [exact H2|].
    apply new_rows_same; [cbn; by rewrite Hd3|]. by rewrite read_update_eq, Hr3.
Qed.

Lemma imported_counts_new_rows_witness :
  imported (read (stats (fst (constructor None (race_world [0; 1; 0; 1]%nat))))
              (snd (importAll (fst (constructor None (race_world [0; 1; 0; 1]%nat)))
                      no_options (snd (constructor None (race_world [0; 1; 0; 1]%nat))))))
  - imported (read (stats (fst (constructor None (race_world [0; 1; 0; 1]%nat))))
                (snd (constructor None (race_world [0; 1; 0; 1]%nat))))
  = Z.of_nat (size (table (db (snd (importAll
                 (fst (constructor None (race_world [0; 1; 0; 1]%nat)))
                 no_options (snd (constructor None (race_world [0; 1; 0; 1]%nat))))))))
    - Z.of_nat (size (table (db (snd (constructor None (race_world [0; 1; 0; 1]%nat)))))).
Proof.
  apply (imported_counts_new_rows (fst (constructor None (race_world [0; 1; 0; 1]%nat)))
           no_options (snd (constructor None (race_world [0; 1; 0; 1]%nat)))).
  right. reflexivity.
Defined.

Lemma dry_run_count_closed_form_witness :
  count_duplicates example_rows <= 2 * (Z.of_nat (length example_rows) - 1).
Proof.
  apply (dry_run_count_closed_form example_rows). discriminate.
Defined.

Lemma post_import_failures_witness :
  exists e, fst (post_import plain_request null_world) = Json500 e.
Proof.
  apply (post_import_failures plain_request null_world). left. right. right. reflexivity.
Defined.
